(** * Stencil: global-style cache, style-import linker, field rewriter

    A shallow embedding of
    - [src/compiler/style/global-styles.ts] (the incremental global-style
      cache and its import-graph walk),
    - [src/compiler/transformers/style-imports.ts] (the style-import linker),
    - the constructor rewriting exercised by
      [src/compiler/transformers/test/convert-decorators.spec.ts].

    JavaScript arrays are lists, [Map<string, string[]>] is a
    [gmap string (list string)], [string | null] is [option string].
    Promises are run to completion in the order in which they are created. *)

From stdpp Require Import base option list strings gmap sets.

(** ** JavaScript array helpers *)

(** [arr.includes(x)] on an array of strings. *)
Definition includes (arr : list string) (x : string) : bool :=
  bool_decide (x ∈ arr).

(** [arr.some(f)]. *)
Definition some {A} (f : A → bool) (arr : list A) : bool := existsb f arr.

(** [arr.push(x)]. *)
Definition push {A} (arr : list A) (x : A) : list A := arr ++ [x].

(** JavaScript truthiness of a [string | null] value: [null] and the empty
    string are falsy, every other string is truthy. *)
Definition truthy (v : option string) : bool :=
  match v with
  | None => false
  | Some s => negb (bool_decide (s = ""))
  end.

(** ** The import-graph walk of [global-styles.ts] *)

Module GlobalStyles.

(** State threaded through one top-level walk: the shared [noLoop] array
    (called [checkedFiles] in [hasChangedImportContent]) and the log of
    [compilerCtx.fs.readFile] calls. *)
Record Walk := mkWalk {
  noLoop : list string;
  fsReads : list string;
}.

Definition pushNoLoop (filePath : string) (w : Walk) : Walk :=
  {| noLoop := push (noLoop w) filePath; fsReads := fsReads w |}.

Definition logRead (filePath : string) (w : Walk) : Walk :=
  {| noLoop := noLoop w; fsReads := push (fsReads w) filePath |}.

Section Walk.
(** [getCssImports] (from [./css-imports], an external collaborator):
    the resolved [filePath]s of the imports found in [content]. *)
Variable getCssImports : string → string → list string.
(** The file system: a finite map from path to content; [readFile]
    throws on a path that is not in the map. *)
Variable fs : gmap string string.
(** [buildCtx.filesChanged]. *)
Variable filesChanged : list string.

(** [buildCtx.filesChanged.some(changed => cssImports.some(c => c.filePath === changed))] *)
Definition isChangedImport (cssImports : list string) : bool :=
  some (λ changedFilePath,
          some (λ c, bool_decide (c = changedFilePath)) cssImports)
       filesChanged.

(** The "keep digging" block: [Promise.all(cssImports.map(async ...))].
    A read that throws is caught and contributes [false]. The callbacks are
    run one after the other, in array order, each to completion; they share
    the visited array, and the results are collected in array order. *)
Fixpoint keepDigging (rec : string → string → Walk → option (bool * Walk))
    (cssImports : list string) (w : Walk) : option (list bool * Walk) :=
  match cssImports with
  | [] => Some ([], w)
  | filePath :: rest =>
      let w1 := logRead filePath w in
      match fs !! filePath with
      | None =>
          '(results, w2) ← keepDigging rec rest w1;
          Some (false :: results, w2)
      | Some content =>
          '(r, w2) ← rec filePath content w1;
          '(results, w3) ← keepDigging rec rest w2;
          Some (r :: results, w3)
      end
  end.

Definition hasChangedImportContent
    (rec : string → string → Walk → option (bool * Walk))
    (filePath content : string) (checkedFiles : Walk) : option (bool * Walk) :=
  let cssImports := getCssImports filePath content in
  if bool_decide (length cssImports = 0) then Some (false, checkedFiles)
  else if isChangedImport cssImports then Some (true, checkedFiles)
  else
    '(results, w) ← keepDigging rec cssImports checkedFiles;
    Some (bool_decide (true ∈ results), w).

(** [fuel] bounds the depth of the recursion; [None] means it ran out. *)
Fixpoint hasChangedImportFile (fuel : nat) (filePath content : string)
    (w : Walk) : option (bool * Walk) :=
  match fuel with
  | 0 => None
  | S fuel' =>
      if includes (noLoop w) filePath then Some (false, w)
      else
        hasChangedImportContent (hasChangedImportFile fuel')
          filePath content (pushNoLoop filePath w)
  end.

(** *** Notions used to state what the walk achieves *)

(** Number of readable files that have not been pushed yet. *)
Definition unvisited (w : Walk) : nat :=
  size (dom fs ∖ (list_to_set (noLoop w) : gset string)).

(** The reads between [w] and [w'] are of files that did not change. *)
Definition readsUnchanged (w w' : Walk) : Prop :=
  ∃ extra, fsReads w' = fsReads w ++ extra ∧
           Forall (λ p, p ∉ filesChanged) extra.

Section Coverage.
(** The entry file of the walk and the content passed for it. *)
Variable root rootContent : string.

(** The content a file is walked with: the entry file with the content
    given by the caller, every other file with what [readFile] returns. *)
Definition contentOf (g : string) : option string :=
  if decide (g = root) then Some rootContent else fs !! g.

(** Files the walk can get to: the entry file, and every readable import
    of a file it can get to. *)
Inductive reach : string → Prop :=
  | reach_root : reach root
  | reach_import g c q :
      reach g → contentOf g = Some c → q ∈ getCssImports g c →
      is_Some (fs !! q) → reach q.

(** [g] has been walked without a finding, and all its readable imports
    are in [V]. *)
Definition settled (V : list string) (g : string) : Prop :=
  ∃ c, contentOf g = Some c ∧
       isChangedImport (getCssImports g c) = false ∧
       ∀ q, q ∈ getCssImports g c → is_Some (fs !! q) → q ∈ V.

(** Some file the walk can get to imports a changed file. *)
Definition changeInReach : Prop :=
  ∃ g c q, reach g ∧ contentOf g = Some c ∧
           q ∈ getCssImports g c ∧ q ∈ filesChanged.

(** The entry file has been visited and every visited file is within
    reach. *)
Definition visitsWithinReach (w : Walk) : Prop :=
  root ∈ noLoop w ∧ Forall reach (noLoop w).

(** What a recursive call that answers [false] guarantees. *)
Definition covers (rec : string → string → Walk → option (bool * Walk)) : Prop :=
  ∀ p c w w', fs !! p = Some c → root ∈ noLoop w →
    rec p c w = Some (false, w') →
    p ∈ noLoop w' ∧ noLoop w ⊆ noLoop w' ∧
    ∀ g, g ∈ noLoop w' → g ∉ noLoop w → settled (noLoop w') g.

End Coverage.

End Walk.

(** ** Contexts *)

Record Diagnostic := mkDiagnostic {
  messageText : string;
  absFilePath : option string;
}.

(** [d.ValidatedConfig], the part read here. *)
Record ValidatedConfig := mkConfig {
  globalStyle : option string;
}.

(** [d.CompilerCtx], the part read or written here. [fsReadLog] records
    the [compilerCtx.fs.readFile] calls, [watchFiles] the paths registered
    with [addWatchFile]. *)
Record CompilerCtx := mkCompilerCtx {
  cachedGlobalStyle : option string;
  cssModuleImports : gmap string (list string);
  fs : gmap string string;
  fsReadLog : list string;
  watchFiles : gset string;
}.

(** [d.BuildCtx], the part read or written here. *)
Record BuildCtx := mkBuildCtx {
  filesChanged : list string;
  isRebuild : bool;
  requiresFullBuild : bool;
  hasStyleChanges : bool;
  diagnostics : list Diagnostic;
}.

Definition setCachedGlobalStyle (v : option string) (c : CompilerCtx) : CompilerCtx :=
  mkCompilerCtx v (cssModuleImports c) (fs c) (fsReadLog c) (watchFiles c).

Definition setCssModuleImports (m : gmap string (list string)) (c : CompilerCtx)
    : CompilerCtx :=
  mkCompilerCtx (cachedGlobalStyle c) m (fs c) (fsReadLog c) (watchFiles c).

Definition setFsReadLog (log : list string) (c : CompilerCtx) : CompilerCtx :=
  mkCompilerCtx (cachedGlobalStyle c) (cssModuleImports c) (fs c) log (watchFiles c).

(** [compilerCtx.addWatchFile(path)]. *)
Definition addWatchFile (path : string) (c : CompilerCtx) : CompilerCtx :=
  mkCompilerCtx (cachedGlobalStyle c) (cssModuleImports c) (fs c) (fsReadLog c)
    ({[path]} ∪ watchFiles c).

Definition setDiagnostics (ds : list Diagnostic) (b : BuildCtx) : BuildCtx :=
  mkBuildCtx (filesChanged b) (isRebuild b) (requiresFullBuild b)
    (hasStyleChanges b) ds.

Definition setAbsFilePath (path : string) (d : Diagnostic) : Diagnostic :=
  mkDiagnostic (messageText d) (Some path).

(** What [runPluginTransforms] resolves to:
    [string | PluginTransformationDescriptor | null]. In a descriptor,
    [code] and [dependencies] may be missing. *)
Inductive TransformResults :=
  | TransformNull
  | TransformString (code : string)
  | TransformDescriptor (code : option string) (dependencies : option (list string)).

(** The outcome of awaiting a collaborator: the diagnostics it reported to
    the build's sink, and either the value it resolved to or the error it
    threw. *)
Inductive Completion (A : Type) :=
  | Returned (reported : list Diagnostic) (value : A)
  | Thrown (reported : list Diagnostic) (error : string).
Arguments Returned {A} _ _.
Arguments Thrown {A} _ _.

(** Modelled from the spec: [catchError] lives in [@utils], which is not
    among the sources. Per the diagnostics sink of the external interfaces
    (append-only, one report per call) it appends one diagnostic built from
    the error and returns it; the caller then writes to the returned object,
    which is the one in the array, so the position of the appended
    diagnostic stands for the reference. *)
Definition catchError (diags : list Diagnostic) (err : string)
    : list Diagnostic * nat :=
  (push diags (mkDiagnostic err None), length diags).

Section Build.
Variable getCssImports : string → string → list string.
(** [normalizePath] from [@utils]. *)
Variable normalizePath : string → string.
(** [runPluginTransforms(config, compilerCtx, buildCtx, path)]. *)
Variable runPluginTransforms :
  CompilerCtx → BuildCtx → string → Completion TransformResults.
(** [optimizeCss(config, compilerCtx, diagnostics, cssCode, path)]. *)
Variable optimizeCss :
  CompilerCtx → list Diagnostic → string → string → Completion string.

(** [canSkipGlobalStyles]; [globalStyle] is [config.globalStyle], a
    non-empty string at the only call site. *)
Definition canSkipGlobalStyles (fuel : nat) (globalStyle : string)
    (compilerCtx : CompilerCtx) (buildCtx : BuildCtx)
    : option (bool * CompilerCtx) :=
  match cachedGlobalStyle compilerCtx with
  | None => Some (false, compilerCtx)
  | Some cached =>
    if bool_decide (cached = "") then Some (false, compilerCtx)
    else if requiresFullBuild buildCtx then Some (false, compilerCtx)
    else if isRebuild buildCtx && negb (hasStyleChanges buildCtx)
      then Some (true, compilerCtx)
    else if includes (filesChanged buildCtx) globalStyle
      then Some (false, compilerCtx)
    else if
      match cssModuleImports compilerCtx !! globalStyle with
      | Some imports => some (λ f, includes imports f) (filesChanged buildCtx)
      | None => false
      end
      then Some (false, compilerCtx)
    else
      '(hasChangedImports, w) ←
        hasChangedImportFile getCssImports (fs compilerCtx)
          (filesChanged buildCtx) fuel globalStyle cached
          (mkWalk [] (fsReadLog compilerCtx));
      let compilerCtx := setFsReadLog (fsReads w) compilerCtx in
      if (hasChangedImports : bool) then Some (false, compilerCtx)
      else Some (true, compilerCtx)
  end.

(** The [dependencies.forEach] block and the [set] that follows it. *)
Definition recordDependencies (globalStylePath : string)
    (dependencies : list string) (compilerCtx : CompilerCtx) : CompilerCtx :=
  let imports0 := default [] (cssModuleImports compilerCtx !! globalStylePath) in
  let '(imports, compilerCtx) :=
    foldl (λ (acc : list string * CompilerCtx) (dep : string),
             let '(imports, ctx) := acc in
             (if includes imports dep then imports else push imports dep,
              addWatchFile dep ctx))
          (imports0, compilerCtx) dependencies in
  setCssModuleImports
    (<[globalStylePath := imports]> (cssModuleImports compilerCtx)) compilerCtx.

(** The tail of [buildGlobalStyles]:
    [compilerCtx.cachedGlobalStyle = null; return null]. *)
Definition resetGlobalStyle (compilerCtx : CompilerCtx) (buildCtx : BuildCtx)
    : option string * CompilerCtx * BuildCtx :=
  (None, setCachedGlobalStyle None compilerCtx, buildCtx).

(** The [catch (e)] block followed by the tail. *)
Definition catchBlock (globalStylePath err : string)
    (compilerCtx : CompilerCtx) (buildCtx : BuildCtx)
    : option string * CompilerCtx * BuildCtx :=
  let '(diags, d) := catchError (diagnostics buildCtx) err in
  let diags := alter (setAbsFilePath globalStylePath) d diags in
  resetGlobalStyle compilerCtx (setDiagnostics diags buildCtx).

Definition report (reported : list Diagnostic) (buildCtx : BuildCtx) : BuildCtx :=
  setDiagnostics (diagnostics buildCtx ++ reported) buildCtx.

(** The [try] block of [buildGlobalStyles] with its [catch] and the tail,
    entered when the cache cannot be reused. *)
Definition rebuildGlobalStyles (globalStyle : string)
    (compilerCtx : CompilerCtx) (buildCtx : BuildCtx)
    : option string * CompilerCtx * BuildCtx :=
  let globalStylePath := normalizePath globalStyle in
  let compilerCtx := addWatchFile globalStylePath compilerCtx in
  match runPluginTransforms compilerCtx buildCtx globalStylePath with
  | Thrown reported err =>
      catchBlock globalStylePath err compilerCtx (report reported buildCtx)
  | Returned reported transformResults =>
      let buildCtx := report reported buildCtx in
      let optimize (cssCode : string) (dependencies : option (list string)) :=
        match optimizeCss compilerCtx (diagnostics buildCtx) cssCode
                globalStylePath with
        | Thrown reported err =>
            catchBlock globalStylePath err compilerCtx (report reported buildCtx)
        | Returned reported optimizedCss =>
            let buildCtx := report reported buildCtx in
            let compilerCtx := setCachedGlobalStyle (Some optimizedCss) compilerCtx in
            let compilerCtx :=
              match dependencies with
              | Some deps => recordDependencies globalStylePath deps compilerCtx
              | None => compilerCtx
              end in
            (Some optimizedCss, compilerCtx, buildCtx)
        end in
      match transformResults with
      | TransformNull => resetGlobalStyle compilerCtx buildCtx
      | TransformString cssCode =>
          if bool_decide (cssCode = "") then resetGlobalStyle compilerCtx buildCtx
          else optimize cssCode None
      | TransformDescriptor code dependencies =>
          if truthy code then optimize (default "" code) dependencies
          else resetGlobalStyle compilerCtx buildCtx
      end
  end.

Definition buildGlobalStyles (fuel : nat) (config : ValidatedConfig)
    (compilerCtx : CompilerCtx) (buildCtx : BuildCtx)
    : option (option string * CompilerCtx * BuildCtx) :=
  if negb (truthy (globalStyle config)) then Some (None, compilerCtx, buildCtx)
  else
    let globalStylePath := default "" (globalStyle config) in
    '(canSkip, compilerCtx) ←
      canSkipGlobalStyles fuel globalStylePath compilerCtx buildCtx;
    if (canSkip : bool)
    then Some (cachedGlobalStyle compilerCtx, compilerCtx, buildCtx)
    else Some (rebuildGlobalStyles globalStylePath compilerCtx buildCtx).

End Build.

(** ** The caller: [generateGlobalStyles] *)

(** An output target of the configuration: its [type] and the [file] a
    global-styles target writes the stylesheet to. *)
Record OutputTarget := mkOutputTarget {
  targetType : string;
  file : string;
}.

(** [compilerCtx.fs.writeFile(path, text)]: afterwards the file system
    holds [text] at [path]. *)
Definition writeFile (path text : string) (c : CompilerCtx) : CompilerCtx :=
  mkCompilerCtx (cachedGlobalStyle c) (cssModuleImports c)
    (<[path := text]> (fs c)) (fsReadLog c) (watchFiles c).

Section Generate.
Variable getCssImports : string → string → list string.
Variable normalizePath : string → string.
Variable runPluginTransforms :
  CompilerCtx → BuildCtx → string → Completion TransformResults.
Variable optimizeCss :
  CompilerCtx → list Diagnostic → string → string → Completion string.
(** [isOutputTargetDistGlobalStyles] from [@utils]. *)
Variable isOutputTargetDistGlobalStyles : OutputTarget → bool.

(** [generateGlobalStyles]; [configOutputTargets] is
    [config.outputTargets]. The writes of [Promise.all] are issued in array
    order. *)
Definition generateGlobalStyles (fuel : nat)
    (configOutputTargets : list OutputTarget) (config : ValidatedConfig)
    (compilerCtx : CompilerCtx) (buildCtx : BuildCtx)
    : option (option string * CompilerCtx * BuildCtx) :=
  let outputTargets :=
    filter (λ o, isOutputTargetDistGlobalStyles o = true) configOutputTargets in
  if bool_decide (length outputTargets = 0)
  then Some (Some "", compilerCtx, buildCtx)
  else
    '(globalStyles, compilerCtx, buildCtx) ←
      buildGlobalStyles getCssImports normalizePath runPluginTransforms
        optimizeCss fuel config compilerCtx buildCtx;
    let compilerCtx :=
      if truthy globalStyles
      then foldl (λ ctx o, writeFile (file o) (default "" globalStyles) ctx)
             compilerCtx outputTargets
      else compilerCtx in
    Some (globalStyles, compilerCtx, buildCtx).

End Generate.

End GlobalStyles.

(** ** The style-import linker of [style-imports.ts] *)

Module StyleImports.

(** The expressions that occur in the statements handled here: string
    literals, a call of an identifier on one string literal
    ([require("...")]), and everything else. *)
Inductive Expression :=
  | StringLiteral (text : string)
  | CallExpression (callee : string) (argument : string)
  | OtherExpression (source : string).

(** [ts.ImportClause]; [name] is the default binding. *)
Record ImportClause := mkImportClause {
  isTypeOnly : bool;
  name : option string;
  namedBindings : option string;
}.

(** [ts.Statement]: import declarations, [const x = e] statements, and
    everything else. *)
Inductive Statement :=
  | ImportDeclaration (decorators modifiers : option string)
      (importClause : option ImportClause) (moduleSpecifier : Expression)
      (assertClause : option string)
  | VariableStatement (declared : string) (initializer : Expression)
  | OtherStatement (source : string).

(** [ts.isImportDeclaration]. *)
Definition isImportDeclaration (n : Statement) : bool :=
  match n with
  | ImportDeclaration _ _ _ _ _ => true
  | _ => false
  end.

Record SourceFile := mkSourceFile {
  fileName : string;
  statements : list Statement;
}.

Inductive Encapsulation := none | shadow | scoped.

Record ExternalStyleCompiler := mkExternalStyle {
  absolutePath : string;
}.

(** [d.StyleCompiler]. *)
Record StyleCompiler := mkStyle {
  modeName : string;
  styleIdentifier : option string;
  externalStyles : list ExternalStyleCompiler;
}.

(** [d.ComponentCompilerMeta]. *)
Record ComponentCompilerMeta := mkCmp {
  tagName : string;
  encapsulation : Encapsulation;
  styles : list StyleCompiler;
}.

(** [d.Module]. *)
Record Module' := mkModule {
  cmps : list ComponentCompilerMeta;
}.

Inductive ModuleKind := cjs | esm.

(** [d.TransformOptions]; [module] is spelled [module'] here. *)
Record TransformOptions := mkTransformOptions {
  module' : ModuleKind;
  styleImportData : option string;
}.

(** [d.SerializeImportData]; its [encapsulation] field is spelled
    [importEncapsulation] here. *)
Record SerializeImportData := mkSerializeImportData {
  importeePath : string;
  importerPath : string;
  tag : string;
  importEncapsulation : Encapsulation;
  mode : string;
}.

(** The local variables of [updateEsmStyleImports] that its loops write. *)
Record EsmState := mkEsmState {
  styleImports : list Statement;
  esmStatements : list Statement;
  updateSourceFileFlag : bool;
}.

Section Linker.
(** [serializeImportPath] from [./stencil-import-path]. *)
Variable serializeImportPath : SerializeImportData → option string → string.
(** [ts.factory.updateSourceFile]. *)
Variable updateSourceFile : SourceFile → list Statement → SourceFile.

Definition getStyleImportPath (transformOpts : TransformOptions)
    (tsSourceFile : SourceFile) (cmp : ComponentCompilerMeta)
    (style : StyleCompiler) (importPath : string) : string :=
  let importData :=
    {| importeePath := importPath;
       importerPath := fileName tsSourceFile;
       tag := tagName cmp;
       importEncapsulation := encapsulation cmp;
       mode := modeName style |} in
  serializeImportPath importData (styleImportData transformOpts).

(** [createEsmStyleImport]; [identifier] is [style.styleIdentifier] and
    [first] is [style.externalStyles[0]], both present at the call. *)
Definition createEsmStyleImport (transformOpts : TransformOptions)
    (tsSourceFile : SourceFile) (cmp : ComponentCompilerMeta)
    (style : StyleCompiler) (identifier : string)
    (first : ExternalStyleCompiler) : Statement :=
  let importName := identifier in
  let importPath :=
    getStyleImportPath transformOpts tsSourceFile cmp style (absolutePath first) in
  ImportDeclaration None None
    (Some (mkImportClause false (Some importName) None))
    (StringLiteral importPath) None.

(** [updateEsmStyleImportPath]: the first import declaration with a clause,
    a string-literal specifier and the default binding [identifier] gets a
    new specifier; the loop stops there. *)
Fixpoint updateEsmStyleImportPath (transformOpts : TransformOptions)
    (tsSourceFile : SourceFile) (statements : list Statement)
    (cmp : ComponentCompilerMeta) (style : StyleCompiler)
    (identifier : string) : list Statement :=
  match statements with
  | [] => []
  | n :: rest =>
      let continue :=
        n :: updateEsmStyleImportPath transformOpts tsSourceFile rest cmp style
               identifier in
      match n with
      | ImportDeclaration decorators modifiers (Some importClause)
          (StringLiteral orgImportPath) _ =>
          if bool_decide (name importClause = Some identifier) then
            let importPath :=
              getStyleImportPath transformOpts tsSourceFile cmp style
                orgImportPath in
            ImportDeclaration decorators modifiers (Some importClause)
              (StringLiteral importPath) None :: rest
          else continue
      | _ => continue
      end
  end.

(** The body of the inner [forEach] of [updateEsmStyleImports]. *)
Definition linkEsmStyle (transformOpts : TransformOptions)
    (tsSourceFile : SourceFile) (cmp : ComponentCompilerMeta)
    (st : EsmState) (style : StyleCompiler) : EsmState :=
  match styleIdentifier style with
  | Some identifier =>
      match externalStyles style with
      | first :: _ =>
          mkEsmState
            (push (styleImports st)
               (createEsmStyleImport transformOpts tsSourceFile cmp style
                  identifier first))
            (esmStatements st) true
      | [] =>
          mkEsmState (styleImports st)
            (updateEsmStyleImportPath transformOpts tsSourceFile
               (esmStatements st) cmp style identifier)
            true
      end
  | None => st
  end.

(** The [for] loop that finds the last import declaration; [i] is the index
    of the head of [statements]. *)
Fixpoint lastImportIndexFrom (i lastImportIndex : Z) (statements : list Statement)
    : Z :=
  match statements with
  | [] => lastImportIndex
  | n :: rest =>
      lastImportIndexFrom (i + 1)
        (if isImportDeclaration n then i else lastImportIndex) rest
  end.

(** [statements.splice(start, 0, ...items)]. *)
Definition splice {A} (start : Z) (items arr : list A) : list A :=
  take (Z.to_nat start) arr ++ items ++ drop (Z.to_nat start) arr.

Definition updateEsmStyleImports (transformOpts : TransformOptions)
    (tsSourceFile : SourceFile) (moduleFile : Module') : SourceFile :=
  let st :=
    foldl (λ st cmp,
             foldl (linkEsmStyle transformOpts tsSourceFile cmp) st (styles cmp))
          (mkEsmState [] (statements tsSourceFile) false) (cmps moduleFile) in
  if updateSourceFileFlag st then
    let lastImportIndex := lastImportIndexFrom 0 (-1) (esmStatements st) in
    updateSourceFile tsSourceFile
      (splice (lastImportIndex + 1) (styleImports st) (esmStatements st))
  else tsSourceFile.

Definition createCjsStyleRequire (transformOpts : TransformOptions)
    (tsSourceFile : SourceFile) (cmp : ComponentCompilerMeta)
    (style : StyleCompiler) (identifier : string)
    (first : ExternalStyleCompiler) : Statement :=
  let importName := identifier in
  let importPath :=
    getStyleImportPath transformOpts tsSourceFile cmp style (absolutePath first) in
  VariableStatement importName (CallExpression "require" importPath).

(** The body of the inner [forEach] of [updateCjsStyleRequires]. *)
Definition linkCjsStyle (transformOpts : TransformOptions)
    (tsSourceFile : SourceFile) (cmp : ComponentCompilerMeta)
    (styleRequires : list Statement) (style : StyleCompiler) : list Statement :=
  match styleIdentifier style, externalStyles style with
  | Some identifier, first :: _ =>
      push styleRequires
        (createCjsStyleRequire transformOpts tsSourceFile cmp style identifier
           first)
  | _, _ => styleRequires
  end.

Definition updateCjsStyleRequires (transformOpts : TransformOptions)
    (tsSourceFile : SourceFile) (moduleFile : Module') : SourceFile :=
  let styleRequires :=
    foldl (λ styleRequires cmp,
             foldl (linkCjsStyle transformOpts tsSourceFile cmp) styleRequires
               (styles cmp))
          [] (cmps moduleFile) in
  if bool_decide (0 < length styleRequires) then
    updateSourceFile tsSourceFile (styleRequires ++ statements tsSourceFile)
  else tsSourceFile.

Definition updateStyleImports (transformOpts : TransformOptions)
    (tsSourceFile : SourceFile) (moduleFile : Module') : SourceFile :=
  match module' transformOpts with
  | cjs => updateCjsStyleRequires transformOpts tsSourceFile moduleFile
  | esm => updateEsmStyleImports transformOpts tsSourceFile moduleFile
  end.

(** The two nested [forEach] loops of [updateEsmStyleImports]. *)
Definition linkCmps (transformOpts : TransformOptions)
    (tsSourceFile : SourceFile) (l : list ComponentCompilerMeta)
    (st : EsmState) : EsmState :=
  foldl (λ st cmp,
           foldl (linkEsmStyle transformOpts tsSourceFile cmp) st (styles cmp))
        st l.

(** The import created for one style, if any. *)
Definition createdFor (transformOpts : TransformOptions)
    (tsSourceFile : SourceFile) (cmp : ComponentCompilerMeta)
    (style : StyleCompiler) : list Statement :=
  match styleIdentifier style, externalStyles style with
  | Some identifier, first :: _ =>
      [createEsmStyleImport transformOpts tsSourceFile cmp style identifier first]
  | _, _ => []
  end.

(** The imports created for a module, written as a comprehension over its
    components and their styles, in iteration order. *)
Definition createdEsmStyleImports (transformOpts : TransformOptions)
    (tsSourceFile : SourceFile) (moduleFile : Module') : list Statement :=
  cmp ← cmps moduleFile;
  style ← styles cmp;
  createdFor transformOpts tsSourceFile cmp style.

End Linker.

(** The test of the loop in [updateEsmStyleImportPath]: an import
    declaration with a clause, a string-literal specifier, and the default
    binding [identifier]. *)
Definition bindsIdentifier (identifier : string) (n : Statement) : bool :=
  match n with
  | ImportDeclaration _ _ (Some importClause) (StringLiteral _) _ =>
      bool_decide (name importClause = Some identifier)
  | _ => false
  end.

(** Whether a style carries a bound identifier:
    [typeof style.styleIdentifier === 'string']. *)
Definition carriesIdentifier (style : StyleCompiler) : bool :=
  match styleIdentifier style with
  | Some _ => true
  | None => false
  end.

(** What may happen to the statement in one slot of the module when style
    import paths are rewritten: nothing, or an import declaration keeps its
    decorators, modifiers and clause and gets a string-literal specifier
    (its assert clause is dropped). *)
Inductive sameSlot : Statement → Statement → Prop :=
  | sameSlot_same n : sameSlot n n
  | sameSlot_path decorators modifiers importClause orgImportPath assertClause
      importPath :
      sameSlot
        (ImportDeclaration decorators modifiers (Some importClause)
           (StringLiteral orgImportPath) assertClause)
        (ImportDeclaration decorators modifiers (Some importClause)
           (StringLiteral importPath) None).

(** The [require] statement that binds the same identifier to the same
    module path as a default import. *)
Definition requireOfImport (n : Statement) : Statement :=
  match n with
  | ImportDeclaration _ _ (Some (mkImportClause _ (Some identifier) _))
      (StringLiteral importPath) _ =>
      VariableStatement identifier (CallExpression "require" importPath)
  | _ => n
  end.

End StyleImports.

(** ** Constructor rewriting of the field rewriter

    [convert-decorators.ts] is not among the sources, only its tests are;
    the definitions of this module follow sections 3 and 4.1 of the
    specification. *)

Module ConvertDecorators.

Inductive FieldKind := PropField | StateField | EventField | OtherField.

(** Modelled from the spec: an AnnotatedField of the data model;
    [initialValue] is the text of the initializer of the declaration, if
    any. *)
Record AnnotatedField := mkField {
  kind : FieldKind;
  name : string;
  initialValue : option string;
}.

(** Constructor statements: a bare [super()] call, an assignment
    [this.member = value], and everything else. *)
Inductive Statement :=
  | SuperCall
  | Assignment (member value : string)
  | OtherStatement (source : string).

(** A component class: whether it extends another class, whether that
    parent is locally resolvable and provably needs no call, its annotated
    fields in declaration order, and the body of its constructor if it has
    one. *)
Record ClassDeclaration := mkClass {
  extendsClass : bool;
  parentCallFree : bool;
  fields : list AnnotatedField;
  constructorBody : option (list Statement);
}.

(** Modelled from the spec: only Prop, State and Other fields take part in
    constructor initialization, Event fields never do. *)
Definition initializedInConstructor (f : AnnotatedField) : bool :=
  match kind f with
  | EventField => false
  | _ => true
  end.

(** Modelled from the spec: the assignment [this.name = initialValue],
    with the [undefined] sentinel when no value was given. *)
Definition initialization (f : AnnotatedField) : Statement :=
  Assignment (name f) (default "undefined" (initialValue f)).

Definition initializations (fs : list AnnotatedField) : list Statement :=
  initialization <$> filter (λ f, initializedInConstructor f = true) fs.

(** Modelled from the spec: the constructor handling of the field rewriter
    ([convert-decorators.ts] is not among the sources, only its tests are).
    Section 4.1: without a constructor and without fields to initialize no
    constructor is added; without a constructor and with such fields a
    constructor is synthesized from a bare superclass call, if the class
    extends another one whose members are not provably call-free, and one
    assignment per Prop, State or Other field; with a constructor the
    assignments become its leading statements, after a leading superclass
    call if the class extends another one, and the user's statements
    follow unchanged and in order. *)
Definition rewriteConstructor (cls : ClassDeclaration) : option (list Statement) :=
  let statements := initializations (fields cls) in
  match constructorBody cls with
  | None =>
      match statements with
      | [] => None
      | _ :: _ =>
          let super :=
            if extendsClass cls && negb (parentCallFree cls)
            then [SuperCall] else [] in
          Some (super ++ statements)
      end
  | Some body =>
      let super := if extendsClass cls then [SuperCall] else [] in
      Some (super ++ statements ++ body)
  end.

(** Modelled from the spec: "last write wins at runtime". Running
    constructor statements on the members of [this], an assignment
    overwrites the member and the other statements leave the members
    alone. *)
Definition run (body : list Statement) (this : gmap string string)
    : gmap string string :=
  foldl (λ this s,
           match s with
           | Assignment member value => <[member := value]> this
           | _ => this
           end) this body.

End ConvertDecorators.

(** ** The helper [c] of [convert-decorators.spec.ts] *)

Module ConvertDecoratorsSpec.

Section Compact.
(** The code units of a JavaScript string; a string is a list of them. *)
Variable char : Type.
Context `{EqDecision char}.
(** The class [\s] of the regular expression engine. *)
Variable isWhitespace : char → bool.
(** The code units of ['\n'] and [' ']. *)
Variable newline space : char.

(** [s.replace(pattern, replacement)] for a one-unit string pattern: only
    the first occurrence is replaced. *)
Fixpoint replaceFirst (pattern replacement : char) (s : list char) : list char :=
  match s with
  | [] => []
  | ch :: rest =>
      if decide (ch = pattern) then replacement :: rest
      else ch :: replaceFirst pattern replacement rest
  end.

(** [s.replace(/\s+/g, ' ')]: every maximal run of whitespace becomes one
    space; [inRun] tells that the unit before [s] was whitespace. *)
Fixpoint replaceWhitespaceRuns (inRun : bool) (s : list char) : list char :=
  match s with
  | [] => []
  | ch :: rest =>
      if isWhitespace ch then
        if inRun then replaceWhitespaceRuns true rest
        else space :: replaceWhitespaceRuns true rest
      else ch :: replaceWhitespaceRuns false rest
  end.

(** [c(strings)]:
    [strings.join('').replace('\n', ' ').replace(/\s+/g, ' ')]. *)
Definition c (strings : list (list char)) : list char :=
  replaceWhitespaceRuns false (replaceFirst newline space (concat strings)).

End Compact.

End ConvertDecoratorsSpec.

(** ** Concrete inputs used to exercise the definitions *)

Module Demo.
Import GlobalStyles.

(** A stand-in for [getCssImports]: the imports of the demo stylesheets. *)
Definition demoCssImports (filePath content : string) : list string :=
  if bool_decide (content = "@import 'b.css';") then ["b.css"]
  else if bool_decide (content = "@import 'a.css';") then ["a.css"]
  else if bool_decide (content = "@import 'gone.css'; @import 'mid.css';")
    then ["gone.css"; "mid.css"]
  else if bool_decide (content = "@import 'leaf.css';") then ["leaf.css"]
  else [].

(** [a.css] and [b.css] import each other; [main.css] imports a file that
    does not exist and [mid.css], which imports [leaf.css]. *)
Definition demoFs : gmap string string :=
  list_to_map [
    ("a.css", "@import 'b.css';");
    ("b.css", "@import 'a.css';");
    ("main.css", "@import 'gone.css'; @import 'mid.css';");
    ("mid.css", "@import 'leaf.css';");
    ("leaf.css", "body{}")
  ].

Definition demoConfig : ValidatedConfig := mkConfig (Some "a.css").

Definition demoCompilerCtx (cached : option string) : CompilerCtx :=
  mkCompilerCtx cached ∅ demoFs [] ∅.

Definition demoBuildCtx (changed : list string) (rebuild full style : bool)
    : BuildCtx :=
  mkBuildCtx changed rebuild full style [].

Definition demoNormalizePath (path : string) : string := path.

(** A transform chain that resolves to a fixed value. *)
Definition demoTransforms (r : TransformResults)
    (_ : CompilerCtx) (_ : BuildCtx) (_ : string) : Completion TransformResults :=
  Returned [] r.

(** A transform chain that throws. *)
Definition demoTransformsThrow
    (_ : CompilerCtx) (_ : BuildCtx) (_ : string) : Completion TransformResults :=
  Thrown [] "transform failed".

(** An optimizer that marks what it was given. *)
Definition demoOptimizeCss (_ : CompilerCtx) (_ : list Diagnostic)
    (cssCode _ : string) : Completion string :=
  Returned [] ("/*min*/" +:+ cssCode).

(** An optimizer that strips everything. *)
Definition demoOptimizeToEmpty (_ : CompilerCtx) (_ : list Diagnostic)
    (_ _ : string) : Completion string :=
  Returned [] "".

(** An optimizer that throws. *)
Definition demoOptimizeThrow (_ : CompilerCtx) (_ : list Diagnostic)
    (_ _ : string) : Completion string :=
  Thrown [] "optimize failed".

(** *** A module for the linker *)

Definition demoSerializeImportPath (data : StyleImports.SerializeImportData)
    (_ : option string) : string :=
  StyleImports.importeePath data +:+ "?tag=" +:+ StyleImports.tag data
    +:+ "&mode=" +:+ StyleImports.mode data.

Definition demoUpdateSourceFile (tsSourceFile : StyleImports.SourceFile)
    (statements : list StyleImports.Statement) : StyleImports.SourceFile :=
  StyleImports.mkSourceFile (StyleImports.fileName tsSourceFile) statements.

Definition demoDefaultImport (binding path : string) : StyleImports.Statement :=
  StyleImports.ImportDeclaration None None
    (Some (StyleImports.mkImportClause false (Some binding) None))
    (StyleImports.StringLiteral path) None.

(** [import h from '@stencil/core'; import cmpAStyle0 from './cmp-a.css';
    export class CmpA {}] *)
Definition demoSourceFile : StyleImports.SourceFile :=
  StyleImports.mkSourceFile "/src/cmp-a.tsx"
    [demoDefaultImport "h" "@stencil/core";
     demoDefaultImport "cmpAStyle0" "./cmp-a.css";
     StyleImports.OtherStatement "export class CmpA {}"].

(** The same module without any import. *)
Definition demoSourceFileNoImport : StyleImports.SourceFile :=
  StyleImports.mkSourceFile "/src/cmp-a.tsx"
    [StyleImports.OtherStatement "export class CmpA {}"].

(** A style bound to [cmpAStyle0] and backed by one external asset. *)
Definition demoStyle : StyleImports.StyleCompiler :=
  StyleImports.mkStyle "" (Some "cmpAStyle0")
    [StyleImports.mkExternalStyle "/src/cmp-a.css"].

(** A second mode of the same component. *)
Definition demoStyleDark : StyleImports.StyleCompiler :=
  StyleImports.mkStyle "dark" (Some "cmpAStyle1")
    [StyleImports.mkExternalStyle "/src/cmp-a.dark.css"].

(** An inline style: no identifier, no external asset. *)
Definition demoInlineStyle : StyleImports.StyleCompiler :=
  StyleImports.mkStyle "" None [].

Definition demoCmp (styles : list StyleImports.StyleCompiler)
    : StyleImports.ComponentCompilerMeta :=
  StyleImports.mkCmp "cmp-a" StyleImports.shadow styles.

Definition demoEsm : StyleImports.TransformOptions :=
  StyleImports.mkTransformOptions StyleImports.esm None.

Definition demoCjs : StyleImports.TransformOptions :=
  StyleImports.mkTransformOptions StyleImports.cjs None.

(** *** Classes for the field rewriter *)

Definition demoCount : ConvertDecorators.AnnotatedField :=
  ConvertDecorators.mkField ConvertDecorators.PropField "count" None.

Definition demoLabel : ConvertDecorators.AnnotatedField :=
  ConvertDecorators.mkField ConvertDecorators.StateField "label" (Some "'x'").

Definition demoEvent : ConvertDecorators.AnnotatedField :=
  ConvertDecorators.mkField ConvertDecorators.EventField "changed" None.

(** *** Output targets and a transform result with dependencies *)

Definition demoIsDistGlobalStyles (o : GlobalStyles.OutputTarget) : bool :=
  bool_decide (GlobalStyles.targetType o = "dist-global-styles").

Definition demoOutputTargets : list GlobalStyles.OutputTarget :=
  [GlobalStyles.mkOutputTarget "www" "/www/index.html";
   GlobalStyles.mkOutputTarget "dist-global-styles" "/dist/app.css";
   GlobalStyles.mkOutputTarget "dist-global-styles" "/www/build/app.css"].

(** A transform chain that resolves to a descriptor with the two partials
    it pulled in. *)
Definition demoDescriptor : TransformResults :=
  TransformDescriptor (Some "body{}") (Some ["partials/a.css"; "partials/b.css"]).

(** A context in which [a.css] already has one recorded dependency. *)
Definition demoCompilerCtxWithImports : CompilerCtx :=
  mkCompilerCtx None {["a.css" := ["partials/a.css"]]} demoFs [] ∅.

(** [isWhitespace] on bytes: tab, line feed, vertical tab, form feed,
    carriage return and space. *)
Definition demoIsWhitespace (ch : Ascii.ascii) : bool :=
  let n := Ascii.nat_of_ascii ch in
  bool_decide (n = 9 ∨ n = 10 ∨ n = 11 ∨ n = 12 ∨ n = 13 ∨ n = 32).

End Demo.

(** * Proofs *)

(** ** Array helpers *)

Lemma includes_true arr x : includes arr x = true ↔ x ∈ arr.
Proof. unfold includes. apply bool_decide_eq_true. Qed.

Lemma includes_false arr x : includes arr x = false ↔ x ∉ arr.
Proof. unfold includes. apply bool_decide_eq_false. Qed.

Lemma some_true {A} (f : A → bool) arr :
  some f arr = true ↔ ∃ x, x ∈ arr ∧ f x = true.
Proof.
  unfold some. rewrite existsb_exists.
  split; intros (x & Hx & Hf); exists x; split; auto;
    by apply list_elem_of_In.
Qed.

Lemma some_false {A} (f : A → bool) arr :
  some f arr = false ↔ ∀ x, x ∈ arr → f x = false.
Proof.
  split.
  - intros Hs x Hx. destruct (f x) eqn:Hf; [|done].
    assert (some f arr = true) as Ht by (apply some_true; eauto).
    congruence.
  - intros Hall. destruct (some f arr) eqn:Hs; [|done].
    apply some_true in Hs as (x & Hx & Hf). rewrite (Hall x Hx) in Hf. done.
Qed.

Lemma truthy_spec v : truthy v = true ↔ ∃ s, v = Some s ∧ s ≠ "".
Proof.
  destruct v as [s|]; simpl.
  - rewrite negb_true_iff, bool_decide_eq_false.
    split; [intros Hs; exists s; done | intros (s' & [= ->] & Hs); done].
  - split; [done | intros (s & Hs & _); done].
Qed.

(** ** The import-graph walk *)

Module WalkFacts.
Import GlobalStyles.

Section WalkFacts.
Variable getCssImports : string → string → list string.
Variable fs : gmap string string.
Variable filesChanged : list string.

Local Abbreviation keepDigging := (keepDigging fs).
Local Abbreviation hasChangedImportContent :=
  (hasChangedImportContent getCssImports fs filesChanged).
Local Abbreviation hasChangedImportFile :=
  (hasChangedImportFile getCssImports fs filesChanged).

Local Abbreviation unvisited := (unvisited fs).

Implicit Types (w : Walk) (rec : string → string → Walk → option (bool * Walk)).

(** *** Invariants carried from the state before a walk to the state after *)

Section Carried.
Variable P : Walk → Walk → Prop.
Hypothesis P_refl : ∀ w, P w w.
Hypothesis P_trans : ∀ w1 w2 w3, P w1 w2 → P w2 w3 → P w1 w3.
Hypothesis P_read : ∀ p w, P w (logRead p w).

Lemma keepDigging_carried rec cssImports :
  (∀ p c w r w', rec p c w = Some (r, w') → P w w') →
  ∀ w results w', keepDigging rec cssImports w = Some (results, w') → P w w'.
Proof.
  intros Hrec. induction cssImports as [|p rest IH]; intros w results w' Hk.
  - simpl in Hk. by simplify_eq.
  - simpl in Hk. destruct (fs !! p) as [c|].
    + destruct (rec p c (logRead p w)) as [[r w2]|] eqn:Hr; [|done].
      simpl in Hk.
      destruct (keepDigging rec rest w2) as [[rs w3]|] eqn:Hrest; [|done].
      simpl in Hk. simplify_eq.
      eapply P_trans; [apply P_read|].
      eapply P_trans; [eapply Hrec, Hr|]. eapply IH, Hrest.
    + destruct (keepDigging rec rest (logRead p w)) as [[rs w3]|] eqn:Hrest;
        [|done].
      simpl in Hk. simplify_eq.
      eapply P_trans; [apply P_read|]. eapply IH, Hrest.
Qed.

Hypothesis P_push : ∀ p w, p ∉ noLoop w → P w (pushNoLoop p w).

Lemma hasChangedImportFile_carried fuel :
  ∀ p c w r w', hasChangedImportFile fuel p c w = Some (r, w') → P w w'.
Proof.
  induction fuel as [|fuel IH]; intros p c w r w' Hw; [done|].
  simpl in Hw. destruct (includes (noLoop w) p) eqn:Hin.
  - by simplify_eq.
  - apply includes_false in Hin.
    eapply P_trans; [apply P_push, Hin|].
    unfold GlobalStyles.hasChangedImportContent in Hw.
    case_bool_decide; [by simplify_eq|].
    destruct (isChangedImport _ _); [by simplify_eq|].
    destruct (keepDigging _ _ _) as [[rs w2]|] eqn:Hk; [|done].
    simpl in Hw. simplify_eq.
    eapply keepDigging_carried; [apply IH|apply Hk].
Qed.
End Carried.

(** The visited array only grows. *)
Lemma hasChangedImportFile_grows fuel p c w r w' :
  hasChangedImportFile fuel p c w = Some (r, w') → noLoop w ⊆ noLoop w'.
Proof.
  apply (hasChangedImportFile_carried (λ w w', noLoop w ⊆ noLoop w')).
  - done.
  - intros w1 w2 w3 H12 H23. by etrans.
  - done.
  - intros q w0 _. unfold pushNoLoop, push. simpl. set_solver.
Qed.


(** *** Unfolding equations *)

Lemma isChangedImport_true cssImports :
  isChangedImport filesChanged cssImports = true ↔
  ∃ q, q ∈ cssImports ∧ q ∈ filesChanged.
Proof.
  unfold isChangedImport. rewrite some_true. split.
  - intros (f & Hf & Hs). apply some_true in Hs as (q & Hq & Heq).
    apply bool_decide_eq_true in Heq. subst. eauto.
  - intros (q & Hq & Hf). exists q. split; [done|].
    apply some_true. exists q. split; [done|]. by apply bool_decide_eq_true.
Qed.






(** *** Termination: enough fuel always gives a result *)

Lemma unvisited_le_size w : unvisited w ≤ size fs.
Proof.
  unfold GlobalStyles.unvisited. rewrite <- (size_dom (D:=gset string) fs).
  apply subseteq_size. set_solver.
Qed.

Lemma unvisited_mono w w' : noLoop w ⊆ noLoop w' → unvisited w' ≤ unvisited w.
Proof.
  intros Hsub. unfold GlobalStyles.unvisited. apply subseteq_size.
  intros x. rewrite !elem_of_difference, !elem_of_list_to_set. naive_solver.
Qed.

Lemma unvisited_read p w : unvisited (logRead p w) = unvisited w.
Proof. done. Qed.

Lemma unvisited_push p w :
  is_Some (fs !! p) → p ∉ noLoop w → unvisited (pushNoLoop p w) < unvisited w.
Proof.
  intros Hp Hnew. unfold GlobalStyles.unvisited. apply subset_size.
  apply elem_of_dom in Hp. split.
  - intros x. simpl. unfold push.
    rewrite !elem_of_difference, !elem_of_list_to_set, elem_of_app.
    naive_solver.
  - intros Hsub. specialize (Hsub p). simpl in Hsub. unfold push in Hsub.
    rewrite !elem_of_difference, !elem_of_list_to_set, elem_of_app in Hsub.
    destruct Hsub as [_ Hsub]; [done|]. apply Hsub. right. by left.
Qed.

Lemma keepDigging_is_Some rec n :
  (∀ q c w, is_Some (fs !! q) → unvisited w < n → is_Some (rec q c w)) →
  (∀ q c w r w', rec q c w = Some (r, w') → noLoop w ⊆ noLoop w') →
  ∀ cssImports w, unvisited w < n → is_Some (keepDigging rec cssImports w).
Proof.
  intros Hsome Hgrow. induction cssImports as [|p rest IH]; intros w Hw.
  - by eexists.
  - simpl. destruct (fs !! p) as [c|] eqn:Hp.
    + destruct (Hsome p c (logRead p w)) as [[r w2] Hr]; [by eexists|done|].
      rewrite Hr. simpl.
      destruct (IH w2) as [[rs w3] Hrest].
      { apply Hgrow in Hr. apply unvisited_mono in Hr.
        rewrite unvisited_read in Hr. lia. }
      rewrite Hrest. by eexists.
    + destruct (IH (logRead p w)) as [[rs w3] Hrest]; [done|].
      rewrite Hrest. by eexists.
Qed.

Lemma hasChangedImportContent_is_Some rec n p c w :
  (∀ q c w, is_Some (fs !! q) → unvisited w < n → is_Some (rec q c w)) →
  (∀ q c w r w', rec q c w = Some (r, w') → noLoop w ⊆ noLoop w') →
  unvisited w < n → is_Some (hasChangedImportContent rec p c w).
Proof.
  intros Hsome Hgrow Hw. unfold GlobalStyles.hasChangedImportContent.
  case_bool_decide; [by eexists|].
  destruct (isChangedImport _ _); [by eexists|].
  destruct (keepDigging_is_Some rec n Hsome Hgrow (getCssImports p c) w Hw)
    as [[rs w2] Hk].
  rewrite Hk. by eexists.
Qed.

(** A readable file is walked to completion with one unit of fuel per
    readable file that is still unvisited. *)
Lemma hasChangedImportFile_readable_is_Some fuel :
  ∀ p c w, is_Some (fs !! p) → unvisited w < fuel →
  is_Some (hasChangedImportFile fuel p c w).
Proof.
  induction fuel as [|fuel IH]; intros p c w Hp Hw; [lia|].
  simpl. destruct (includes (noLoop w) p) eqn:Hin; [by eexists|].
  apply includes_false in Hin.
  pose proof (unvisited_push p w Hp Hin) as Hlt.
  apply (hasChangedImportContent_is_Some _ fuel).
  - apply IH.
  - intros q c' w0 r w'. apply hasChangedImportFile_grows.
  - lia.
Qed.

(** The entry file need not be readable: one more unit of fuel covers it. *)
Lemma hasChangedImportFile_is_Some fuel p c w :
  S (unvisited w) < fuel → is_Some (hasChangedImportFile fuel p c w).
Proof.
  destruct fuel as [|fuel]; [lia|]. intros Hw.
  simpl. destruct (includes (noLoop w) p) eqn:Hin; [by eexists|].
  apply (hasChangedImportContent_is_Some _ fuel).
  - apply hasChangedImportFile_readable_is_Some.
  - intros q c' w0 r w'. apply hasChangedImportFile_grows.
  - assert (unvisited (pushNoLoop p w) ≤ unvisited w); [|lia].
    apply unvisited_mono. unfold pushNoLoop, push. simpl. set_solver.
Qed.

Lemma hasChangedImportFile_terminates fuel p c w :
  size fs + 2 ≤ fuel → is_Some (hasChangedImportFile fuel p c w).
Proof.
  intros Hfuel. apply hasChangedImportFile_is_Some.
  pose proof (unvisited_le_size w). lia.
Qed.

(** *** The result does not depend on the amount of fuel *)



(** *** What a walk that finds nothing has covered *)

Section Coverage.
Variable root rootContent : string.

Local Abbreviation contentOf := (contentOf fs root rootContent).
Local Abbreviation reach := (reach getCssImports fs root rootContent).
Local Abbreviation settled :=
  (settled getCssImports fs filesChanged root rootContent).
Local Abbreviation covers :=
  (covers getCssImports fs filesChanged root rootContent).
Local Abbreviation changeInReach :=
  (changeInReach getCssImports fs filesChanged root rootContent).

Lemma settled_mono V V' g : V ⊆ V' → settled V g → settled V' g.
Proof. intros Hsub (c & Hc & Hch & Hq). exists c. naive_solver. Qed.

Lemma keepDigging_covers rec :
  covers rec →
  ∀ cssImports w results w', root ∈ noLoop w →
    keepDigging rec cssImports w = Some (results, w') →
    true ∉ results →
    noLoop w ⊆ noLoop w' ∧
    (∀ g, g ∈ noLoop w' → g ∉ noLoop w → settled (noLoop w') g) ∧
    (∀ q, q ∈ cssImports → is_Some (fs !! q) → q ∈ noLoop w').
Proof.
  intros Hrec. induction cssImports as [|p rest IH];
    intros w results w' Hroot Hk Hres.
  - simpl in Hk. simplify_eq. split; [done|]. split; [done|].
    intros q Hq. by apply elem_of_nil in Hq.
  - simpl in Hk. destruct (fs !! p) as [c|] eqn:Hp.
    + destruct (rec p c (logRead p w)) as [[r w2]|] eqn:Hr; [|done].
      simpl in Hk.
      destruct (keepDigging rec rest w2) as [[rs w3]|] eqn:Hrest; [|done].
      simpl in Hk. simplify_eq.
      destruct r; [exfalso; apply Hres; by left|].
      destruct (Hrec p c (logRead p w) w2 Hp Hroot Hr) as (Hpin & Hsub & Hnew).
      simpl in Hsub, Hnew.
      destruct (IH w2 rs w') as (Hsub' & Hnew' & Hall); auto.
      { intros Hin. apply Hres. by right. }
      split; [by etrans|]. split.
      * intros g Hg Hfresh. destruct (decide (g ∈ noLoop w2)) as [Hg2|Hg2].
        -- eapply settled_mono; [exact Hsub'|]. by apply Hnew.
        -- by apply Hnew'.
      * intros q Hq Hread. apply elem_of_cons in Hq as [->|Hq]; auto.
    + destruct (keepDigging rec rest (logRead p w)) as [[rs w3]|] eqn:Hrest;
        [|done].
      simpl in Hk. simplify_eq.
      destruct (IH (logRead p w) rs w') as (Hsub' & Hnew' & Hall); auto.
      { intros Hin. apply Hres. by right. }
      split; [done|]. split; [done|].
      intros q Hq Hread. apply elem_of_cons in Hq as [->|Hq]; auto.
      rewrite Hp in Hread. by destruct Hread.
Qed.

Lemma hasChangedImportContent_covers rec p c w w' :
  covers rec → contentOf p = Some c → root ∈ noLoop w → p ∈ noLoop w →
  hasChangedImportContent rec p c w = Some (false, w') →
  noLoop w ⊆ noLoop w' ∧
  ∀ g, g ∈ noLoop w' → g ∉ noLoop w ∨ g = p → settled (noLoop w') g.
Proof.
  intros Hrec Hc Hroot Hp Hw.
  unfold GlobalStyles.hasChangedImportContent in Hw.
  case_bool_decide as Hlen.
  { simplify_eq. split; [done|]. intros g Hg [Hfresh| ->]; [done|].
    exists c. split; [done|].
    apply nil_length_inv in Hlen. rewrite Hlen. split.
    - unfold isChangedImport. apply some_false. done.
    - intros q Hq. by apply elem_of_nil in Hq. }
  destruct (isChangedImport _ _) eqn:Hch; [by simplify_eq|].
  destruct (keepDigging _ _ _) as [[rs w2]|] eqn:Hk; [|done].
  simpl in Hw. simplify_eq.
  case_bool_decide as Hres; [done|].
  destruct (keepDigging_covers rec Hrec _ _ _ _ Hroot Hk Hres)
    as (Hsub & Hnew & Hall).
  split; [done|]. intros g Hg [Hfresh| ->]; [by apply Hnew|].
  exists c. by repeat split.
Qed.

Lemma hasChangedImportFile_covers fuel : covers (hasChangedImportFile fuel).
Proof.
  induction fuel as [|fuel IH]; intros p c w w' Hp Hroot Hw; [done|].
  simpl in Hw. destruct (includes (noLoop w) p) eqn:Hin.
  - apply includes_true in Hin. simplify_eq. by repeat split.
  - apply includes_false in Hin.
    assert (p ≠ root) as Hne by (intros ->; done).
    assert (contentOf p = Some c) as Hc.
    { unfold GlobalStyles.contentOf. by rewrite decide_False. }
    assert (noLoop w ⊆ noLoop (pushNoLoop p w)) as Hsub1.
    { unfold pushNoLoop, push. simpl. set_solver. }
    assert (p ∈ noLoop (pushNoLoop p w)) as Hp1.
    { unfold pushNoLoop, push. simpl. set_solver. }
    destruct (hasChangedImportContent_covers _ p c (pushNoLoop p w) w' IH Hc)
      as (Hsub & Hnew); auto.
    split; [auto|]. split; [by etrans|].
    intros g Hg Hfresh. apply Hnew; [done|].
    destruct (decide (g = p)) as [->|Hgp]; [by right|left].
    unfold pushNoLoop, push. simpl. rewrite elem_of_app, list_elem_of_singleton.
    naive_solver.
Qed.

(** A top-level walk that answers [false] has settled every file it can
    get to. *)
Lemma hasChangedImportFile_false_settles fuel reads w' :
  hasChangedImportFile fuel root rootContent (mkWalk [] reads) = Some (false, w') →
  ∀ g, reach g → g ∈ noLoop w' ∧ settled (noLoop w') g.
Proof.
  destruct fuel as [|fuel]; [done|]. simpl. intros Hw.
  assert (contentOf root = Some rootContent) as Hc.
  { unfold GlobalStyles.contentOf. by rewrite decide_True. }
  destruct (hasChangedImportContent_covers _ root rootContent
              (pushNoLoop root (mkWalk [] reads)) w'
              (hasChangedImportFile_covers fuel) Hc) as (Hsub & Hnew).
  { unfold pushNoLoop, push. simpl. set_solver. }
  { unfold pushNoLoop, push. simpl. set_solver. }
  { exact Hw. }
  assert (∀ g, g ∈ noLoop w' → settled (noLoop w') g) as Hall.
  { intros g Hg. apply Hnew; [done|].
    destruct (decide (g = root)) as [->|Hne]; [by right|left].
    unfold pushNoLoop, push. simpl. set_solver. }
  assert (∀ g, reach g → g ∈ noLoop w') as Hin.
  { induction 1 as [|g c q Hg IHg Hcg Hq Hread].
    - apply Hsub. unfold pushNoLoop, push. simpl. set_solver.
    - destruct (Hall g IHg) as (c' & Hc' & _ & Himp).
      rewrite Hcg in Hc'. simplify_eq. by apply Himp. }
  intros g Hg. split; auto.
Qed.

(** Completeness: a changed file imported by any file the walk can get to
    is found, whatever else in the graph cannot be read. *)
Lemma hasChangedImportFile_finds_change fuel reads g c q :
  size fs + 2 ≤ fuel →
  reach g → contentOf g = Some c → q ∈ getCssImports g c → q ∈ filesChanged →
  ∃ w', hasChangedImportFile fuel root rootContent (mkWalk [] reads)
        = Some (true, w').
Proof.
  intros Hfuel Hg Hc Hq Hch.
  destruct (hasChangedImportFile_terminates fuel root rootContent
              (mkWalk [] reads) Hfuel) as [[r w'] Hw].
  destruct r; [by eexists|]. exfalso.
  destruct (hasChangedImportFile_false_settles _ _ _ Hw g Hg)
    as (_ & c' & Hc' & Hno & _).
  rewrite Hc in Hc'. simplify_eq.
  assert (isChangedImport filesChanged (getCssImports g c') = true) as Hyes.
  { apply isChangedImport_true. eauto. }
  congruence.
Qed.

(** Soundness: a verdict "changed" comes from a changed file imported by a
    file the walk can get to. *)
Lemma keepDigging_found rec :
  (∀ p c w w', fs !! p = Some c → root ∈ noLoop w → reach p →
     rec p c w = Some (true, w') → changeInReach) →
  (∀ p c w r w', rec p c w = Some (r, w') → noLoop w ⊆ noLoop w') →
  ∀ cssImports w results w', root ∈ noLoop w →
    (∀ q, q ∈ cssImports → is_Some (fs !! q) → reach q) →
    keepDigging rec cssImports w = Some (results, w') →
    true ∈ results → changeInReach.
Proof.
  intros Hrec Hgrow. induction cssImports as [|p rest IH];
    intros w results w' Hroot Hreach Hk Hres.
  - simpl in Hk. simplify_eq. by apply elem_of_nil in Hres.
  - simpl in Hk. destruct (fs !! p) as [c|] eqn:Hp.
    + destruct (rec p c (logRead p w)) as [[r w2]|] eqn:Hr; [|done].
      simpl in Hk.
      destruct (keepDigging rec rest w2) as [[rs w3]|] eqn:Hrest; [|done].
      simpl in Hk. simplify_eq.
      apply elem_of_cons in Hres as [<-|Hres].
      * apply (Hrec p c (logRead p w) w2); auto.
        apply Hreach; [by left|by eexists].
      * apply (IH w2 rs w'); auto.
        -- apply (Hgrow _ _ _ _ _ Hr). exact Hroot.
        -- intros q Hq. apply Hreach. by right.
    + destruct (keepDigging rec rest (logRead p w)) as [[rs w3]|] eqn:Hrest;
        [|done].
      simpl in Hk. simplify_eq.
      apply elem_of_cons in Hres as [?|Hres]; [done|].
      apply (IH (logRead p w) rs w'); auto.
      intros q Hq. apply Hreach. by right.
Qed.

Lemma hasChangedImportContent_found rec p c w w' :
  (∀ p c w w', fs !! p = Some c → root ∈ noLoop w → reach p →
     rec p c w = Some (true, w') → changeInReach) →
  (∀ p c w r w', rec p c w = Some (r, w') → noLoop w ⊆ noLoop w') →
  contentOf p = Some c → reach p → root ∈ noLoop w →
  hasChangedImportContent rec p c w = Some (true, w') → changeInReach.
Proof.
  intros Hrec Hgrow Hc Hp Hroot Hw.
  unfold GlobalStyles.hasChangedImportContent in Hw.
  case_bool_decide; [by simplify_eq|].
  destruct (isChangedImport _ _) eqn:Hch.
  - apply isChangedImport_true in Hch as (q & Hq & Hqch).
    exists p, c, q. done.
  - destruct (keepDigging _ _ _) as [[rs w2]|] eqn:Hk; [|done].
    simpl in Hw. simplify_eq.
    case_bool_decide as Hres; [|done].
    eapply (keepDigging_found rec Hrec Hgrow); [exact Hroot| |exact Hk|exact Hres].
    intros q Hq Hread. by eapply reach_import.
Qed.

Lemma hasChangedImportFile_found fuel :
  ∀ p c w w', fs !! p = Some c → root ∈ noLoop w → reach p →
    hasChangedImportFile fuel p c w = Some (true, w') → changeInReach.
Proof.
  induction fuel as [|fuel IH]; intros p c w w' Hp Hroot Hreach Hw; [done|].
  simpl in Hw. destruct (includes (noLoop w) p) eqn:Hin; [by simplify_eq|].
  apply includes_false in Hin.
  assert (p ≠ root) as Hne by (intros ->; done).
  eapply (hasChangedImportContent_found _ p c (pushNoLoop p w) w' IH).
  - intros q c' w0 r w0'. apply hasChangedImportFile_grows.
  - unfold GlobalStyles.contentOf. by rewrite decide_False.
  - done.
  - unfold pushNoLoop, push. simpl. set_solver.
  - exact Hw.
Qed.

Lemma hasChangedImportFile_true_found fuel reads w' :
  hasChangedImportFile fuel root rootContent (mkWalk [] reads) = Some (true, w') →
  changeInReach.
Proof.
  destruct fuel as [|fuel]; [done|]. simpl. intros Hw.
  eapply (hasChangedImportContent_found _ root rootContent
            (pushNoLoop root (mkWalk [] reads)) w'
            (hasChangedImportFile_found fuel)).
  - intros q c' w0 r w0'. apply hasChangedImportFile_grows.
  - unfold GlobalStyles.contentOf. by rewrite decide_True.
  - apply reach_root.
  - unfold pushNoLoop, push. simpl. set_solver.
  - exact Hw.
Qed.

(** The verdict is a property of the import graph alone: it is "changed"
    exactly when some file the walk can get to imports a changed file. In
    particular it does not depend on the order in which the imports of a
    file are walked. *)
Lemma hasChangedImportFile_verdict fuel reads :
  size fs + 2 ≤ fuel →
  ∃ r w',
    hasChangedImportFile fuel root rootContent (mkWalk [] reads) = Some (r, w') ∧
    (r = true ↔ changeInReach).
Proof.
  intros Hfuel.
  destruct (hasChangedImportFile_terminates fuel root rootContent
              (mkWalk [] reads) Hfuel) as [[r w'] Hw].
  exists r, w'. split; [done|]. split.
  - intros ->. by eapply hasChangedImportFile_true_found.
  - intros (g & c & q & Hg & Hc & Hq & Hch).
    destruct (hasChangedImportFile_finds_change fuel reads g c q)
      as [w'' Hw']; try done.
    congruence.
Qed.

End Coverage.

End WalkFacts.
End WalkFacts.

(** ** The walk: termination, cycle safety, unreadable files *)

Module WalkTheorems.
Import GlobalStyles WalkFacts.


(** C8. A read that fails inside the walk contributes [false] for that
    import and the remaining imports are still walked; and whenever a
    changed file is imported by the entry file or by a file that can be
    reached from it through readable files, the verdict is "changed",
    whatever else in the graph cannot be read. *)
Theorem unreadable_import_does_not_mask
    (getCssImports : string → string → list string)
    (fs : gmap string string) (filesChanged : list string)
    (root rootContent : string) :
  (∀ rec filePath rest w,
     fs !! filePath = None →
     keepDigging fs rec (filePath :: rest) w =
       '(results, w2) ← keepDigging fs rec rest (logRead filePath w);
       Some (false :: results, w2)) ∧
  (∀ fuel reads g c q,
     size fs + 2 ≤ fuel →
     reach getCssImports fs root rootContent g →
     contentOf fs root rootContent g = Some c →
     q ∈ getCssImports g c →
     q ∈ filesChanged →
     ∃ w', hasChangedImportFile getCssImports fs filesChanged fuel root
             rootContent (mkWalk [] reads) = Some (true, w')).
Proof.
  split.
  - intros rec filePath rest w Hnone. simpl. by rewrite Hnone.
  - intros fuel reads g c q Hfuel Hg Hc Hq Hch.
    eapply hasChangedImportFile_finds_change; eauto.
Qed.


Lemma unreadable_import_does_not_mask_witness :
  (Demo.demoFs !! "gone.css" = None ∧
   size Demo.demoFs + 2 ≤ 7 ∧
   reach Demo.demoCssImports Demo.demoFs "main.css"
     "@import 'gone.css'; @import 'mid.css';" "mid.css" ∧
   contentOf Demo.demoFs "main.css" "@import 'gone.css'; @import 'mid.css';"
     "mid.css" = Some "@import 'leaf.css';" ∧
   "leaf.css" ∈ Demo.demoCssImports "mid.css" "@import 'leaf.css';" ∧
   "leaf.css" ∈ ["leaf.css"]) ∧
  ∃ w', hasChangedImportFile Demo.demoCssImports Demo.demoFs ["leaf.css"] 7
          "main.css" "@import 'gone.css'; @import 'mid.css';" (mkWalk [] [])
        = Some (true, w').
Proof.
  assert (Demo.demoFs !! "gone.css" = None) as Hgone
    by (vm_compute; reflexivity).
  assert (size Demo.demoFs + 2 ≤ 7) as Hfuel by (vm_compute; lia).
  assert (reach Demo.demoCssImports Demo.demoFs "main.css"
            "@import 'gone.css'; @import 'mid.css';" "mid.css") as Hreach.
  { apply (reach_import _ _ _ _ "main.css"
             "@import 'gone.css'; @import 'mid.css';").
    - apply reach_root.
    - reflexivity.
    - apply (bool_decide_unpack _). vm_compute. exact I.
    - exists "@import 'leaf.css';". vm_compute. reflexivity. }
  assert (contentOf Demo.demoFs "main.css"
            "@import 'gone.css'; @import 'mid.css';" "mid.css"
          = Some "@import 'leaf.css';") as Hc by (vm_compute; reflexivity).
  assert ("leaf.css" ∈ Demo.demoCssImports "mid.css" "@import 'leaf.css';")
    as Hq by (apply (bool_decide_unpack _); vm_compute; exact I).
  assert ("leaf.css" ∈ ["leaf.css"]) as Hch
    by (apply (bool_decide_unpack _); vm_compute; exact I).
  split; [by repeat split|].
  exact (proj2 (unreadable_import_does_not_mask Demo.demoCssImports Demo.demoFs
                  ["leaf.css"] "main.css"
                  "@import 'gone.css'; @import 'mid.css';")
           7 [] "mid.css" _ "leaf.css" Hfuel Hreach Hc Hq Hch).
Defined.

End WalkTheorems.

(** ** The cache decision and the rebuild *)

Module CacheTheorems.
Import GlobalStyles WalkFacts.

Section CacheTheorems.
Variable getCssImports : string → string → list string.
Variable normalizePath : string → string.
Variable runPluginTransforms :
  CompilerCtx → BuildCtx → string → Completion TransformResults.
Variable optimizeCss :
  CompilerCtx → list Diagnostic → string → string → Completion string.

Local Abbreviation canSkipGlobalStyles := (canSkipGlobalStyles getCssImports).
Local Abbreviation rebuildGlobalStyles :=
  (rebuildGlobalStyles normalizePath runPluginTransforms optimizeCss).
Local Abbreviation buildGlobalStyles :=
  (buildGlobalStyles getCssImports normalizePath runPluginTransforms optimizeCss).

Lemma buildGlobalStyles_configured fuel config g compilerCtx buildCtx :
  globalStyle config = Some g → g ≠ "" →
  buildGlobalStyles fuel config compilerCtx buildCtx =
  '(canSkip, compilerCtx') ← canSkipGlobalStyles fuel g compilerCtx buildCtx;
  if (canSkip : bool)
  then Some (cachedGlobalStyle compilerCtx', compilerCtx', buildCtx)
  else Some (rebuildGlobalStyles g compilerCtx' buildCtx).
Proof.
  intros Hg Hne. unfold GlobalStyles.buildGlobalStyles. rewrite Hg. simpl.
  by rewrite bool_decide_eq_false_2.
Qed.

Lemma buildGlobalStyles_stale fuel config g compilerCtx buildCtx compilerCtx' :
  globalStyle config = Some g → g ≠ "" →
  canSkipGlobalStyles fuel g compilerCtx buildCtx = Some (false, compilerCtx') →
  buildGlobalStyles fuel config compilerCtx buildCtx =
  Some (rebuildGlobalStyles g compilerCtx' buildCtx).
Proof.
  intros Hg Hne Hskip.
  rewrite (buildGlobalStyles_configured _ _ g) by done. by rewrite Hskip.
Qed.

(** C1, amended. The decision follows the six steps in order, with the
    first step reading "the cached value is null or the empty string":
    (1) no non-empty cached text: stale; (2) else [requiresFullBuild]:
    stale; (3) else a rebuild without style changes: valid; (4) else the
    entry file is in [filesChanged]: stale; (5) else a recorded direct
    dependency of the entry file is in [filesChanged]: stale; (6) else the
    walk from the entry file decides, a walk that finds no change giving
    valid. Steps 1 to 5 leave the context as it is. *)
Theorem canSkipGlobalStyles_decision fuel g compilerCtx buildCtx :
  size (fs compilerCtx) + 2 ≤ fuel →
  let skip := canSkipGlobalStyles fuel g compilerCtx buildCtx in
  (truthy (cachedGlobalStyle compilerCtx) = false →
   skip = Some (false, compilerCtx)) ∧
  (∀ cached,
     cachedGlobalStyle compilerCtx = Some cached → cached ≠ "" →
     (requiresFullBuild buildCtx = true → skip = Some (false, compilerCtx)) ∧
     (requiresFullBuild buildCtx = false →
      (isRebuild buildCtx = true ∧ hasStyleChanges buildCtx = false →
       skip = Some (true, compilerCtx)) ∧
      (¬ (isRebuild buildCtx = true ∧ hasStyleChanges buildCtx = false) →
       (g ∈ filesChanged buildCtx → skip = Some (false, compilerCtx)) ∧
       (g ∉ filesChanged buildCtx →
        ((∃ imports f, cssModuleImports compilerCtx !! g = Some imports ∧
                       f ∈ filesChanged buildCtx ∧ f ∈ imports) →
         skip = Some (false, compilerCtx)) ∧
        (¬ (∃ imports f, cssModuleImports compilerCtx !! g = Some imports ∧
                         f ∈ filesChanged buildCtx ∧ f ∈ imports) →
         ∃ changed w,
           hasChangedImportFile getCssImports (fs compilerCtx)
             (filesChanged buildCtx) fuel g cached
             (mkWalk [] (fsReadLog compilerCtx)) = Some (changed, w) ∧
           skip = Some (negb changed, setFsReadLog (fsReads w) compilerCtx)))))).
Proof.
  intros Hfuel skip. subst skip. unfold GlobalStyles.canSkipGlobalStyles.
  split.
  { destruct (cachedGlobalStyle compilerCtx) as [cached|]; [|done].
    simpl. rewrite negb_false_iff. intros Hc. by rewrite Hc. }
  intros cached -> Hne. rewrite bool_decide_eq_false_2 by done.
  split; [by intros ->|]. intros ->.
  split; [by intros [-> ->]|]. intros Hno.
  assert (isRebuild buildCtx && negb (hasStyleChanges buildCtx) = false) as ->.
  { destruct (isRebuild buildCtx), (hasStyleChanges buildCtx); try done.
    exfalso. by apply Hno. }
  split.
  { intros Hin. by rewrite (proj2 (includes_true _ _) Hin). }
  intros Hnin. rewrite (proj2 (includes_false _ _) Hnin).
  split.
  { intros (imports & f & -> & Hf & Hfi).
    assert (some (λ f, includes imports f) (filesChanged buildCtx) = true)
      as ->; [|done].
    apply some_true. exists f. split; [done|]. by apply includes_true. }
  intros Hnone.
  assert (match cssModuleImports compilerCtx !! g with
          | Some imports => some (λ f, includes imports f) (filesChanged buildCtx)
          | None => false
          end = false) as ->.
  { destruct (cssModuleImports compilerCtx !! g) as [imports|]; [|done].
    apply some_false. intros f Hf. apply includes_false. intros Hfi.
    apply Hnone. eauto. }
  destruct (hasChangedImportFile_terminates getCssImports (fs compilerCtx)
              (filesChanged buildCtx) fuel g cached
              (mkWalk [] (fsReadLog compilerCtx)) Hfuel) as [[changed w] Hw].
  exists changed, w. split; [done|]. rewrite Hw. simpl. by destruct changed.
Qed.

(** C2, amended. With a global style configured, a cached text that is
    not empty and [requiresFullBuild] false, a rebuild without style
    changes returns the cached text and leaves both contexts untouched: no
    file is read, no collaborator is called. Nothing is asked of
    [filesChanged], so this holds when the entry file itself is in it. *)
Theorem buildGlobalStyles_rebuild_short_circuit
    fuel config g cached compilerCtx buildCtx :
  globalStyle config = Some g → g ≠ "" →
  cachedGlobalStyle compilerCtx = Some cached → cached ≠ "" →
  requiresFullBuild buildCtx = false →
  isRebuild buildCtx = true →
  hasStyleChanges buildCtx = false →
  buildGlobalStyles fuel config compilerCtx buildCtx =
  Some (Some cached, compilerCtx, buildCtx).
Proof.
  intros Hg Hne Hc Hcne Hfull Hre Hst.
  rewrite (buildGlobalStyles_configured _ _ g) by done.
  unfold GlobalStyles.canSkipGlobalStyles.
  rewrite Hc, bool_decide_eq_false_2, Hfull, Hre, Hst by done.
  simpl. by rewrite Hc.
Qed.

(** What the [catch] block leaves behind. *)
Lemma catchBlock_spec path err compilerCtx buildCtx :
  catchBlock path err compilerCtx buildCtx =
  (None, setCachedGlobalStyle None compilerCtx,
   setDiagnostics (diagnostics buildCtx ++ [mkDiagnostic err (Some path)])
     buildCtx).
Proof.
  unfold catchBlock, catchError, resetGlobalStyle, push. simpl.
  f_equal. unfold setDiagnostics. simpl. f_equal.
  induction (diagnostics buildCtx) as [|d ds IH]; [done|].
  simpl. by f_equal.
Qed.

(** C4. When the cache is stale and the transform chain throws, or it
    resolves to usable code and the optimizer throws, [buildGlobalStyles]
    returns [null] (no exception leaves it), appends exactly one diagnostic,
    carrying the normalized global style path, after those the collaborators
    reported, and sets [cachedGlobalStyle] to [null]: whatever text was
    cached before, the context it leaves behind holds none, and differs
    from the context of the attempt in nothing else. *)
Theorem buildGlobalStyles_catches fuel config g compilerCtx buildCtx compilerCtx1 :
  globalStyle config = Some g → g ≠ "" →
  canSkipGlobalStyles fuel g compilerCtx buildCtx = Some (false, compilerCtx1) →
  let path := normalizePath g in
  let compilerCtx2 := addWatchFile path compilerCtx1 in
  (∀ reported err,
     runPluginTransforms compilerCtx2 buildCtx path = Thrown reported err →
     ∃ d compilerCtx',
       absFilePath d = Some path ∧
       buildGlobalStyles fuel config compilerCtx buildCtx =
       Some (None, compilerCtx',
             setDiagnostics (diagnostics buildCtx ++ reported ++ [d]) buildCtx) ∧
       cachedGlobalStyle compilerCtx' = None ∧
       compilerCtx' = setCachedGlobalStyle None compilerCtx2) ∧
  (∀ reported transformResults cssCode dependencies reported' err,
     runPluginTransforms compilerCtx2 buildCtx path =
       Returned reported transformResults →
     cssCode ≠ "" →
     transformResults = TransformString cssCode ∨
     transformResults = TransformDescriptor (Some cssCode) dependencies →
     optimizeCss compilerCtx2 (diagnostics buildCtx ++ reported) cssCode path =
       Thrown reported' err →
     ∃ d compilerCtx',
       absFilePath d = Some path ∧
       buildGlobalStyles fuel config compilerCtx buildCtx =
       Some (None, compilerCtx',
             setDiagnostics (diagnostics buildCtx ++ reported ++ reported' ++ [d])
               buildCtx) ∧
       cachedGlobalStyle compilerCtx' = None ∧
       compilerCtx' = setCachedGlobalStyle None compilerCtx2).
Proof.
  intros Hg Hne Hskip path compilerCtx2.
  rewrite (buildGlobalStyles_stale _ _ g _ _ compilerCtx1) by done.
  unfold GlobalStyles.rebuildGlobalStyles. fold path. fold compilerCtx2.
  split.
  - intros reported err ->.
    exists (mkDiagnostic err (Some path)), (setCachedGlobalStyle None compilerCtx2).
    split; [done|]. rewrite catchBlock_spec. simpl.
    rewrite <- app_assoc. split; [done|]. split; reflexivity.
  - intros reported tr cssCode deps reported' err -> Hcode Htr Hopt.
    exists (mkDiagnostic err (Some path)), (setCachedGlobalStyle None compilerCtx2).
    split; [done|].
    destruct Htr as [-> | ->]; simpl;
      rewrite bool_decide_eq_false_2 by done; simpl;
      rewrite Hopt, catchBlock_spec; simpl;
      rewrite <- !app_assoc; (split; [done|]); split; reflexivity.
Qed.

(** C5, amended. On a stale recomputation, every plain string that is not
    empty is passed to the optimizer, and what the optimizer returns is both
    the new cached value and the output; the empty string is treated like
    [null]: the optimizer is not consulted, the cache is reset to [null] and
    [null] is returned. In both cases the context left behind differs from
    the context of the attempt in the cached value only. *)
Theorem buildGlobalStyles_plain_string
    fuel config g compilerCtx buildCtx compilerCtx1 :
  globalStyle config = Some g → g ≠ "" →
  canSkipGlobalStyles fuel g compilerCtx buildCtx = Some (false, compilerCtx1) →
  let path := normalizePath g in
  let compilerCtx2 := addWatchFile path compilerCtx1 in
  (∀ reported cssCode reported' optimizedCss,
     runPluginTransforms compilerCtx2 buildCtx path =
       Returned reported (TransformString cssCode) →
     cssCode ≠ "" →
     optimizeCss compilerCtx2 (diagnostics buildCtx ++ reported) cssCode path =
       Returned reported' optimizedCss →
     ∃ compilerCtx',
       buildGlobalStyles fuel config compilerCtx buildCtx =
       Some (Some optimizedCss, compilerCtx',
             setDiagnostics (diagnostics buildCtx ++ reported ++ reported')
               buildCtx) ∧
       cachedGlobalStyle compilerCtx' = Some optimizedCss ∧
       compilerCtx' = setCachedGlobalStyle (Some optimizedCss) compilerCtx2) ∧
  (∀ reported transformResults,
     runPluginTransforms compilerCtx2 buildCtx path =
       Returned reported transformResults →
     transformResults = TransformNull ∨ transformResults = TransformString "" →
     ∃ compilerCtx',
       buildGlobalStyles fuel config compilerCtx buildCtx =
       Some (None, compilerCtx',
             setDiagnostics (diagnostics buildCtx ++ reported) buildCtx) ∧
       cachedGlobalStyle compilerCtx' = None ∧
       compilerCtx' = setCachedGlobalStyle None compilerCtx2).
Proof.
  intros Hg Hne Hskip path compilerCtx2.
  rewrite (buildGlobalStyles_stale _ _ g _ _ compilerCtx1) by done.
  unfold GlobalStyles.rebuildGlobalStyles. fold path. fold compilerCtx2.
  split.
  - intros reported cssCode reported' optimizedCss -> Hcode Hopt.
    rewrite bool_decide_eq_false_2 by done. simpl. rewrite Hopt.
    exists (setCachedGlobalStyle (Some optimizedCss) compilerCtx2).
    unfold report. simpl. rewrite <- app_assoc.
    split; [done|]. split; reflexivity.
  - intros reported tr -> Htr.
    exists (setCachedGlobalStyle None compilerCtx2).
    split; [by destruct Htr as [-> | ->]|]. split; reflexivity.
Qed.

End CacheTheorems.

(** An empty cached text arises whenever the optimizer returns the empty
    string for a non-empty stylesheet. *)
Lemma empty_cache_reachable :
  ∃ compilerCtx' buildCtx',
    buildGlobalStyles Demo.demoCssImports Demo.demoNormalizePath
      (Demo.demoTransforms (TransformString "/* only a comment */"))
      Demo.demoOptimizeToEmpty 7 Demo.demoConfig (Demo.demoCompilerCtx None)
      (Demo.demoBuildCtx [] false false false)
    = Some (Some "", compilerCtx', buildCtx') ∧
    cachedGlobalStyle compilerCtx' = Some "".
Proof. do 2 eexists. split; [vm_compute; reflexivity|reflexivity]. Qed.

(** C1 as stated fails: with the empty string cached, no full build
    required, and a rebuild without style changes, a cached value exists and
    steps 1 to 3 of the claim give "valid", yet the cache is stale. *)
Lemma canSkipGlobalStyles_empty_cache_stale :
  ¬ (∀ getCssImports fuel g compilerCtx buildCtx,
       cachedGlobalStyle compilerCtx ≠ None →
       requiresFullBuild buildCtx = false →
       isRebuild buildCtx = true →
       hasStyleChanges buildCtx = false →
       ∃ compilerCtx',
         canSkipGlobalStyles getCssImports fuel g compilerCtx buildCtx
         = Some (true, compilerCtx')).
Proof.
  intros Hclaim.
  destruct (Hclaim Demo.demoCssImports 7 "a.css" (Demo.demoCompilerCtx (Some ""))
              (Demo.demoBuildCtx [] true false false))
    as [compilerCtx' Hskip]; try done.
Qed.

Lemma canSkipGlobalStyles_decision_witness :
  size (fs (Demo.demoCompilerCtx (Some "@import 'b.css';"))) + 2 ≤ 7 ∧
  ∃ changed w,
    hasChangedImportFile Demo.demoCssImports Demo.demoFs ["b.css"] 7 "a.css"
      "@import 'b.css';" (mkWalk [] []) = Some (changed, w) ∧
    canSkipGlobalStyles Demo.demoCssImports 7 "a.css"
      (Demo.demoCompilerCtx (Some "@import 'b.css';"))
      (Demo.demoBuildCtx ["b.css"] true false true)
    = Some (negb changed,
            setFsReadLog (fsReads w)
              (Demo.demoCompilerCtx (Some "@import 'b.css';"))).
Proof.
  assert (size (fs (Demo.demoCompilerCtx (Some "@import 'b.css';"))) + 2 ≤ 7)
    as Hfuel by (vm_compute; lia).
  split; [exact Hfuel|].
  pose proof (canSkipGlobalStyles_decision Demo.demoCssImports 7 "a.css"
                (Demo.demoCompilerCtx (Some "@import 'b.css';"))
                (Demo.demoBuildCtx ["b.css"] true false true) Hfuel)
    as Hdecision.
  cbv zeta in Hdecision. destruct Hdecision as [_ Hcached].
  destruct (Hcached "@import 'b.css';" eq_refl) as [_ Hfull];
    [discriminate|].
  destruct (Hfull eq_refl) as [_ Hrebuild].
  destruct Hrebuild as [_ Hentry].
  { intros [_ Hstyle]. discriminate Hstyle. }
  destruct Hentry as [_ Hdeps].
  { apply (bool_decide_unpack _). vm_compute. exact I. }
  apply Hdeps. intros (imports & f & Hlookup & _).
  vm_compute in Hlookup. discriminate Hlookup.
Defined.

Lemma buildGlobalStyles_rebuild_short_circuit_witness :
  (globalStyle Demo.demoConfig = Some "a.css" ∧ "a.css" ≠ "" ∧
   cachedGlobalStyle (Demo.demoCompilerCtx (Some "X")) = Some "X" ∧ "X" ≠ "" ∧
   requiresFullBuild (Demo.demoBuildCtx ["a.css"] true false false) = false ∧
   isRebuild (Demo.demoBuildCtx ["a.css"] true false false) = true ∧
   hasStyleChanges (Demo.demoBuildCtx ["a.css"] true false false) = false) ∧
  buildGlobalStyles Demo.demoCssImports Demo.demoNormalizePath
    Demo.demoTransformsThrow Demo.demoOptimizeThrow 7 Demo.demoConfig
    (Demo.demoCompilerCtx (Some "X"))
    (Demo.demoBuildCtx ["a.css"] true false false)
  = Some (Some "X", Demo.demoCompilerCtx (Some "X"),
          Demo.demoBuildCtx ["a.css"] true false false).
Proof.
  assert ("a.css" ≠ "") as Hg by discriminate.
  assert ("X" ≠ "") as Hc by discriminate.
  split; [by repeat split|].
  exact (buildGlobalStyles_rebuild_short_circuit Demo.demoCssImports
           Demo.demoNormalizePath Demo.demoTransformsThrow
           Demo.demoOptimizeThrow 7 Demo.demoConfig "a.css" "X"
           (Demo.demoCompilerCtx (Some "X"))
           (Demo.demoBuildCtx ["a.css"] true false false)
           eq_refl Hg eq_refl Hc eq_refl eq_refl eq_refl).
Defined.

(** C2 as stated fails: a cached style is present (the empty string), a
    full build is not required, the build is a rebuild without style
    changes, and yet the style is recomputed and something else than the
    cached text is returned. *)
Lemma buildGlobalStyles_empty_cache_recomputed :
  ¬ (∀ getCssImports normalizePath runPluginTransforms optimizeCss
       fuel config g cached compilerCtx buildCtx,
       globalStyle config = Some g → g ≠ "" →
       cachedGlobalStyle compilerCtx = Some cached →
       requiresFullBuild buildCtx = false →
       isRebuild buildCtx = true →
       hasStyleChanges buildCtx = false →
       buildGlobalStyles getCssImports normalizePath runPluginTransforms
         optimizeCss fuel config compilerCtx buildCtx
       = Some (Some cached, compilerCtx, buildCtx)).
Proof.
  intros Hclaim.
  assert ("a.css" ≠ "") as Hg by discriminate.
  pose proof (Hclaim Demo.demoCssImports Demo.demoNormalizePath
                (Demo.demoTransforms (TransformString "body{}"))
                Demo.demoOptimizeCss 7 Demo.demoConfig "a.css" ""
                (Demo.demoCompilerCtx (Some ""))
                (Demo.demoBuildCtx [] true false false)
                eq_refl Hg eq_refl eq_refl eq_refl eq_refl) as Hbuild.
  vm_compute in Hbuild. discriminate Hbuild.
Qed.

Lemma buildGlobalStyles_catches_witness :
  (globalStyle Demo.demoConfig = Some "a.css" ∧ "a.css" ≠ "" ∧
   canSkipGlobalStyles Demo.demoCssImports 7 "a.css"
     (Demo.demoCompilerCtx (Some "old{}"))
     (Demo.demoBuildCtx ["a.css"] false false true)
   = Some (false, Demo.demoCompilerCtx (Some "old{}")) ∧
   Demo.demoTransformsThrow
     (addWatchFile "a.css" (Demo.demoCompilerCtx (Some "old{}")))
     (Demo.demoBuildCtx ["a.css"] false false true) "a.css"
   = Thrown [] "transform failed") ∧
  ∃ d compilerCtx',
    absFilePath d = Some "a.css" ∧
    buildGlobalStyles Demo.demoCssImports Demo.demoNormalizePath
      Demo.demoTransformsThrow Demo.demoOptimizeCss 7 Demo.demoConfig
      (Demo.demoCompilerCtx (Some "old{}"))
      (Demo.demoBuildCtx ["a.css"] false false true)
    = Some (None, compilerCtx',
            setDiagnostics ([] ++ [] ++ [d])
              (Demo.demoBuildCtx ["a.css"] false false true)) ∧
    cachedGlobalStyle compilerCtx' = None ∧
    compilerCtx' =
      setCachedGlobalStyle None
        (addWatchFile "a.css" (Demo.demoCompilerCtx (Some "old{}"))).
Proof.
  assert ("a.css" ≠ "") as Hg by discriminate.
  split; [by repeat split|].
  exact (proj1 (buildGlobalStyles_catches Demo.demoCssImports
                  Demo.demoNormalizePath Demo.demoTransformsThrow
                  Demo.demoOptimizeCss 7 Demo.demoConfig "a.css"
                  (Demo.demoCompilerCtx (Some "old{}"))
                  (Demo.demoBuildCtx ["a.css"] false false true)
                  (Demo.demoCompilerCtx (Some "old{}")) eq_refl Hg eq_refl)
           [] "transform failed" eq_refl).
Defined.

Lemma buildGlobalStyles_plain_string_witness :
  (globalStyle Demo.demoConfig = Some "a.css" ∧ "a.css" ≠ "" ∧
   canSkipGlobalStyles Demo.demoCssImports 7 "a.css"
     (Demo.demoCompilerCtx (Some "old{}"))
     (Demo.demoBuildCtx ["a.css"] false false true)
   = Some (false, Demo.demoCompilerCtx (Some "old{}")) ∧
   "body{}" ≠ "") ∧
  (∃ compilerCtx',
     buildGlobalStyles Demo.demoCssImports Demo.demoNormalizePath
       (Demo.demoTransforms (TransformString "body{}")) Demo.demoOptimizeCss 7
       Demo.demoConfig (Demo.demoCompilerCtx (Some "old{}"))
       (Demo.demoBuildCtx ["a.css"] false false true)
     = Some (Some "/*min*/body{}", compilerCtx',
             setDiagnostics ([] ++ [] ++ [])
               (Demo.demoBuildCtx ["a.css"] false false true)) ∧
     cachedGlobalStyle compilerCtx' = Some "/*min*/body{}" ∧
     compilerCtx' =
       setCachedGlobalStyle (Some "/*min*/body{}")
         (addWatchFile "a.css" (Demo.demoCompilerCtx (Some "old{}")))) ∧
  (∃ compilerCtx',
     buildGlobalStyles Demo.demoCssImports Demo.demoNormalizePath
       (Demo.demoTransforms (TransformString "")) Demo.demoOptimizeCss 7
       Demo.demoConfig (Demo.demoCompilerCtx (Some "old{}"))
       (Demo.demoBuildCtx ["a.css"] false false true)
     = Some (None, compilerCtx',
             setDiagnostics ([] ++ [])
               (Demo.demoBuildCtx ["a.css"] false false true)) ∧
     cachedGlobalStyle compilerCtx' = None ∧
     compilerCtx' =
       setCachedGlobalStyle None
         (addWatchFile "a.css" (Demo.demoCompilerCtx (Some "old{}")))).
Proof.
  assert ("a.css" ≠ "") as Hg by discriminate.
  assert ("body{}" ≠ "") as Hcode by discriminate.
  split; [by repeat split|]. split.
  - exact (proj1 (buildGlobalStyles_plain_string Demo.demoCssImports
                    Demo.demoNormalizePath
                    (Demo.demoTransforms (TransformString "body{}"))
                    Demo.demoOptimizeCss 7 Demo.demoConfig "a.css"
                    (Demo.demoCompilerCtx (Some "old{}"))
                    (Demo.demoBuildCtx ["a.css"] false false true)
                    (Demo.demoCompilerCtx (Some "old{}")) eq_refl Hg eq_refl)
             [] "body{}" [] "/*min*/body{}" eq_refl Hcode eq_refl).
  - exact (proj2 (buildGlobalStyles_plain_string Demo.demoCssImports
                    Demo.demoNormalizePath
                    (Demo.demoTransforms (TransformString ""))
                    Demo.demoOptimizeCss 7 Demo.demoConfig "a.css"
                    (Demo.demoCompilerCtx (Some "old{}"))
                    (Demo.demoBuildCtx ["a.css"] false false true)
                    (Demo.demoCompilerCtx (Some "old{}")) eq_refl Hg eq_refl)
             [] (TransformString "") eq_refl (or_intror eq_refl)).
Defined.

(** C5 as stated fails: when the transform chain resolves to the empty
    string, the optimizer's answer for it is neither returned nor cached. *)
Lemma buildGlobalStyles_empty_string_not_optimized :
  ¬ (∀ getCssImports normalizePath runPluginTransforms optimizeCss
       fuel config g compilerCtx buildCtx compilerCtx1
       reported cssCode reported' optimizedCss,
       globalStyle config = Some g → g ≠ "" →
       canSkipGlobalStyles getCssImports fuel g compilerCtx buildCtx
         = Some (false, compilerCtx1) →
       runPluginTransforms (addWatchFile (normalizePath g) compilerCtx1)
         buildCtx (normalizePath g)
         = Returned reported (TransformString cssCode) →
       optimizeCss (addWatchFile (normalizePath g) compilerCtx1)
         (diagnostics buildCtx ++ reported) cssCode (normalizePath g)
         = Returned reported' optimizedCss →
       ∃ compilerCtx' buildCtx',
         buildGlobalStyles getCssImports normalizePath runPluginTransforms
           optimizeCss fuel config compilerCtx buildCtx
         = Some (Some optimizedCss, compilerCtx', buildCtx') ∧
         cachedGlobalStyle compilerCtx' = Some optimizedCss).
Proof.
  intros Hclaim.
  assert ("a.css" ≠ "") as Hg by discriminate.
  destruct (Hclaim Demo.demoCssImports Demo.demoNormalizePath
              (Demo.demoTransforms (TransformString ""))
              Demo.demoOptimizeCss 7 Demo.demoConfig "a.css"
              (Demo.demoCompilerCtx None)
              (Demo.demoBuildCtx [] false false false)
              (Demo.demoCompilerCtx None) [] "" [] "/*min*/"
              eq_refl Hg eq_refl eq_refl eq_refl)
    as (compilerCtx' & buildCtx' & Hbuild & _).
  vm_compute in Hbuild. discriminate Hbuild.
Qed.

End CacheTheorems.

(** ** The style-import linker *)

Module LinkerTheorems.
Import StyleImports.

Section LinkerTheorems.
Variable serializeImportPath : SerializeImportData → option string → string.
Variable updateSourceFile : SourceFile → list Statement → SourceFile.
Variable transformOpts : TransformOptions.
Variable tsSourceFile : SourceFile.

Local Abbreviation getStyleImportPath :=
  (getStyleImportPath serializeImportPath transformOpts tsSourceFile).
Local Abbreviation createEsmStyleImport :=
  (createEsmStyleImport serializeImportPath transformOpts tsSourceFile).
Local Abbreviation updateEsmStyleImportPath :=
  (updateEsmStyleImportPath serializeImportPath transformOpts tsSourceFile).
Local Abbreviation linkEsmStyle :=
  (linkEsmStyle serializeImportPath transformOpts tsSourceFile).
Local Abbreviation linkCjsStyle :=
  (linkCjsStyle serializeImportPath transformOpts tsSourceFile).
Local Abbreviation createdEsmStyleImports :=
  (createdEsmStyleImports serializeImportPath transformOpts tsSourceFile).
Local Abbreviation createdFor :=
  (createdFor serializeImportPath transformOpts tsSourceFile).
Local Abbreviation linkCmps :=
  (linkCmps serializeImportPath transformOpts tsSourceFile).
Local Abbreviation updateEsmStyleImports :=
  (updateEsmStyleImports serializeImportPath updateSourceFile transformOpts
     tsSourceFile).
Local Abbreviation updateCjsStyleRequires :=
  (updateCjsStyleRequires serializeImportPath updateSourceFile transformOpts
     tsSourceFile).

Implicit Types (n : Statement) (st : EsmState) (style : StyleCompiler)
  (cmp : ComponentCompilerMeta).

(** *** Rewriting one import path *)

Lemma sameSlot_trans n1 n2 n3 : sameSlot n1 n2 → sameSlot n2 n3 → sameSlot n1 n3.
Proof.
  intros H12 H23. destruct H12; [done|]. inversion H23; subst; constructor.
Qed.

Lemma sameSlot_isImportDeclaration n n' :
  sameSlot n n' → isImportDeclaration n' = isImportDeclaration n.
Proof. by destruct 1. Qed.

Lemma Forall2_sameSlot_refl (l : list Statement) : Forall2 sameSlot l l.
Proof. induction l; constructor; [constructor|done]. Qed.

Lemma Forall2_sameSlot_trans (l1 l2 l3 : list Statement) :
  Forall2 sameSlot l1 l2 → Forall2 sameSlot l2 l3 → Forall2 sameSlot l1 l3.
Proof.
  intros H12. revert l3. induction H12 as [|n1 n2 l1 l2 Hn H12 IH];
    intros l3 H23; inversion H23; subst; constructor.
  - by eapply sameSlot_trans.
  - by apply IH.
Qed.

Lemma updateEsmStyleImportPath_sameSlot (l : list Statement) cmp style identifier :
  Forall2 sameSlot l (updateEsmStyleImportPath l cmp style identifier).
Proof.
  induction l as [|n rest IH]; [constructor|].
  simpl. destruct n as [d m [clause|] [org| |] a| |];
    try (constructor; [constructor|exact IH]).
  case_bool_decide.
  - constructor; [constructor|apply Forall2_sameSlot_refl].
  - constructor; [constructor|exact IH].
Qed.

(** Without a matching import nothing changes. *)
Lemma updateEsmStyleImportPath_no_match (l : list Statement) cmp style identifier :
  Forall (λ n, bindsIdentifier identifier n = false) l →
  updateEsmStyleImportPath l cmp style identifier = l.
Proof.
  induction 1 as [|n rest Hn Hrest IH]; [done|].
  simpl. rewrite IH.
  destruct n as [d m [clause|] [org| |] a| |]; try done.
  simpl in Hn. by rewrite Hn.
Qed.


Lemma no_import_binds_nothing (l : list Statement) identifier :
  Forall (λ n, isImportDeclaration n = false) l →
  Forall (λ n, bindsIdentifier identifier n = false) l.
Proof.
  intros Hno. eapply Forall_impl; [exact Hno|]. intros n Hn. by destruct n.
Qed.

(** *** The loops over components and styles *)

Lemma linkEsmStyle_spec cmp st style :
  let st' := linkEsmStyle cmp st style in
  styleImports st' = styleImports st ++ createdFor cmp style ∧
  Forall2 sameSlot (esmStatements st) (esmStatements st') ∧
  updateSourceFileFlag st' = updateSourceFileFlag st || carriesIdentifier style ∧
  (Forall (λ n, isImportDeclaration n = false) (esmStatements st) →
   esmStatements st' = esmStatements st).
Proof.
  unfold StyleImports.linkEsmStyle, StyleImports.createdFor, carriesIdentifier.
  destruct (styleIdentifier style) as [identifier|]; simpl.
  - destruct (externalStyles style) as [|first rest]; simpl.
    + rewrite app_nil_r, orb_true_r. repeat split.
      * apply updateEsmStyleImportPath_sameSlot.
      * intros Hno. apply updateEsmStyleImportPath_no_match.
        by apply no_import_binds_nothing.
    + rewrite orb_true_r. repeat split. apply Forall2_sameSlot_refl.
  - rewrite app_nil_r, orb_false_r. repeat split. apply Forall2_sameSlot_refl.
Qed.

Lemma link_styles_spec cmp (l : list StyleCompiler) :
  ∀ st,
    let st' := foldl (linkEsmStyle cmp) st l in
    styleImports st' = styleImports st ++ (style ← l; createdFor cmp style) ∧
    Forall2 sameSlot (esmStatements st) (esmStatements st') ∧
    updateSourceFileFlag st' =
      updateSourceFileFlag st || existsb carriesIdentifier l ∧
    (Forall (λ n, isImportDeclaration n = false) (esmStatements st) →
     esmStatements st' = esmStatements st).
Proof.
  induction l as [|style rest IH]; intros st; simpl.
  - rewrite app_nil_r, orb_false_r. repeat split. apply Forall2_sameSlot_refl.
  - destruct (linkEsmStyle_spec cmp st style) as (Himp & Hslot & Hflag & Hno).
    destruct (IH (linkEsmStyle cmp st style)) as (Himp' & Hslot' & Hflag' & Hno').
    simpl in *. repeat split.
    + by rewrite Himp', Himp, <- app_assoc.
    + by eapply Forall2_sameSlot_trans.
    + by rewrite Hflag', Hflag, orb_assoc.
    + intros Hnone. rewrite Hno'; rewrite Hno; done.
Qed.

Lemma link_cmps_spec (l : list ComponentCompilerMeta) :
  ∀ st,
    let st' := linkCmps l st in
    styleImports st' =
      styleImports st ++ (cmp ← l; style ← styles cmp; createdFor cmp style) ∧
    Forall2 sameSlot (esmStatements st) (esmStatements st') ∧
    updateSourceFileFlag st' =
      updateSourceFileFlag st ||
      existsb (λ cmp, existsb carriesIdentifier (styles cmp)) l ∧
    (Forall (λ n, isImportDeclaration n = false) (esmStatements st) →
     esmStatements st' = esmStatements st).
Proof.
  induction l as [|cmp rest IH]; intros st; simpl.
  - rewrite app_nil_r, orb_false_r. repeat split. apply Forall2_sameSlot_refl.
  - destruct (link_styles_spec cmp (styles cmp) st)
      as (Himp & Hslot & Hflag & Hno).
    destruct (IH (foldl (linkEsmStyle cmp) st (styles cmp)))
      as (Himp' & Hslot' & Hflag' & Hno').
    simpl in *. unfold StyleImports.linkCmps in *. repeat split.
    + by rewrite Himp', Himp, <- app_assoc.
    + by eapply Forall2_sameSlot_trans.
    + by rewrite Hflag', Hflag, orb_assoc.
    + intros Hnone. rewrite Hno'; rewrite Hno; done.
Qed.

Lemma some_style_carries_identifier (l : list ComponentCompilerMeta) :
  existsb (λ cmp, existsb carriesIdentifier (styles cmp)) l = true ↔
  ∃ cmp style, cmp ∈ l ∧ style ∈ styles cmp ∧ is_Some (styleIdentifier style).
Proof.
  rewrite existsb_exists. split.
  - intros (cmp & Hcmp & Hst). apply existsb_exists in Hst as (style & Hstyle & Hid).
    exists cmp, style. rewrite !list_elem_of_In. repeat split; try done.
    unfold carriesIdentifier in Hid.
    destruct (styleIdentifier style); [by eexists|done].
  - intros (cmp & style & Hcmp & Hstyle & identifier & Hid).
    exists cmp. rewrite <- list_elem_of_In. split; [done|].
    apply existsb_exists. exists style. rewrite <- list_elem_of_In.
    split; [done|]. unfold carriesIdentifier. by rewrite Hid.
Qed.

Lemma no_style_carries_identifier (l : list ComponentCompilerMeta) :
  (∀ cmp style, cmp ∈ l → style ∈ styles cmp → styleIdentifier style = None) →
  existsb (λ cmp, existsb carriesIdentifier (styles cmp)) l = false.
Proof.
  intros Hnone.
  destruct (existsb _ l) eqn:Hex; [|done].
  apply some_style_carries_identifier
    in Hex as (cmp & style & Hcmp & Hstyle & identifier & Hid).
  rewrite (Hnone cmp style Hcmp Hstyle) in Hid. done.
Qed.

(** *** Where the new imports go *)

Lemma lastImportIndexFrom_none (l : list Statement) :
  Forall (λ n, isImportDeclaration n = false) l →
  ∀ i last, lastImportIndexFrom i last l = last.
Proof.
  induction 1 as [|n rest Hn Hrest IH]; intros i last; [done|].
  simpl. by rewrite Hn, IH.
Qed.

Lemma lastImportIndexFrom_last (pre post : list Statement) n :
  isImportDeclaration n = true →
  Forall (λ n, isImportDeclaration n = false) post →
  ∀ i last,
    lastImportIndexFrom i last (pre ++ n :: post) = (i + Z.of_nat (length pre))%Z.
Proof.
  intros Hn Hpost. induction pre as [|n' pre IH]; intros i last.
  - simpl. rewrite Hn, lastImportIndexFrom_none by done. lia.
  - simpl. rewrite IH. lia.
Qed.

(** Every list of statements is import-free, or splits at its last import. *)
Lemma split_at_last_import (l : list Statement) :
  Forall (λ n, isImportDeclaration n = false) l ∨
  ∃ pre n post,
    l = pre ++ n :: post ∧ isImportDeclaration n = true ∧
    Forall (λ n, isImportDeclaration n = false) post.
Proof.
  induction l as [|n rest IH]; [by left|].
  destruct IH as [Hnone|(pre & n' & post & -> & Hn' & Hpost)].
  - destruct (isImportDeclaration n) eqn:Hn.
    + right. exists [], n, rest. done.
    + left. by constructor.
  - right. exists (n :: pre), n', post. done.
Qed.


Lemma esm_statements_after_linking moduleFile :
  let st := linkCmps (cmps moduleFile)
              (mkEsmState [] (statements tsSourceFile) false) in
  (∃ cmp style, cmp ∈ cmps moduleFile ∧ style ∈ styles cmp ∧
                is_Some (styleIdentifier style)) →
  styleImports st = createdEsmStyleImports moduleFile ∧
  Forall2 sameSlot (statements tsSourceFile) (esmStatements st) ∧
  updateEsmStyleImports moduleFile =
  updateSourceFile tsSourceFile
    (splice (lastImportIndexFrom 0 (-1) (esmStatements st) + 1)
       (styleImports st) (esmStatements st)).
Proof.
  intros st Hsome.
  destruct (link_cmps_spec (cmps moduleFile)
              (mkEsmState [] (statements tsSourceFile) false))
    as (Himp & Hslot & Hflag & _).
  fold st in Himp, Hslot, Hflag. simpl in *.
  apply some_style_carries_identifier in Hsome. rewrite Hsome in Hflag.
  repeat split; [done..|].
  change (updateEsmStyleImports moduleFile)
    with (if updateSourceFileFlag st
          then updateSourceFile tsSourceFile
                 (splice (lastImportIndexFrom 0 (-1) (esmStatements st) + 1)
                    (styleImports st) (esmStatements st))
          else tsSourceFile).
  by rewrite Hflag.
Qed.


Lemma linkCjsStyle_no_identifier cmp (l : list StyleCompiler) :
  (∀ style, style ∈ l → styleIdentifier style = None) →
  ∀ styleRequires, foldl (linkCjsStyle cmp) styleRequires l = styleRequires.
Proof.
  induction l as [|style rest IH]; intros Hnone styleRequires; [done|].
  simpl. unfold StyleImports.linkCjsStyle at 2.
  rewrite (Hnone style) by (by left). apply IH.
  intros style' Hin. apply Hnone. by right.
Qed.

(** C9. When no style of any component of the module carries a bound
    identifier, [updateStyleImports] returns the source file it was given,
    not a file made by [ts.factory.updateSourceFile], in the static-import
    convention and in the eager-require convention alike. *)
Theorem updateStyleImports_unchanged moduleFile :
  (∀ cmp style, cmp ∈ cmps moduleFile → style ∈ styles cmp →
                styleIdentifier style = None) →
  updateEsmStyleImports moduleFile = tsSourceFile ∧
  updateCjsStyleRequires moduleFile = tsSourceFile ∧
  updateStyleImports serializeImportPath updateSourceFile transformOpts
    tsSourceFile moduleFile = tsSourceFile.
Proof.
  intros Hnone.
  assert (updateEsmStyleImports moduleFile = tsSourceFile) as Hesm.
  { destruct (link_cmps_spec (cmps moduleFile)
                (mkEsmState [] (statements tsSourceFile) false))
      as (_ & _ & Hflag & _).
    simpl in Hflag. rewrite (no_style_carries_identifier _ Hnone) in Hflag.
    unfold StyleImports.updateEsmStyleImports.
    change (foldl _ _ (cmps moduleFile))
      with (linkCmps (cmps moduleFile)
              (mkEsmState [] (statements tsSourceFile) false)).
    by rewrite Hflag. }
  assert (updateCjsStyleRequires moduleFile = tsSourceFile) as Hcjs.
  { unfold StyleImports.updateCjsStyleRequires.
    assert (∀ l styleRequires,
              (∀ cmp style, cmp ∈ l → style ∈ styles cmp →
                            styleIdentifier style = None) →
              foldl (λ styleRequires cmp,
                       foldl (linkCjsStyle cmp) styleRequires (styles cmp))
                    styleRequires l = styleRequires) as Hfold.
    { induction l as [|cmp rest IH]; intros styleRequires Hl; [done|].
      simpl. rewrite linkCjsStyle_no_identifier.
      - apply IH. intros cmp' style Hcmp. apply Hl. by right.
      - intros style Hstyle. apply (Hl cmp); [by left|done]. }
    by rewrite Hfold. }
  split; [done|]. split; [done|].
  unfold StyleImports.updateStyleImports. by destruct (module' transformOpts).
Qed.

(** C10. In the static-import convention, when the module has no import
    declaration, the created style imports are inserted at position 0,
    before all the original statements, which are left as they are, and
    they appear in the order in which the components and their styles are
    iterated; when no style carries a bound identifier there is no new
    import and the source file is returned as it is. *)
Theorem updateEsmStyleImports_no_import moduleFile :
  module' transformOpts = esm →
  Forall (λ n, isImportDeclaration n = false) (statements tsSourceFile) →
  let created :=
    cmp ← cmps moduleFile;
    style ← styles cmp;
    match styleIdentifier style, externalStyles style with
    | Some identifier, first :: _ =>
        [createEsmStyleImport cmp style identifier first]
    | _, _ => []
    end in
  ((∃ cmp style, cmp ∈ cmps moduleFile ∧ style ∈ styles cmp ∧
                 is_Some (styleIdentifier style)) →
   updateStyleImports serializeImportPath updateSourceFile transformOpts
     tsSourceFile moduleFile =
   updateSourceFile tsSourceFile (created ++ statements tsSourceFile)) ∧
  ((∀ cmp style, cmp ∈ cmps moduleFile → style ∈ styles cmp →
                 styleIdentifier style = None) →
   created = [] ∧
   updateStyleImports serializeImportPath updateSourceFile transformOpts
     tsSourceFile moduleFile = tsSourceFile).
Proof.
  intros Hesm Hnone created.
  destruct (link_cmps_spec (cmps moduleFile)
              (mkEsmState [] (statements tsSourceFile) false))
    as (Himp & _ & Hflag & Hsame).
  simpl in Himp, Hflag, Hsame. specialize (Hsame Hnone).
  change (cmp ← cmps moduleFile; style ← styles cmp; createdFor cmp style)
    with created in Himp.
  unfold StyleImports.updateStyleImports. rewrite Hesm.
  unfold StyleImports.updateEsmStyleImports.
  change (foldl _ _ (cmps moduleFile))
    with (linkCmps (cmps moduleFile)
            (mkEsmState [] (statements tsSourceFile) false)).
  cbv zeta. rewrite Hflag, Himp, Hsame. split.
  - intros Hsome. apply some_style_carries_identifier in Hsome.
    rewrite Hsome. rewrite lastImportIndexFrom_none by done.
    unfold splice. simpl. by rewrite ?take_0, ?drop_0.
  - intros Hno. rewrite (no_style_carries_identifier _ Hno). split; [|done].
    subst created. clear -Hno.
    induction (cmps moduleFile) as [|cmp rest IH]; [done|].
    rewrite bind_cons, IH, app_nil_r.
    2:{ intros cmp' style Hcmp. apply Hno. by right. }
    assert (∀ style, style ∈ styles cmp → styleIdentifier style = None) as Hcmp.
    { intros style. apply Hno. by left. }
    induction (styles cmp) as [|style styles' IHs]; [done|].
    rewrite bind_cons, IHs, app_nil_r.
    2:{ intros style' Hin. apply Hcmp. by right. }
    by rewrite (Hcmp style) by (by left).
Qed.

End LinkerTheorems.



Lemma updateStyleImports_unchanged_witness :
  (∀ cmp style,
     cmp ∈ cmps (mkModule [Demo.demoCmp [Demo.demoInlineStyle]]) →
     style ∈ styles cmp → styleIdentifier style = None) ∧
  updateStyleImports Demo.demoSerializeImportPath Demo.demoUpdateSourceFile
    Demo.demoEsm Demo.demoSourceFile
    (mkModule [Demo.demoCmp [Demo.demoInlineStyle]]) = Demo.demoSourceFile ∧
  updateStyleImports Demo.demoSerializeImportPath Demo.demoUpdateSourceFile
    Demo.demoCjs Demo.demoSourceFile
    (mkModule [Demo.demoCmp [Demo.demoInlineStyle]]) = Demo.demoSourceFile.
Proof.
  assert (∀ cmp style,
            cmp ∈ cmps (mkModule [Demo.demoCmp [Demo.demoInlineStyle]]) →
            style ∈ styles cmp → styleIdentifier style = None) as Hnone.
  { intros cmp style Hcmp Hstyle. simpl in Hcmp.
    apply list_elem_of_singleton in Hcmp. subst cmp. simpl in Hstyle.
    apply list_elem_of_singleton in Hstyle. by subst style. }
  split; [exact Hnone|]. split.
  - exact (proj2 (proj2 (updateStyleImports_unchanged
                           Demo.demoSerializeImportPath
                           Demo.demoUpdateSourceFile Demo.demoEsm
                           Demo.demoSourceFile _ Hnone))).
  - exact (proj2 (proj2 (updateStyleImports_unchanged
                           Demo.demoSerializeImportPath
                           Demo.demoUpdateSourceFile Demo.demoCjs
                           Demo.demoSourceFile _ Hnone))).
Defined.

Lemma updateEsmStyleImports_no_import_witness :
  (module' Demo.demoEsm = esm ∧
   Forall (λ n, isImportDeclaration n = false)
     (statements Demo.demoSourceFileNoImport) ∧
   ∃ cmp style,
     cmp ∈ cmps (mkModule [Demo.demoCmp [Demo.demoStyle; Demo.demoStyleDark]]) ∧
     style ∈ styles cmp ∧ is_Some (styleIdentifier style)) ∧
  updateStyleImports Demo.demoSerializeImportPath Demo.demoUpdateSourceFile
    Demo.demoEsm Demo.demoSourceFileNoImport
    (mkModule [Demo.demoCmp [Demo.demoStyle; Demo.demoStyleDark]]) =
  Demo.demoUpdateSourceFile Demo.demoSourceFileNoImport
    [Demo.demoDefaultImport "cmpAStyle0" "/src/cmp-a.css?tag=cmp-a&mode=";
     Demo.demoDefaultImport "cmpAStyle1" "/src/cmp-a.dark.css?tag=cmp-a&mode=dark";
     OtherStatement "export class CmpA {}"].
Proof.
  assert (Forall (λ n, isImportDeclaration n = false)
            (statements Demo.demoSourceFileNoImport)) as Hnone.
  { repeat constructor. }
  assert (∃ cmp style,
            cmp ∈ cmps (mkModule
                          [Demo.demoCmp [Demo.demoStyle; Demo.demoStyleDark]]) ∧
            style ∈ styles cmp ∧ is_Some (styleIdentifier style)) as Hsome.
  { exists (Demo.demoCmp [Demo.demoStyle; Demo.demoStyleDark]), Demo.demoStyle.
    split; [apply list_elem_of_here|].
    split; [apply list_elem_of_here|]. by eexists. }
  split; [by repeat split|].
  exact (proj1 (updateEsmStyleImports_no_import Demo.demoSerializeImportPath
                  Demo.demoUpdateSourceFile Demo.demoEsm
                  Demo.demoSourceFileNoImport
                  (mkModule [Demo.demoCmp [Demo.demoStyle; Demo.demoStyleDark]])
                  eq_refl Hnone) Hsome).
Defined.

End LinkerTheorems.

(** ** The field rewriter *)

Module RewriterTheorems.
Import ConvertDecorators.

(** What the rewriter does with a class that has a constructor, and with
    one that has none. *)
Lemma rewriteConstructor_with_body (cls : ClassDeclaration)
    (user : list Statement) :
  constructorBody cls = Some user →
  rewriteConstructor cls =
    Some ((if extendsClass cls then [SuperCall] else []) ++
          initializations (fields cls) ++ user).
Proof. intros Hbody. unfold rewriteConstructor. by rewrite Hbody. Qed.

Lemma initializations_event (pre post : list AnnotatedField)
    (e : AnnotatedField) :
  kind e = EventField →
  initializations (pre ++ e :: post) = initializations (pre ++ post).
Proof.
  intros He. unfold initializations. rewrite !filter_app.
  rewrite filter_cons_False; [done|].
  unfold initializedInConstructor. by rewrite He.
Qed.

Lemma initializations_member (l : list AnnotatedField) (member value : string) :
  Assignment member value ∈ initializations l →
  ∃ f, f ∈ l ∧ kind f ≠ EventField ∧ name f = member.
Proof.
  unfold initializations. intros Hin.
  apply list_elem_of_fmap in Hin as (f & Heq & Hf).
  apply list_elem_of_filter in Hf as [Hinit Hf].
  exists f. split; [done|]. split.
  - intros Hk. unfold initializedInConstructor in Hinit. by rewrite Hk in Hinit.
  - unfold initialization in Heq. by injection Heq as -> _.
Qed.

(** C7, amended. For a class whose annotated fields are [a] then [b], both
    of kind Prop, State or Other, and whose constructor holds the one
    statement [S], the rewritten constructor is the assignment for [a], the
    assignment for [b], then [S], after a superclass call when the class
    extends another; and when [S] assigns a member, that member holds the
    user's value once the constructor has run. An Event field gets no
    assignment, in any class: taking an Event field out of the class leaves
    the rewritten constructor as it is; an assignment to the member of an
    Event field in the rewritten constructor, when no other annotated field
    has its name, is a statement of the user's constructor; and a class
    without constructor whose annotated fields are all Event fields gets no
    constructor. *)
Theorem rewriteConstructor_order :
  (∀ (cls : ClassDeclaration) (a b : AnnotatedField) (S : Statement),
     fields cls = [a; b] →
     kind a ≠ EventField → kind b ≠ EventField →
     constructorBody cls = Some [S] →
     rewriteConstructor cls =
       Some ((if extendsClass cls then [SuperCall] else []) ++
             [Assignment (name a) (default "undefined" (initialValue a));
              Assignment (name b) (default "undefined" (initialValue b));
              S]) ∧
     (∀ member value body this,
        S = Assignment member value →
        rewriteConstructor cls = Some body →
        run body this !! member = Some value)) ∧
  (∀ (cls : ClassDeclaration) (pre post : list AnnotatedField)
     (e : AnnotatedField),
     fields cls = pre ++ e :: post →
     kind e = EventField →
     rewriteConstructor cls =
     rewriteConstructor
       (mkClass (extendsClass cls) (parentCallFree cls) (pre ++ post)
          (constructorBody cls))) ∧
  (∀ (cls : ClassDeclaration) (e : AnnotatedField) (value : string)
     (body : list Statement),
     e ∈ fields cls →
     kind e = EventField →
     (∀ f, f ∈ fields cls → kind f ≠ EventField → name f ≠ name e) →
     rewriteConstructor cls = Some body →
     Assignment (name e) value ∈ body →
     ∃ user, constructorBody cls = Some user ∧
             Assignment (name e) value ∈ user) ∧
  (∀ cls : ClassDeclaration,
     Forall (λ f, kind f = EventField) (fields cls) →
     constructorBody cls = None →
     rewriteConstructor cls = None).
Proof.
  split; [|split; [|split]].
  - intros cls a b S Hfields Ha Hb Hbody.
    assert (rewriteConstructor cls =
            Some ((if extendsClass cls then [SuperCall] else []) ++
                  [initialization a; initialization b] ++ [S])) as Hrw.
    { unfold rewriteConstructor, initializations. rewrite Hbody, Hfields.
      assert (initializedInConstructor a = true) as Hia.
      { unfold initializedInConstructor. by destruct (kind a). }
      assert (initializedInConstructor b = true) as Hib.
      { unfold initializedInConstructor. by destruct (kind b). }
      rewrite filter_cons_True by done.
      rewrite filter_cons_True by done.
      by rewrite filter_nil. }
    split; [exact Hrw|].
    intros member value body this -> Hsome. rewrite Hrw in Hsome.
    injection Hsome as <-.
    destruct (extendsClass cls); simpl; apply lookup_insert_eq.
  - intros cls pre post e Hfields He.
    unfold rewriteConstructor. simpl.
    by rewrite Hfields, (initializations_event pre post e He).
  - intros cls e value body He Hk Hnames Hrw Hin.
    assert (Assignment (name e) value ∉ initializations (fields cls)) as Hnot.
    { intros Hinit.
      apply initializations_member in Hinit as (f & Hf & Hkf & Hname).
      by apply (Hnames f Hf Hkf). }
    assert (∀ flag : bool,
              Assignment (name e) value ∉ (if flag then [SuperCall] else []))
      as Hsuper.
    { intros [|] Hs; [|by apply elem_of_nil in Hs].
      by apply list_elem_of_singleton in Hs. }
    destruct (constructorBody cls) as [user|] eqn:Hbody.
    + exists user. split; [done|].
      rewrite (rewriteConstructor_with_body cls user Hbody) in Hrw.
      injection Hrw as <-.
      apply elem_of_app in Hin as [Hin|Hin]; [by apply Hsuper in Hin|].
      by apply elem_of_app in Hin as [Hin|Hin].
    + exfalso. unfold rewriteConstructor in Hrw. rewrite Hbody in Hrw.
      destruct (initializations (fields cls)) as [|s rest] eqn:Hinit; [done|].
      injection Hrw as <-.
      apply elem_of_app in Hin as [Hin|Hin]; [by apply Hsuper in Hin|done].
  - intros cls Hall Hbody. unfold rewriteConstructor. rewrite Hbody.
    assert (initializations (fields cls) = []) as ->; [|done].
    unfold initializations.
    induction Hall as [|f rest Hf Hrest IH]; [done|].
    rewrite filter_cons_False; [exact IH|].
    unfold initializedInConstructor. by rewrite Hf.
Qed.

Lemma rewriteConstructor_order_witness :
  ((fields (mkClass true false [Demo.demoCount; Demo.demoLabel]
              (Some [Assignment "count" "3"]))
    = [Demo.demoCount; Demo.demoLabel] ∧
    kind Demo.demoCount ≠ EventField ∧ kind Demo.demoLabel ≠ EventField ∧
    constructorBody (mkClass true false [Demo.demoCount; Demo.demoLabel]
                       (Some [Assignment "count" "3"]))
    = Some [Assignment "count" "3"]) ∧
   rewriteConstructor (mkClass true false [Demo.demoCount; Demo.demoLabel]
                         (Some [Assignment "count" "3"]))
   = Some [SuperCall; Assignment "count" "undefined"; Assignment "label" "'x'";
           Assignment "count" "3"]) ∧
  ((fields (mkClass false false [Demo.demoCount; Demo.demoEvent; Demo.demoLabel]
              (Some [OtherStatement "console.log('boop')"]))
    = [Demo.demoCount] ++ Demo.demoEvent :: [Demo.demoLabel] ∧
    kind Demo.demoEvent = EventField) ∧
   rewriteConstructor
     (mkClass false false [Demo.demoCount; Demo.demoEvent; Demo.demoLabel]
        (Some [OtherStatement "console.log('boop')"]))
   = rewriteConstructor
       (mkClass false false ([Demo.demoCount] ++ [Demo.demoLabel])
          (Some [OtherStatement "console.log('boop')"]))) ∧
  ((Forall (λ f, kind f = EventField)
      (fields (mkClass false false [Demo.demoEvent] None)) ∧
    constructorBody (mkClass false false [Demo.demoEvent] None) = None) ∧
   rewriteConstructor (mkClass false false [Demo.demoEvent] None) = None).
Proof.
  assert (kind Demo.demoCount ≠ EventField) as Ha by discriminate.
  assert (kind Demo.demoLabel ≠ EventField) as Hb by discriminate.
  assert (Forall (λ f, kind f = EventField)
            (fields (mkClass false false [Demo.demoEvent] None))) as Hall
    by (by repeat constructor).
  destruct rewriteConstructor_order as (Horder & Hout & _ & Hnone).
  split; [|split].
  - split; [by repeat split|].
    exact (proj1 (Horder
                    (mkClass true false [Demo.demoCount; Demo.demoLabel]
                       (Some [Assignment "count" "3"]))
                    Demo.demoCount Demo.demoLabel (Assignment "count" "3")
                    eq_refl Ha Hb eq_refl)).
  - split; [by split|].
    exact (Hout (mkClass false false
                   [Demo.demoCount; Demo.demoEvent; Demo.demoLabel]
                   (Some [OtherStatement "console.log('boop')"]))
             [Demo.demoCount] [Demo.demoLabel] Demo.demoEvent eq_refl eq_refl).
  - split; [by split|].
    exact (Hnone (mkClass false false [Demo.demoEvent] None) Hall eq_refl).
Defined.

(** C7 as stated fails: an Event field is an annotated field, and no
    assignment is made for it. *)
Lemma rewriteConstructor_skips_event_fields :
  ¬ (∀ (cls : ClassDeclaration) (a b : AnnotatedField) (S : Statement),
       fields cls = [a; b] →
       constructorBody cls = Some [S] →
       rewriteConstructor cls =
         Some ((if extendsClass cls then [SuperCall] else []) ++
               [Assignment (name a) (default "undefined" (initialValue a));
                Assignment (name b) (default "undefined" (initialValue b));
                S])).
Proof.
  intros Hclaim.
  pose proof (Hclaim (mkClass false false [Demo.demoEvent; Demo.demoCount]
                        (Some [OtherStatement "console.log('boop')"]))
                Demo.demoEvent Demo.demoCount
                (OtherStatement "console.log('boop')") eq_refl eq_refl)
    as Hrw.
  vm_compute in Hrw. discriminate Hrw.
Qed.

End RewriterTheorems.


(** ** More on the walk: what is visited, what is read, monotonicity *)

Module WalkProperties.
Import GlobalStyles WalkFacts.

Section WalkProperties.
Variable getCssImports : string → string → list string.
Variable fs : gmap string string.
Variable filesChanged : list string.
Variable root rootContent : string.

Local Abbreviation keepDigging := (keepDigging fs).
Local Abbreviation hasChangedImportContent :=
  (hasChangedImportContent getCssImports fs filesChanged).
Local Abbreviation hasChangedImportFile :=
  (hasChangedImportFile getCssImports fs filesChanged).
Local Abbreviation contentOf := (contentOf fs root rootContent).
Local Abbreviation reach := (reach getCssImports fs root rootContent).
Local Abbreviation visitsWithinReach :=
  (visitsWithinReach getCssImports fs root rootContent).
Local Abbreviation readsUnchanged := (readsUnchanged filesChanged).

Implicit Types (w : Walk) (rec : string → string → Walk → option (bool * Walk)).

Lemma isChangedImport_false cssImports :
  isChangedImport filesChanged cssImports = false →
  ∀ q, q ∈ cssImports → q ∉ filesChanged.
Proof.
  intros Hno q Hq Hch.
  assert (isChangedImport filesChanged cssImports = true) as Hyes.
  { apply isChangedImport_true. eauto. }
  congruence.
Qed.

(** *** Only files within reach are visited *)

Lemma keepDigging_within_reach rec :
  (∀ p c w r w', fs !! p = Some c → reach p → visitsWithinReach w →
     rec p c w = Some (r, w') → visitsWithinReach w') →
  ∀ cssImports w results w',
    (∀ q, q ∈ cssImports → is_Some (fs !! q) → reach q) →
    visitsWithinReach w →
    keepDigging rec cssImports w = Some (results, w') →
    visitsWithinReach w'.
Proof.
  intros Hrec. induction cssImports as [|p rest IH];
    intros w results w' Hreach Hw Hk.
  - simpl in Hk. by simplify_eq.
  - simpl in Hk. destruct (fs !! p) as [c|] eqn:Hp.
    + destruct (rec p c (logRead p w)) as [[r w2]|] eqn:Hr; [|done].
      simpl in Hk.
      destruct (keepDigging rec rest w2) as [[rs w3]|] eqn:Hrest; [|done].
      simpl in Hk. simplify_eq.
      apply (IH w2 rs w'); [|  |done].
      * intros q Hq. apply Hreach. by right.
      * apply (Hrec p c (logRead p w) r w2); auto.
        apply Hreach; [by left|by eexists].
    + destruct (keepDigging rec rest (logRead p w)) as [[rs w3]|] eqn:Hrest;
        [|done].
      simpl in Hk. simplify_eq.
      apply (IH (logRead p w) rs w'); [|done|done].
      intros q Hq. apply Hreach. by right.
Qed.

Lemma hasChangedImportContent_within_reach rec p c w r w' :
  (∀ p c w r w', fs !! p = Some c → reach p → visitsWithinReach w →
     rec p c w = Some (r, w') → visitsWithinReach w') →
  contentOf p = Some c → reach p → visitsWithinReach w →
  hasChangedImportContent rec p c w = Some (r, w') →
  visitsWithinReach w'.
Proof.
  intros Hrec Hc Hp Hw Hwalk.
  unfold GlobalStyles.hasChangedImportContent in Hwalk.
  case_bool_decide; [by simplify_eq|].
  destruct (isChangedImport _ _); [by simplify_eq|].
  destruct (keepDigging _ _ _) as [[rs w2]|] eqn:Hk; [|done].
  simpl in Hwalk. simplify_eq.
  eapply (keepDigging_within_reach rec Hrec); [|exact Hw|exact Hk].
  intros q Hq Hread. by eapply reach_import.
Qed.

Lemma visitsWithinReach_push p w :
  reach p → visitsWithinReach w → visitsWithinReach (pushNoLoop p w).
Proof.
  intros Hp [Hroot Hall]. split; unfold pushNoLoop, push; simpl.
  - set_solver.
  - apply Forall_app. split; [done|]. by constructor.
Qed.

Lemma hasChangedImportFile_within_reach fuel :
  ∀ p c w r w', fs !! p = Some c → reach p → visitsWithinReach w →
    hasChangedImportFile fuel p c w = Some (r, w') → visitsWithinReach w'.
Proof.
  induction fuel as [|fuel IH]; intros p c w r w' Hp Hreach Hw Hwalk; [done|].
  simpl in Hwalk. destruct (includes (noLoop w) p) eqn:Hin; [by simplify_eq|].
  apply includes_false in Hin.
  assert (p ≠ root) as Hne by (intros ->; by destruct Hw).
  eapply (hasChangedImportContent_within_reach _ p c (pushNoLoop p w) r w' IH);
    [|done| |exact Hwalk].
  - unfold GlobalStyles.contentOf. by rewrite decide_False.
  - by apply visitsWithinReach_push.
Qed.

(** *** Only files that did not change are read *)

Lemma readsUnchanged_refl w : readsUnchanged w w.
Proof. exists []. by rewrite app_nil_r. Qed.

Lemma readsUnchanged_trans w1 w2 w3 :
  readsUnchanged w1 w2 → readsUnchanged w2 w3 → readsUnchanged w1 w3.
Proof.
  intros (e1 & H1 & Hall1) (e2 & H2 & Hall2). exists (e1 ++ e2). split.
  - by rewrite H2, H1, <- app_assoc.
  - by apply Forall_app.
Qed.

Lemma keepDigging_reads_unchanged rec :
  (∀ p c w r w', rec p c w = Some (r, w') → readsUnchanged w w') →
  ∀ cssImports w results w',
    (∀ q, q ∈ cssImports → q ∉ filesChanged) →
    keepDigging rec cssImports w = Some (results, w') →
    readsUnchanged w w'.
Proof.
  intros Hrec. induction cssImports as [|p rest IH];
    intros w results w' Hno Hk.
  - simpl in Hk. simplify_eq. apply readsUnchanged_refl.
  - assert (readsUnchanged w (logRead p w)) as Hread.
    { exists [p]. split; [done|]. constructor; [|done]. apply Hno. by left. }
    assert (∀ q, q ∈ rest → q ∉ filesChanged) as Hrestno.
    { intros q Hq. apply Hno. by right. }
    simpl in Hk. destruct (fs !! p) as [c|] eqn:Hp.
    + destruct (rec p c (logRead p w)) as [[r w2]|] eqn:Hr; [|done].
      simpl in Hk.
      destruct (keepDigging rec rest w2) as [[rs w3]|] eqn:Hrest; [|done].
      simpl in Hk. simplify_eq.
      eapply readsUnchanged_trans; [exact Hread|].
      eapply readsUnchanged_trans; [eapply Hrec, Hr|]. by eapply IH.
    + destruct (keepDigging rec rest (logRead p w)) as [[rs w3]|] eqn:Hrest;
        [|done].
      simpl in Hk. simplify_eq.
      eapply readsUnchanged_trans; [exact Hread|]. by eapply IH.
Qed.

Lemma hasChangedImportFile_reads_unchanged fuel :
  ∀ p c w r w', hasChangedImportFile fuel p c w = Some (r, w') →
    readsUnchanged w w'.
Proof.
  induction fuel as [|fuel IH]; intros p c w r w' Hwalk; [done|].
  simpl in Hwalk. destruct (includes (noLoop w) p).
  { simplify_eq. apply readsUnchanged_refl. }
  assert (readsUnchanged w (pushNoLoop p w)) as Hpush.
  { exists []. by rewrite app_nil_r. }
  eapply readsUnchanged_trans; [exact Hpush|].
  unfold GlobalStyles.hasChangedImportContent in Hwalk.
  case_bool_decide; [simplify_eq; apply readsUnchanged_refl|].
  destruct (isChangedImport _ _) eqn:Hch;
    [simplify_eq; apply readsUnchanged_refl|].
  destruct (keepDigging _ _ _) as [[rs w2]|] eqn:Hk; [|done].
  simpl in Hwalk. simplify_eq.
  apply (keepDigging_reads_unchanged _ IH (getCssImports p c)
           (pushNoLoop p w) rs w'); [|exact Hk].
  by apply isChangedImport_false.
Qed.

(** X1. The walk visits only the entry file and files within its reach, and it
    reads only files that are not in [filesChanged]: a changed import ends
    the walk of its importer before anything is read. *)
Theorem walk_stays_within_reach fuel reads r w' :
  hasChangedImportFile fuel root rootContent (mkWalk [] reads) = Some (r, w') →
  Forall reach (noLoop w') ∧
  ∃ extra, fsReads w' = reads ++ extra ∧
           Forall (λ p, p ∉ filesChanged) extra.
Proof.
  intros Hwalk. split.
  - destruct fuel as [|fuel]; [done|]. simpl in Hwalk.
    eapply (hasChangedImportContent_within_reach _ root rootContent
              (pushNoLoop root (mkWalk [] reads)) r w'
              (hasChangedImportFile_within_reach fuel)); [| | |exact Hwalk].
    + unfold GlobalStyles.contentOf. by rewrite decide_True.
    + apply reach_root.
    + split; unfold pushNoLoop, push; simpl; [set_solver|].
      repeat constructor.
  - apply (hasChangedImportFile_reads_unchanged _ _ _ _ _ _ Hwalk).
Qed.

(** X2. With enough fuel the verdict is "changed" exactly when some file within
    reach of the entry file imports a file of [filesChanged]. *)
Theorem walk_verdict_is_reachability fuel reads :
  size fs + 2 ≤ fuel →
  ∃ r w',
    hasChangedImportFile fuel root rootContent (mkWalk [] reads) = Some (r, w') ∧
    (r = true ↔
     changeInReach getCssImports fs filesChanged root rootContent).
Proof. apply hasChangedImportFile_verdict. Qed.

End WalkProperties.

Lemma reach_mono (getCssImports getCssImports' : string → string → list string)
    (fs : gmap string string) (root rootContent g : string) :
  (∀ p c q, q ∈ getCssImports p c → q ∈ getCssImports' p c) →
  reach getCssImports fs root rootContent g →
  reach getCssImports' fs root rootContent g.
Proof.
  intros Hsub. induction 1 as [|g c q Hg IH Hc Hq Hread].
  - apply reach_root.
  - eapply reach_import; eauto.
Qed.

(** X3. More imports and more changed files can only turn the verdict from
    "unchanged" to "changed": the verdict is monotone in the import lists
    and in [filesChanged], both taken as sets. In particular it does not
    depend on the order or on repetitions in either. *)
Theorem walk_verdict_monotone
    (getCssImports getCssImports' : string → string → list string)
    (fs : gmap string string) (filesChanged filesChanged' : list string)
    (root rootContent : string) (fuel : nat) (reads reads' : list string) :
  size fs + 2 ≤ fuel →
  (∀ p c q, q ∈ getCssImports p c → q ∈ getCssImports' p c) →
  (∀ q, q ∈ filesChanged → q ∈ filesChanged') →
  (∃ w, hasChangedImportFile getCssImports fs filesChanged fuel root
          rootContent (mkWalk [] reads) = Some (true, w)) →
  ∃ w', hasChangedImportFile getCssImports' fs filesChanged' fuel root
          rootContent (mkWalk [] reads') = Some (true, w').
Proof.
  intros Hfuel Himports Hchanged [w Hw].
  apply hasChangedImportFile_true_found in Hw
    as (g & c & q & Hg & Hc & Hq & Hch).
  eapply hasChangedImportFile_finds_change; [done| |exact Hc| |].
  - by eapply reach_mono.
  - by apply Himports.
  - by apply Hchanged.
Qed.

Lemma walk_stays_within_reach_witness :
  hasChangedImportFile Demo.demoCssImports Demo.demoFs ["unrelated.ts"] 7
    "a.css" "@import 'b.css';" (mkWalk [] [])
  = Some (false, mkWalk ["a.css"; "b.css"] ["b.css"; "a.css"]) ∧
  (Forall (reach Demo.demoCssImports Demo.demoFs "a.css" "@import 'b.css';")
     (noLoop (mkWalk ["a.css"; "b.css"] ["b.css"; "a.css"])) ∧
   ∃ extra,
     fsReads (mkWalk ["a.css"; "b.css"] ["b.css"; "a.css"]) = [] ++ extra ∧
     Forall (λ p, p ∉ ["unrelated.ts"]) extra).
Proof.
  assert (hasChangedImportFile Demo.demoCssImports Demo.demoFs ["unrelated.ts"]
            7 "a.css" "@import 'b.css';" (mkWalk [] [])
          = Some (false, mkWalk ["a.css"; "b.css"] ["b.css"; "a.css"])) as Hwalk
    by (vm_compute; reflexivity).
  split; [exact Hwalk|].
  exact (walk_stays_within_reach Demo.demoCssImports Demo.demoFs
           ["unrelated.ts"] "a.css" "@import 'b.css';" 7 [] false _ Hwalk).
Defined.

Lemma walk_verdict_is_reachability_witness :
  size Demo.demoFs + 2 ≤ 7 ∧
  ∃ r w',
    hasChangedImportFile Demo.demoCssImports Demo.demoFs ["leaf.css"] 7
      "main.css" "@import 'gone.css'; @import 'mid.css';" (mkWalk [] [])
    = Some (r, w') ∧
    (r = true ↔
     changeInReach Demo.demoCssImports Demo.demoFs ["leaf.css"] "main.css"
       "@import 'gone.css'; @import 'mid.css';").
Proof.
  assert (size Demo.demoFs + 2 ≤ 7) as Hfuel by (vm_compute; lia).
  split; [exact Hfuel|].
  exact (walk_verdict_is_reachability Demo.demoCssImports Demo.demoFs
           ["leaf.css"] "main.css" "@import 'gone.css'; @import 'mid.css';"
           7 [] Hfuel).
Defined.

Lemma walk_verdict_monotone_witness :
  (size Demo.demoFs + 2 ≤ 7 ∧
   (∀ p c q, q ∈ Demo.demoCssImports p c →
             q ∈ reverse (Demo.demoCssImports p c)) ∧
   (∀ q, q ∈ ["leaf.css"] → q ∈ ["unrelated.ts"; "leaf.css"]) ∧
   ∃ w, hasChangedImportFile Demo.demoCssImports Demo.demoFs ["leaf.css"] 7
          "main.css" "@import 'gone.css'; @import 'mid.css';" (mkWalk [] [])
        = Some (true, w)) ∧
  ∃ w', hasChangedImportFile (λ p c, reverse (Demo.demoCssImports p c))
          Demo.demoFs ["unrelated.ts"; "leaf.css"] 7
          "main.css" "@import 'gone.css'; @import 'mid.css';" (mkWalk [] [])
        = Some (true, w').
Proof.
  assert (size Demo.demoFs + 2 ≤ 7) as Hfuel by (vm_compute; lia).
  assert (∀ p c q, q ∈ Demo.demoCssImports p c →
                   q ∈ reverse (Demo.demoCssImports p c)) as Himports.
  { intros p c q Hq. by apply elem_of_reverse. }
  assert (∀ q, q ∈ ["leaf.css"] → q ∈ ["unrelated.ts"; "leaf.css"]) as Hchanged.
  { intros q Hq. by right. }
  assert (∃ w, hasChangedImportFile Demo.demoCssImports Demo.demoFs
                 ["leaf.css"] 7 "main.css"
                 "@import 'gone.css'; @import 'mid.css';" (mkWalk [] [])
               = Some (true, w)) as Hwalk.
  { eexists. vm_compute. reflexivity. }
  split; [by repeat split|].
  exact (walk_verdict_monotone Demo.demoCssImports
           (λ p c, reverse (Demo.demoCssImports p c)) Demo.demoFs
           ["leaf.css"] ["unrelated.ts"; "leaf.css"] "main.css"
           "@import 'gone.css'; @import 'mid.css';" 7 [] []
           Hfuel Himports Hchanged Hwalk).
Defined.

End WalkProperties.

(** ** More on the cache: dependencies, frame conditions, successive builds *)

Module BuildProperties.
Import GlobalStyles WalkFacts.

Lemma setFsReadLog_same (c : CompilerCtx) : setFsReadLog (fsReadLog c) c = c.
Proof. by destruct c. Qed.

(** The fold of [recordDependencies]: what it leaves in the pair. *)
Lemma recordDependencies_fold (deps : list string) :
  ∀ (l0 : list string) (ctx : CompilerCtx),
  ∃ l,
    foldl (λ (acc : list string * CompilerCtx) (dep : string),
             let '(imports, ctx) := acc in
             (if includes imports dep then imports else push imports dep,
              addWatchFile dep ctx))
          (l0, ctx) deps
    = (l, mkCompilerCtx (cachedGlobalStyle ctx) (cssModuleImports ctx) (fs ctx)
            (fsReadLog ctx) (list_to_set deps ∪ watchFiles ctx)) ∧
    l0 `prefix_of` l ∧
    (∀ d, d ∈ l ↔ d ∈ l0 ∨ d ∈ deps) ∧
    (NoDup l0 → NoDup l) ∧
    ((∀ d, d ∈ deps → d ∈ l0) → l = l0).
Proof.
  induction deps as [|dep rest IH]; intros l0 ctx.
  - exists l0. simpl. split.
    { f_equal. destruct ctx. simpl. f_equal. set_solver. }
    split; [done|]. split; [set_solver|]. done.
  - simpl.
    destruct (IH (if includes l0 dep then l0 else push l0 dep)
                (addWatchFile dep ctx)) as (l & Heq & Hpre & Hin & Hnd & Hsame).
    exists l. rewrite Heq. simpl. split.
    { f_equal. f_equal. set_solver. }
    destruct (includes l0 dep) eqn:Hdep.
    + apply includes_true in Hdep. split; [done|]. split.
      { intros d. rewrite Hin. set_solver. }
      split; [done|]. intros Hall. apply Hsame. intros d Hd. apply Hall.
      by right.
    + apply includes_false in Hdep. unfold push in *. split.
      { etrans; [|exact Hpre]. by apply prefix_app_r. }
      split.
      { intros d. rewrite Hin. set_solver. }
      split.
      { intros Hl0. apply Hnd. apply NoDup_app. split; [done|].
        split; [|apply NoDup_singleton].
        intros x Hx Hx'. apply list_elem_of_singleton in Hx'. by subst. }
      intros Hall. exfalso. apply Hdep. apply Hall. by left.
Qed.

Lemma recordDependencies_spec (path : string) (deps : list string)
    (ctx : CompilerCtx) :
  ∃ l,
    recordDependencies path deps ctx =
    mkCompilerCtx (cachedGlobalStyle ctx)
      (<[path := l]> (cssModuleImports ctx)) (fs ctx) (fsReadLog ctx)
      (list_to_set deps ∪ watchFiles ctx) ∧
    default [] (cssModuleImports ctx !! path) `prefix_of` l ∧
    (∀ d, d ∈ l ↔ d ∈ default [] (cssModuleImports ctx !! path) ∨ d ∈ deps) ∧
    (NoDup (default [] (cssModuleImports ctx !! path)) → NoDup l) ∧
    ((∀ d, d ∈ deps → d ∈ default [] (cssModuleImports ctx !! path)) →
     l = default [] (cssModuleImports ctx !! path)).
Proof.
  destruct (recordDependencies_fold deps
              (default [] (cssModuleImports ctx !! path)) ctx)
    as (l & Heq & Hrest).
  exists l. split; [|exact Hrest].
  unfold recordDependencies. rewrite Heq. done.
Qed.

(** X4. When the transform chain reports dependencies, the entry recorded for
    the global style keeps what it held, in order, and is extended by the
    dependencies that are new, each once: afterwards it holds exactly the
    old entries and the dependencies, without repetition if it had none.
    Every dependency is registered for watching, and the entries of other
    files, the cached style and the file system are left alone. *)
Theorem recordDependencies_merges (path : string) (deps : list string)
    (ctx : CompilerCtx) :
  let old := default [] (cssModuleImports ctx !! path) in
  let ctx' := recordDependencies path deps ctx in
  ∃ l,
    cssModuleImports ctx' !! path = Some l ∧
    old `prefix_of` l ∧
    (∀ d, d ∈ l ↔ d ∈ old ∨ d ∈ deps) ∧
    (NoDup old → NoDup l) ∧
    (∀ other, other ≠ path →
       cssModuleImports ctx' !! other = cssModuleImports ctx !! other) ∧
    (∀ d, d ∈ watchFiles ctx' ↔ d ∈ deps ∨ d ∈ watchFiles ctx) ∧
    cachedGlobalStyle ctx' = cachedGlobalStyle ctx ∧
    fs ctx' = fs ctx.
Proof.
  intros old ctx'. subst old ctx'.
  destruct (recordDependencies_spec path deps ctx)
    as (l & -> & Hpre & Hin & Hnd & _).
  exists l. simpl. split; [apply lookup_insert_eq|].
  split; [done|]. split; [done|]. split; [done|]. split.
  { intros other Hne. by apply lookup_insert_ne. }
  split; [|done]. intros d. rewrite elem_of_union, elem_of_list_to_set. done.
Qed.

(** X5. Recording the same dependencies a second time changes nothing. *)
Theorem recordDependencies_idempotent (path : string) (deps : list string)
    (ctx : CompilerCtx) :
  recordDependencies path deps (recordDependencies path deps ctx) =
  recordDependencies path deps ctx.
Proof.
  destruct (recordDependencies_spec path deps ctx)
    as (l & Heq & _ & Hin & _ & _).
  rewrite Heq.
  destruct (recordDependencies_spec path deps
              (mkCompilerCtx (cachedGlobalStyle ctx)
                 (<[path := l]> (cssModuleImports ctx)) (fs ctx)
                 (fsReadLog ctx) (list_to_set deps ∪ watchFiles ctx)))
    as (l' & Heq' & _ & _ & _ & Hsame).
  rewrite Heq'. simpl in *. rewrite lookup_insert_eq in Hsame. simpl in Hsame.
  rewrite Hsame by (intros d Hd; apply Hin; by right).
  f_equal.
  - apply insert_insert_eq.
  - set_solver.
Qed.

Section BuildProperties.
Variable getCssImports : string → string → list string.
Variable normalizePath : string → string.
Variable runPluginTransforms :
  CompilerCtx → BuildCtx → string → Completion TransformResults.
Variable optimizeCss :
  CompilerCtx → list Diagnostic → string → string → Completion string.

Local Abbreviation canSkipGlobalStyles := (canSkipGlobalStyles getCssImports).
Local Abbreviation rebuildGlobalStyles :=
  (rebuildGlobalStyles normalizePath runPluginTransforms optimizeCss).
Local Abbreviation buildGlobalStyles :=
  (buildGlobalStyles getCssImports normalizePath runPluginTransforms optimizeCss).

(** The skip decision leaves the context alone but for the read log, which
    only grows. *)
Lemma canSkipGlobalStyles_frame fuel g ctx bctx r ctx1 :
  canSkipGlobalStyles fuel g ctx bctx = Some (r, ctx1) →
  ∃ log, ctx1 = setFsReadLog log ctx ∧ fsReadLog ctx `prefix_of` log.
Proof.
  unfold GlobalStyles.canSkipGlobalStyles. intros Hskip.
  assert (∀ r', Some (r', ctx) = Some (r, ctx1) →
            ∃ log, ctx1 = setFsReadLog log ctx ∧ fsReadLog ctx `prefix_of` log)
    as Hsame.
  { intros r' [= _ <-]. exists (fsReadLog ctx).
    by rewrite setFsReadLog_same. }
  destruct (cachedGlobalStyle ctx) as [cached|]; [|by eapply Hsame].
  case_bool_decide; [by eapply Hsame|].
  destruct (requiresFullBuild bctx); [by eapply Hsame|].
  destruct (isRebuild bctx && negb (hasStyleChanges bctx));
    [by eapply Hsame|].
  destruct (includes (filesChanged bctx) g); [by eapply Hsame|].
  destruct (match cssModuleImports ctx !! g with
            | Some imports => some (λ f, includes imports f) (filesChanged bctx)
            | None => false
            end); [by eapply Hsame|].
  destruct (GlobalStyles.hasChangedImportFile _ _ _ _ _ _ _)
    as [[changed w]|] eqn:Hwalk; [|done].
  simpl in Hskip.
  apply WalkProperties.hasChangedImportFile_reads_unchanged in Hwalk
    as (extra & Hreads & _).
  simpl in Hreads. exists (fsReads w). split.
  - by destruct changed; simplify_eq.
  - rewrite Hreads. by apply prefix_app_r.
Qed.

(** The outcomes of the [try] block: a reset, or a result that is cached. *)
Lemma rebuildGlobalStyles_cases g ctx bctx :
  let path := normalizePath g in
  let ctx2 := addWatchFile path ctx in
  ∃ ds,
    rebuildGlobalStyles g ctx bctx =
      (None, setCachedGlobalStyle None ctx2,
       setDiagnostics (diagnostics bctx ++ ds) bctx) ∨
    ∃ s deps,
      rebuildGlobalStyles g ctx bctx =
        (Some s,
         match deps with
         | Some deps =>
             recordDependencies path deps (setCachedGlobalStyle (Some s) ctx2)
         | None => setCachedGlobalStyle (Some s) ctx2
         end,
         setDiagnostics (diagnostics bctx ++ ds) bctx).
Proof.
  intros path ctx2. unfold GlobalStyles.rebuildGlobalStyles.
  fold path. fold ctx2.
  destruct (runPluginTransforms ctx2 bctx path) as [reported tr|reported err].
  2:{ exists (reported ++ [mkDiagnostic err (Some path)]). left.
      rewrite CacheTheorems.catchBlock_spec. simpl. by rewrite <- app_assoc. }
  assert (∃ ds,
            resetGlobalStyle ctx2 (report reported bctx) =
              (None, setCachedGlobalStyle None ctx2,
               setDiagnostics (diagnostics bctx ++ ds) bctx) ∨
            ∃ s deps,
              resetGlobalStyle ctx2 (report reported bctx) =
                (Some s,
                 match deps with
                 | Some deps =>
                     recordDependencies path deps
                       (setCachedGlobalStyle (Some s) ctx2)
                 | None => setCachedGlobalStyle (Some s) ctx2
                 end,
                 setDiagnostics (diagnostics bctx ++ ds) bctx)) as Hreset.
  { exists reported. by left. }
  destruct tr as [|cssCode|code deps]; simpl.
  - exact Hreset.
  - case_bool_decide; [exact Hreset|].
    destruct (optimizeCss _ _ _ _) as [reported' s|reported' err].
    + exists (reported ++ reported'). right. exists s, None.
      unfold report, setDiagnostics. simpl. by rewrite <- app_assoc.
    + exists (reported ++ reported' ++ [mkDiagnostic err (Some path)]). left.
      rewrite CacheTheorems.catchBlock_spec.
      unfold report, setDiagnostics. simpl. by rewrite <- !app_assoc.
  - destruct (truthy code); [|exact Hreset].
    destruct (optimizeCss _ _ _ _) as [reported' s|reported' err].
    + exists (reported ++ reported'). right. exists s, deps.
      unfold report, setDiagnostics. simpl. by rewrite <- app_assoc.
    + exists (reported ++ reported' ++ [mkDiagnostic err (Some path)]). left.
      rewrite CacheTheorems.catchBlock_spec.
      unfold report, setDiagnostics. simpl. by rewrite <- !app_assoc.
Qed.

(** Everything a stale recomputation does to the two contexts. *)
Lemma rebuildGlobalStyles_frame g ctx bctx out ctx' bctx' :
  rebuildGlobalStyles g ctx bctx = (out, ctx', bctx') →
  cachedGlobalStyle ctx' = out ∧
  fs ctx' = fs ctx ∧
  fsReadLog ctx' = fsReadLog ctx ∧
  normalizePath g ∈ watchFiles ctx' ∧
  watchFiles ctx ⊆ watchFiles ctx' ∧
  (∃ ds, bctx' = setDiagnostics (diagnostics bctx ++ ds) bctx) ∧
  (∀ k, k ≠ normalizePath g →
     cssModuleImports ctx' !! k = cssModuleImports ctx !! k) ∧
  (∀ l, cssModuleImports ctx !! normalizePath g = Some l →
     ∃ l', cssModuleImports ctx' !! normalizePath g = Some l' ∧
           l `prefix_of` l').
Proof.
  intros Hre.
  destruct (rebuildGlobalStyles_cases g ctx bctx)
    as (ds & [Hreset|(s & deps & Hok)]).
  - rewrite Hreset in Hre. simplify_eq. simpl.
    repeat split; try done; try set_solver; eauto.
  - rewrite Hok in Hre. simplify_eq. destruct deps as [deps|].
    + destruct (recordDependencies_spec (normalizePath g) deps
                  (setCachedGlobalStyle (Some s)
                     (addWatchFile (normalizePath g) ctx)))
        as (l & -> & Hpre & _).
      simpl in *. repeat split; try done; try set_solver; eauto.
      * intros k Hk. by apply lookup_insert_ne.
      * intros l0 Hl0. rewrite Hl0 in Hpre. simpl in Hpre.
        exists l. by rewrite lookup_insert_eq.
    + simpl. repeat split; try done; try set_solver; eauto.
Qed.

Lemma buildGlobalStyles_cases fuel config g ctx bctx out ctx' bctx' :
  globalStyle config = Some g → g ≠ "" →
  buildGlobalStyles fuel config ctx bctx = Some (out, ctx', bctx') →
  ∃ r ctx1,
    canSkipGlobalStyles fuel g ctx bctx = Some (r, ctx1) ∧
    ((r = true ∧ out = cachedGlobalStyle ctx1 ∧ ctx' = ctx1 ∧ bctx' = bctx) ∨
     (r = false ∧ rebuildGlobalStyles g ctx1 bctx = (out, ctx', bctx'))).
Proof.
  intros Hg Hne Hbuild.
  rewrite (CacheTheorems.buildGlobalStyles_configured _ _ _ _ _ _ g) in Hbuild
    by done.
  destruct (canSkipGlobalStyles fuel g ctx bctx) as [[r ctx1]|]; [|done].
  simpl in Hbuild. exists r, ctx1. split; [done|].
  destruct r; simplify_eq; [left|right]; done.
Qed.

Lemma buildGlobalStyles_not_configured fuel config ctx bctx :
  truthy (globalStyle config) = false →
  buildGlobalStyles fuel config ctx bctx = Some (None, ctx, bctx).
Proof. intros Hno. unfold GlobalStyles.buildGlobalStyles. by rewrite Hno. Qed.

Lemma globalStyle_truthy_cases config :
  truthy (globalStyle config) = false ∨
  ∃ g, globalStyle config = Some g ∧ g ≠ "".
Proof.
  destruct (truthy (globalStyle config)) eqn:Ht; [right|by left].
  by apply truthy_spec in Ht.
Qed.

(** X6. With a global style configured, what [buildGlobalStyles] returns is
    always what the cache holds afterwards: the reused text, the freshly
    optimized text, or [null] after a reset. *)
Theorem buildGlobalStyles_returns_cache
    fuel config g ctx bctx out ctx' bctx' :
  globalStyle config = Some g → g ≠ "" →
  buildGlobalStyles fuel config ctx bctx = Some (out, ctx', bctx') →
  cachedGlobalStyle ctx' = out.
Proof.
  intros Hg Hne Hbuild.
  destruct (buildGlobalStyles_cases _ _ _ _ _ _ _ _ Hg Hne Hbuild)
    as (r & ctx1 & Hskip & [(-> & -> & -> & ->)|(-> & Hre)]); [done|].
  by apply rebuildGlobalStyles_frame in Hre as (Hc & _).
Qed.

(** X7. Whatever happens, [buildGlobalStyles] does not write to the file
    system and leaves the build's flags and [filesChanged] alone; watched
    files are only added; the read log and the diagnostics only grow at
    the end. *)
Theorem buildGlobalStyles_frame fuel config ctx bctx out ctx' bctx' :
  buildGlobalStyles fuel config ctx bctx = Some (out, ctx', bctx') →
  fs ctx' = fs ctx ∧
  watchFiles ctx ⊆ watchFiles ctx' ∧
  fsReadLog ctx `prefix_of` fsReadLog ctx' ∧
  diagnostics bctx `prefix_of` diagnostics bctx' ∧
  filesChanged bctx' = filesChanged bctx ∧
  isRebuild bctx' = isRebuild bctx ∧
  requiresFullBuild bctx' = requiresFullBuild bctx ∧
  hasStyleChanges bctx' = hasStyleChanges bctx.
Proof.
  intros Hbuild.
  destruct (globalStyle_truthy_cases config) as [Hno|(g & Hg & Hne)].
  { rewrite buildGlobalStyles_not_configured in Hbuild by done.
    simplify_eq. done. }
  destruct (buildGlobalStyles_cases _ _ _ _ _ _ _ _ Hg Hne Hbuild)
    as (r & ctx1 & Hskip & Hcases).
  apply canSkipGlobalStyles_frame in Hskip as (log & -> & Hlog).
  destruct Hcases as [(-> & -> & -> & ->)|(-> & Hre)]; [done|].
  apply rebuildGlobalStyles_frame
    in Hre as (_ & Hfs & Hreads & _ & Hwatch & (ds & ->) & _).
  simpl in *. rewrite Hfs, Hreads. repeat split; try done.
  by apply prefix_app_r.
Qed.

(** X8. The recorded imports are only ever extended: an entry is never removed
    and never replaced wholesale, and only the entry of the normalized
    global style path can change. *)
Theorem buildGlobalStyles_extends_imports
    fuel config ctx bctx out ctx' bctx' :
  buildGlobalStyles fuel config ctx bctx = Some (out, ctx', bctx') →
  (∀ k l, cssModuleImports ctx !! k = Some l →
     ∃ l', cssModuleImports ctx' !! k = Some l' ∧ l `prefix_of` l') ∧
  (∀ k, (∀ g, globalStyle config = Some g → k ≠ normalizePath g) →
     cssModuleImports ctx' !! k = cssModuleImports ctx !! k).
Proof.
  intros Hbuild.
  destruct (globalStyle_truthy_cases config) as [Hno|(g & Hg & Hne)].
  { rewrite buildGlobalStyles_not_configured in Hbuild by done.
    simplify_eq. split; [|done]. intros k l Hl. by exists l. }
  destruct (buildGlobalStyles_cases _ _ _ _ _ _ _ _ Hg Hne Hbuild)
    as (r & ctx1 & Hskip & Hcases).
  apply canSkipGlobalStyles_frame in Hskip as (log & -> & Hlog).
  destruct Hcases as [(-> & -> & -> & ->)|(-> & Hre)].
  { split; [|done]. intros k l Hl. by exists l. }
  apply rebuildGlobalStyles_frame
    in Hre as (_ & _ & _ & _ & _ & _ & Hother & Hext).
  simpl in *. split.
  - intros k l Hl. destruct (decide (k = normalizePath g)) as [->|Hk].
    + by apply Hext.
    + exists l. by rewrite Hother.
  - intros k Hk. apply Hother. by apply Hk.
Qed.

(** X9. Every stale recomputation registers the normalized global style path
    for watching, whether it then succeeds, is reset or fails. *)
Theorem buildGlobalStyles_watches_entry
    fuel config g ctx bctx ctx1 out ctx' bctx' :
  globalStyle config = Some g → g ≠ "" →
  canSkipGlobalStyles fuel g ctx bctx = Some (false, ctx1) →
  buildGlobalStyles fuel config ctx bctx = Some (out, ctx', bctx') →
  normalizePath g ∈ watchFiles ctx'.
Proof.
  intros Hg Hne Hskip Hbuild.
  rewrite (CacheTheorems.buildGlobalStyles_stale _ _ _ _ _ _ g _ _ ctx1)
    in Hbuild by done.
  simplify_eq.
  destruct (rebuildGlobalStyles g ctx1 bctx) as [[out0 ctx0] bctx0] eqn:Hre.
  simplify_eq.
  by apply rebuildGlobalStyles_frame in Hre as (_ & _ & _ & Hw & _).
Qed.

(** X10. After a build that returned [null] or the empty string, the next build
    is stale whatever its build context says: the cache is cold. *)
Theorem buildGlobalStyles_failure_is_rebuilt
    fuel config g ctx bctx out ctx' bctx' fuel2 bctx2 :
  globalStyle config = Some g → g ≠ "" →
  buildGlobalStyles fuel config ctx bctx = Some (out, ctx', bctx') →
  truthy out = false →
  canSkipGlobalStyles fuel2 g ctx' bctx2 = Some (false, ctx').
Proof.
  intros Hg Hne Hbuild Hout.
  destruct (buildGlobalStyles_cases _ _ _ _ _ _ _ _ Hg Hne Hbuild)
    as (r & ctx1 & Hskip & Hcases).
  assert (cachedGlobalStyle ctx' = out) as Hcache.
  { destruct Hcases as [(-> & -> & -> & ->)|(-> & Hre)]; [done|].
    by apply rebuildGlobalStyles_frame in Hre as (Hc & _). }
  unfold GlobalStyles.canSkipGlobalStyles. rewrite Hcache.
  destruct out as [s|]; [|done]. simpl in Hout.
  apply negb_false_iff in Hout. by rewrite Hout.
Qed.

(** X11. A descriptor with code is handled like a plain string, and its
    dependencies are kept: the optimized code is returned and cached, and
    when the descriptor carries a dependency array, every dependency is
    registered for watching and recorded as an import of the normalized
    global style path; without an array the recorded imports stay as they
    are. *)
Theorem buildGlobalStyles_descriptor
    fuel config g ctx bctx ctx1 reported cssCode deps reported' optimizedCss :
  globalStyle config = Some g → g ≠ "" →
  canSkipGlobalStyles fuel g ctx bctx = Some (false, ctx1) →
  let path := normalizePath g in
  let ctx2 := addWatchFile path ctx1 in
  runPluginTransforms ctx2 bctx path =
    Returned reported (TransformDescriptor (Some cssCode) deps) →
  cssCode ≠ "" →
  optimizeCss ctx2 (diagnostics bctx ++ reported) cssCode path =
    Returned reported' optimizedCss →
  ∃ ctx',
    buildGlobalStyles fuel config ctx bctx =
      Some (Some optimizedCss, ctx',
            setDiagnostics (diagnostics bctx ++ reported ++ reported') bctx) ∧
    cachedGlobalStyle ctx' = Some optimizedCss ∧
    (∀ ds d, deps = Some ds → d ∈ ds →
       d ∈ watchFiles ctx' ∧
       ∃ l, cssModuleImports ctx' !! path = Some l ∧ d ∈ l) ∧
    (deps = None → cssModuleImports ctx' = cssModuleImports ctx1).
Proof.
  intros Hg Hne Hskip path ctx2 Htr Hcode Hopt.
  rewrite (CacheTheorems.buildGlobalStyles_stale _ _ _ _ _ _ g _ _ ctx1)
    by done.
  unfold GlobalStyles.rebuildGlobalStyles. fold path. fold ctx2.
  rewrite Htr. simpl. rewrite bool_decide_eq_false_2 by done. simpl.
  rewrite Hopt. eexists. split.
  { unfold report, setDiagnostics. simpl. by rewrite <- app_assoc. }
  destruct deps as [ds|].
  - destruct (recordDependencies_spec path ds
                (setCachedGlobalStyle (Some optimizedCss) ctx2))
      as (l & -> & _ & Hin & _).
    simpl. split; [done|]. split; [|done].
    intros ds' d [= <-] Hd. split.
    + rewrite elem_of_union, elem_of_list_to_set. by left.
    + exists l. rewrite lookup_insert_eq. split; [done|]. apply Hin. by right.
  - simpl. split; [done|]. split; [done|]. done.
Qed.

(** X12. A descriptor whose code is missing or empty is an invalid result:
    [null] is returned and the cache holds [null] afterwards, whatever it
    held before; the optimizer is not consulted, no diagnostic is added by
    [buildGlobalStyles], and the dependencies of the descriptor are neither
    recorded nor watched: the recorded imports are those of the context the
    skip decision left, and the only file newly watched is the normalized
    global style path. *)
Theorem buildGlobalStyles_invalid_descriptor
    fuel config g ctx bctx ctx1 reported code deps :
  globalStyle config = Some g → g ≠ "" →
  canSkipGlobalStyles fuel g ctx bctx = Some (false, ctx1) →
  let path := normalizePath g in
  let ctx2 := addWatchFile path ctx1 in
  runPluginTransforms ctx2 bctx path =
    Returned reported (TransformDescriptor code deps) →
  code = None ∨ code = Some "" →
  ∃ ctx',
    buildGlobalStyles fuel config ctx bctx =
      Some (None, ctx', setDiagnostics (diagnostics bctx ++ reported) bctx) ∧
    cachedGlobalStyle ctx' = None ∧
    cssModuleImports ctx' = cssModuleImports ctx1 ∧
    (∀ d, d ∈ watchFiles ctx' ↔ d = path ∨ d ∈ watchFiles ctx1) ∧
    fs ctx' = fs ctx1 ∧
    ctx' = setCachedGlobalStyle None ctx2.
Proof.
  intros Hg Hne Hskip path ctx2 Htr Hcode.
  rewrite (CacheTheorems.buildGlobalStyles_stale _ _ _ _ _ _ g _ _ ctx1)
    by done.
  unfold GlobalStyles.rebuildGlobalStyles. fold path. fold ctx2.
  rewrite Htr. exists (setCachedGlobalStyle None ctx2).
  split; [by destruct Hcode as [-> | ->]|].
  split; [reflexivity|]. split; [reflexivity|].
  split; [|split; reflexivity].
  intros d. subst ctx2. simpl. set_solver.
Qed.

(** X13. The dependencies that the transform chain reports invalidate the cache
    later on: when the global style path is already normalized, a later
    build that is not short-circuited (a first build, or one with style
    changes) and whose [filesChanged] holds one of the dependencies is
    stale, without any file being read. *)
Theorem dependencies_invalidate_later_builds
    fuel config g ctx bctx ctx1 reported cssCode deps reported' optimizedCss :
  globalStyle config = Some g → g ≠ "" →
  normalizePath g = g →
  canSkipGlobalStyles fuel g ctx bctx = Some (false, ctx1) →
  runPluginTransforms (addWatchFile g ctx1) bctx g =
    Returned reported (TransformDescriptor (Some cssCode) (Some deps)) →
  cssCode ≠ "" →
  optimizeCss (addWatchFile g ctx1) (diagnostics bctx ++ reported) cssCode g =
    Returned reported' optimizedCss →
  ∃ out ctx' bctx',
    buildGlobalStyles fuel config ctx bctx = Some (out, ctx', bctx') ∧
    ∀ fuel2 bctx2 dep,
      dep ∈ deps → dep ∈ filesChanged bctx2 →
      isRebuild bctx2 = false ∨ hasStyleChanges bctx2 = true →
      canSkipGlobalStyles fuel2 g ctx' bctx2 = Some (false, ctx').
Proof.
  intros Hg Hne Hnorm Hskip Htr Hcode Hopt.
  rewrite (CacheTheorems.buildGlobalStyles_stale _ _ _ _ _ _ g _ _ ctx1)
    by done.
  unfold GlobalStyles.rebuildGlobalStyles. rewrite Hnorm, Htr. simpl.
  rewrite bool_decide_eq_false_2 by done. simpl. rewrite Hopt.
  do 3 eexists. split; [done|].
  intros fuel2 bctx2 dep Hdep Hch Hshort.
  destruct (recordDependencies_spec g deps
              (setCachedGlobalStyle (Some optimizedCss) (addWatchFile g ctx1)))
    as (l & Heq & _ & Hin & _).
  rewrite Heq. unfold GlobalStyles.canSkipGlobalStyles. simpl.
  case_bool_decide; [done|].
  destruct (requiresFullBuild bctx2); [done|].
  assert (isRebuild bctx2 && negb (hasStyleChanges bctx2) = false) as ->.
  { destruct Hshort as [-> | ->]; [done|]. by rewrite andb_false_r. }
  destruct (includes (filesChanged bctx2) g); [done|].
  rewrite lookup_insert_eq.
  assert (some (λ f, includes l f) (filesChanged bctx2) = true) as ->; [|done].
  apply some_true. exists dep. split; [done|]. apply includes_true.
  apply Hin. by right.
Qed.

(** X14. The skip decision is antitone in [filesChanged]: if the cache is valid
    for a build, it is valid for every build with the same flags and fewer
    changed files. *)
Theorem canSkipGlobalStyles_antitone fuel g ctx bctx bctx' :
  size (fs ctx) + 2 ≤ fuel →
  (∀ q, q ∈ filesChanged bctx → q ∈ filesChanged bctx') →
  isRebuild bctx = isRebuild bctx' →
  requiresFullBuild bctx = requiresFullBuild bctx' →
  hasStyleChanges bctx = hasStyleChanges bctx' →
  (∃ c', canSkipGlobalStyles fuel g ctx bctx' = Some (true, c')) →
  ∃ c, canSkipGlobalStyles fuel g ctx bctx = Some (true, c).
Proof.
  intros Hfuel Hsub Hre Hfull Hst [c' Hskip].
  unfold GlobalStyles.canSkipGlobalStyles in *.
  rewrite Hre, Hfull, Hst.
  destruct (cachedGlobalStyle ctx) as [cached|]; [|done].
  case_bool_decide; [done|].
  destruct (requiresFullBuild bctx'); [done|].
  destruct (isRebuild bctx' && negb (hasStyleChanges bctx')); [by eexists|].
  destruct (includes (filesChanged bctx') g) eqn:Hentry; [done|].
  assert (includes (filesChanged bctx) g = false) as ->.
  { apply includes_false. apply includes_false in Hentry. auto. }
  destruct (match cssModuleImports ctx !! g with
            | Some imports => some (λ f, includes imports f) (filesChanged bctx')
            | None => false
            end) eqn:Hdeps; [done|].
  assert (match cssModuleImports ctx !! g with
          | Some imports => some (λ f, includes imports f) (filesChanged bctx)
          | None => false
          end = false) as ->.
  { destruct (cssModuleImports ctx !! g) as [imports|]; [|done].
    apply some_false. intros f Hf.
    by apply (proj1 (some_false _ _) Hdeps), Hsub. }
  destruct (hasChangedImportFile getCssImports (fs ctx) (filesChanged bctx')
              fuel g cached (mkWalk [] (fsReadLog ctx)))
    as [[changed' w']|] eqn:Hwalk'; [|done].
  simpl in Hskip. destruct changed'; [done|].
  destruct (hasChangedImportFile_terminates getCssImports (fs ctx)
              (filesChanged bctx) fuel g cached (mkWalk [] (fsReadLog ctx))
              Hfuel) as [[changed w] Hwalk].
  rewrite Hwalk. simpl. destruct changed; [|by eexists].
  exfalso.
  apply hasChangedImportFile_true_found in Hwalk
    as (f & c & q & Hf & Hc & Hq & Hch).
  destruct (hasChangedImportFile_finds_change getCssImports (fs ctx)
              (filesChanged bctx') g cached fuel (fsReadLog ctx) f c q)
    as [w'' Hw'']; auto.
  congruence.
Qed.

End BuildProperties.

Section GenerateProperties.
Variable getCssImports : string → string → list string.
Variable normalizePath : string → string.
Variable runPluginTransforms :
  CompilerCtx → BuildCtx → string → Completion TransformResults.
Variable optimizeCss :
  CompilerCtx → list Diagnostic → string → string → Completion string.
Variable isOutputTargetDistGlobalStyles : OutputTarget → bool.

Local Abbreviation buildGlobalStyles :=
  (buildGlobalStyles getCssImports normalizePath runPluginTransforms optimizeCss).
Local Abbreviation generateGlobalStyles :=
  (generateGlobalStyles getCssImports normalizePath runPluginTransforms
     optimizeCss isOutputTargetDistGlobalStyles).

Lemma writeFile_all (text : string) (targets : list OutputTarget) :
  ∀ ctx,
    let ctx' := foldl (λ ctx o, writeFile (file o) text ctx) ctx targets in
    cachedGlobalStyle ctx' = cachedGlobalStyle ctx ∧
    cssModuleImports ctx' = cssModuleImports ctx ∧
    fsReadLog ctx' = fsReadLog ctx ∧
    watchFiles ctx' = watchFiles ctx ∧
    (∀ o, o ∈ targets → fs ctx' !! file o = Some text) ∧
    (∀ path, (∀ o, o ∈ targets → file o ≠ path) →
       fs ctx' !! path = fs ctx !! path).
Proof.
  induction targets as [|o rest IH]; intros ctx; simpl.
  - repeat split; try done. intros o Ho. by apply elem_of_nil in Ho.
  - destruct (IH (writeFile (file o) text ctx))
      as (Hc & Hi & Hl & Hw & Hwritten & Hother).
    simpl in *. repeat split; try done.
    + intros o' Ho'. apply elem_of_cons in Ho' as [->|Ho']; [|by apply Hwritten].
      destruct (decide (file o ∈ (file <$> rest))) as [Hin|Hnin].
      * apply list_elem_of_fmap in Hin as (o'' & Heq & Hin).
        pose proof (Hwritten o'' Hin) as Hw''. by rewrite <- Heq in Hw''.
      * rewrite Hother; [by rewrite lookup_insert_eq|].
        intros o'' Hin Heq. apply Hnin. apply list_elem_of_fmap. eauto.
    + intros path Hpath. rewrite Hother.
      * rewrite lookup_insert_ne; [done|]. apply Hpath. by left.
      * intros o' Ho'. apply Hpath. by right.
Qed.

(** X15. [generateGlobalStyles] returns the empty string without building
    anything when no output target is a global-styles target. Otherwise it
    returns what [buildGlobalStyles] returns, and when that is a non-empty
    text every global-styles target file holds it afterwards while every
    other file is as the build left it; when it is [null] or empty nothing
    is written. *)
Theorem generateGlobalStyles_writes fuel configOutputTargets config ctx bctx :
  ((∀ o, o ∈ configOutputTargets → isOutputTargetDistGlobalStyles o = false) →
   generateGlobalStyles fuel configOutputTargets config ctx bctx =
   Some (Some "", ctx, bctx)) ∧
  (∀ o0 out ctx1 bctx1,
     o0 ∈ configOutputTargets → isOutputTargetDistGlobalStyles o0 = true →
     buildGlobalStyles fuel config ctx bctx = Some (out, ctx1, bctx1) →
     ∃ ctx',
       generateGlobalStyles fuel configOutputTargets config ctx bctx =
         Some (out, ctx', bctx1) ∧
       cachedGlobalStyle ctx' = cachedGlobalStyle ctx1 ∧
       cssModuleImports ctx' = cssModuleImports ctx1 ∧
       watchFiles ctx' = watchFiles ctx1 ∧
       (truthy out = true →
        (∀ o, o ∈ configOutputTargets → isOutputTargetDistGlobalStyles o = true →
              fs ctx' !! file o = out) ∧
        (∀ path,
           (∀ o, o ∈ configOutputTargets →
                 isOutputTargetDistGlobalStyles o = true → file o ≠ path) →
           fs ctx' !! path = fs ctx1 !! path)) ∧
       (truthy out = false → ctx' = ctx1)).
Proof.
  unfold GlobalStyles.generateGlobalStyles. split.
  - intros Hnone.
    assert (filter (λ o, isOutputTargetDistGlobalStyles o = true)
              configOutputTargets = []) as ->; [|done].
    induction configOutputTargets as [|o rest IH]; [done|].
    rewrite filter_cons_False.
    + apply IH. intros o' Ho'. apply Hnone. by right.
    + rewrite (Hnone o) by (by left). done.
  - intros o0 out ctx1 bctx1 Ho0 Hdist Hbuild.
    set (targets := filter (λ o, isOutputTargetDistGlobalStyles o = true)
                      configOutputTargets).
    assert (o0 ∈ targets) as Hin.
    { apply list_elem_of_filter. done. }
    rewrite bool_decide_eq_false_2.
    2:{ intros Hlen. apply nil_length_inv in Hlen. rewrite Hlen in Hin.
        by apply elem_of_nil in Hin. }
    rewrite Hbuild. simpl.
    destruct (truthy out) eqn:Hout.
    + apply truthy_spec in Hout as (text & -> & Htext). simpl.
      destruct (writeFile_all text targets ctx1)
        as (Hc & Hi & Hl & Hw & Hwritten & Hother).
      eexists. split; [done|]. simpl in *.
      split; [done|]. split; [done|]. split; [done|]. split; [|done].
      intros _. split.
      * intros o Ho Hd. apply Hwritten. by apply list_elem_of_filter.
      * intros path Hpath. apply Hother. intros o Ho.
        apply list_elem_of_filter in Ho as [Hd Ho]. by apply Hpath.
    + exists ctx1. repeat split; done.
Qed.

End GenerateProperties.

(** *** The theorems at work on the demo project *)

Lemma buildGlobalStyles_returns_cache_witness :
  (globalStyle Demo.demoConfig = Some "a.css" ∧ "a.css" ≠ "" ∧
   buildGlobalStyles Demo.demoCssImports Demo.demoNormalizePath
     (Demo.demoTransforms (TransformString "body{}")) Demo.demoOptimizeCss 7
     Demo.demoConfig (Demo.demoCompilerCtx None)
     (Demo.demoBuildCtx [] false false false)
   = Some (Some "/*min*/body{}",
           setCachedGlobalStyle (Some "/*min*/body{}")
             (addWatchFile "a.css" (Demo.demoCompilerCtx None)),
           Demo.demoBuildCtx [] false false false)) ∧
  cachedGlobalStyle
    (setCachedGlobalStyle (Some "/*min*/body{}")
       (addWatchFile "a.css" (Demo.demoCompilerCtx None)))
  = Some "/*min*/body{}".
Proof.
  assert ("a.css" ≠ "") as Hg by discriminate.
  assert (buildGlobalStyles Demo.demoCssImports Demo.demoNormalizePath
            (Demo.demoTransforms (TransformString "body{}"))
            Demo.demoOptimizeCss 7 Demo.demoConfig (Demo.demoCompilerCtx None)
            (Demo.demoBuildCtx [] false false false)
          = Some (Some "/*min*/body{}",
                  setCachedGlobalStyle (Some "/*min*/body{}")
                    (addWatchFile "a.css" (Demo.demoCompilerCtx None)),
                  Demo.demoBuildCtx [] false false false)) as Hbuild
    by (vm_compute; reflexivity).
  split; [by repeat split|].
  exact (buildGlobalStyles_returns_cache Demo.demoCssImports
           Demo.demoNormalizePath
           (Demo.demoTransforms (TransformString "body{}"))
           Demo.demoOptimizeCss 7 Demo.demoConfig "a.css" _ _ _ _ _
           eq_refl Hg Hbuild).
Defined.

Lemma buildGlobalStyles_frame_witness :
  buildGlobalStyles Demo.demoCssImports Demo.demoNormalizePath
    Demo.demoTransformsThrow Demo.demoOptimizeCss 7
    Demo.demoConfig (Demo.demoCompilerCtx None)
    (Demo.demoBuildCtx ["a.css"] false false true)
  = Some (None,
          setCachedGlobalStyle None
            (addWatchFile "a.css" (Demo.demoCompilerCtx None)),
          setDiagnostics [mkDiagnostic "transform failed" (Some "a.css")]
            (Demo.demoBuildCtx ["a.css"] false false true)) ∧
  (fs (setCachedGlobalStyle None
         (addWatchFile "a.css" (Demo.demoCompilerCtx None)))
   = fs (Demo.demoCompilerCtx None) ∧
   watchFiles (Demo.demoCompilerCtx None) ⊆
   watchFiles (setCachedGlobalStyle None
                 (addWatchFile "a.css" (Demo.demoCompilerCtx None))) ∧
   fsReadLog (Demo.demoCompilerCtx None) `prefix_of`
   fsReadLog (setCachedGlobalStyle None
                (addWatchFile "a.css" (Demo.demoCompilerCtx None))) ∧
   diagnostics (Demo.demoBuildCtx ["a.css"] false false true) `prefix_of`
   diagnostics (setDiagnostics [mkDiagnostic "transform failed" (Some "a.css")]
                  (Demo.demoBuildCtx ["a.css"] false false true)) ∧
   filesChanged (setDiagnostics [mkDiagnostic "transform failed" (Some "a.css")]
                   (Demo.demoBuildCtx ["a.css"] false false true))
   = filesChanged (Demo.demoBuildCtx ["a.css"] false false true) ∧
   isRebuild (setDiagnostics [mkDiagnostic "transform failed" (Some "a.css")]
                (Demo.demoBuildCtx ["a.css"] false false true))
   = isRebuild (Demo.demoBuildCtx ["a.css"] false false true) ∧
   requiresFullBuild
     (setDiagnostics [mkDiagnostic "transform failed" (Some "a.css")]
        (Demo.demoBuildCtx ["a.css"] false false true))
   = requiresFullBuild (Demo.demoBuildCtx ["a.css"] false false true) ∧
   hasStyleChanges
     (setDiagnostics [mkDiagnostic "transform failed" (Some "a.css")]
        (Demo.demoBuildCtx ["a.css"] false false true))
   = hasStyleChanges (Demo.demoBuildCtx ["a.css"] false false true)).
Proof.
  assert (buildGlobalStyles Demo.demoCssImports Demo.demoNormalizePath
            Demo.demoTransformsThrow Demo.demoOptimizeCss 7
            Demo.demoConfig (Demo.demoCompilerCtx None)
            (Demo.demoBuildCtx ["a.css"] false false true)
          = Some (None,
                  setCachedGlobalStyle None
                    (addWatchFile "a.css" (Demo.demoCompilerCtx None)),
                  setDiagnostics
                    [mkDiagnostic "transform failed" (Some "a.css")]
                    (Demo.demoBuildCtx ["a.css"] false false true))) as Hbuild
    by (vm_compute; reflexivity).
  split; [exact Hbuild|].
  exact (buildGlobalStyles_frame Demo.demoCssImports Demo.demoNormalizePath
           Demo.demoTransformsThrow Demo.demoOptimizeCss 7 Demo.demoConfig
           _ _ _ _ _ Hbuild).
Defined.

Lemma buildGlobalStyles_extends_imports_witness :
  buildGlobalStyles Demo.demoCssImports Demo.demoNormalizePath
    (Demo.demoTransforms Demo.demoDescriptor) Demo.demoOptimizeCss 7
    Demo.demoConfig Demo.demoCompilerCtxWithImports
    (Demo.demoBuildCtx [] false false false)
  = Some (Some "/*min*/body{}",
          recordDependencies "a.css" ["partials/a.css"; "partials/b.css"]
            (setCachedGlobalStyle (Some "/*min*/body{}")
               (addWatchFile "a.css" Demo.demoCompilerCtxWithImports)),
          Demo.demoBuildCtx [] false false false) ∧
  ((∀ k l,
      cssModuleImports Demo.demoCompilerCtxWithImports !! k = Some l →
      ∃ l',
        cssModuleImports
          (recordDependencies "a.css" ["partials/a.css"; "partials/b.css"]
             (setCachedGlobalStyle (Some "/*min*/body{}")
                (addWatchFile "a.css" Demo.demoCompilerCtxWithImports)))
          !! k = Some l' ∧ l `prefix_of` l') ∧
   (∀ k,
      (∀ g, globalStyle Demo.demoConfig = Some g →
            k ≠ Demo.demoNormalizePath g) →
      cssModuleImports
        (recordDependencies "a.css" ["partials/a.css"; "partials/b.css"]
           (setCachedGlobalStyle (Some "/*min*/body{}")
              (addWatchFile "a.css" Demo.demoCompilerCtxWithImports)))
        !! k = cssModuleImports Demo.demoCompilerCtxWithImports !! k)).
Proof.
  assert (buildGlobalStyles Demo.demoCssImports Demo.demoNormalizePath
            (Demo.demoTransforms Demo.demoDescriptor) Demo.demoOptimizeCss 7
            Demo.demoConfig Demo.demoCompilerCtxWithImports
            (Demo.demoBuildCtx [] false false false)
          = Some (Some "/*min*/body{}",
                  recordDependencies "a.css"
                    ["partials/a.css"; "partials/b.css"]
                    (setCachedGlobalStyle (Some "/*min*/body{}")
                       (addWatchFile "a.css" Demo.demoCompilerCtxWithImports)),
                  Demo.demoBuildCtx [] false false false)) as Hbuild
    by (vm_compute; reflexivity).
  split; [exact Hbuild|].
  exact (buildGlobalStyles_extends_imports Demo.demoCssImports
           Demo.demoNormalizePath (Demo.demoTransforms Demo.demoDescriptor)
           Demo.demoOptimizeCss 7 Demo.demoConfig _ _ _ _ _ Hbuild).
Defined.

Lemma buildGlobalStyles_watches_entry_witness :
  (globalStyle Demo.demoConfig = Some "a.css" ∧ "a.css" ≠ "" ∧
   canSkipGlobalStyles Demo.demoCssImports 7 "a.css" (Demo.demoCompilerCtx None)
     (Demo.demoBuildCtx [] false false false)
   = Some (false, Demo.demoCompilerCtx None) ∧
   buildGlobalStyles Demo.demoCssImports Demo.demoNormalizePath
     Demo.demoTransformsThrow Demo.demoOptimizeCss 7
     Demo.demoConfig (Demo.demoCompilerCtx None)
     (Demo.demoBuildCtx [] false false false)
   = Some (None,
           setCachedGlobalStyle None
             (addWatchFile "a.css" (Demo.demoCompilerCtx None)),
           setDiagnostics [mkDiagnostic "transform failed" (Some "a.css")]
             (Demo.demoBuildCtx [] false false false))) ∧
  Demo.demoNormalizePath "a.css" ∈
  watchFiles (setCachedGlobalStyle None
                (addWatchFile "a.css" (Demo.demoCompilerCtx None))).
Proof.
  assert ("a.css" ≠ "") as Hg by discriminate.
  assert (buildGlobalStyles Demo.demoCssImports Demo.demoNormalizePath
            Demo.demoTransformsThrow Demo.demoOptimizeCss 7
            Demo.demoConfig (Demo.demoCompilerCtx None)
            (Demo.demoBuildCtx [] false false false)
          = Some (None,
                  setCachedGlobalStyle None
                    (addWatchFile "a.css" (Demo.demoCompilerCtx None)),
                  setDiagnostics
                    [mkDiagnostic "transform failed" (Some "a.css")]
                    (Demo.demoBuildCtx [] false false false))) as Hbuild
    by (vm_compute; reflexivity).
  split; [by repeat split|].
  exact (buildGlobalStyles_watches_entry Demo.demoCssImports
           Demo.demoNormalizePath Demo.demoTransformsThrow
           Demo.demoOptimizeCss 7 Demo.demoConfig "a.css"
           (Demo.demoCompilerCtx None) (Demo.demoBuildCtx [] false false false)
           (Demo.demoCompilerCtx None) _ _ _ eq_refl Hg eq_refl Hbuild).
Defined.

Lemma buildGlobalStyles_failure_is_rebuilt_witness :
  (globalStyle Demo.demoConfig = Some "a.css" ∧ "a.css" ≠ "" ∧
   buildGlobalStyles Demo.demoCssImports Demo.demoNormalizePath
     Demo.demoTransformsThrow Demo.demoOptimizeCss 7
     Demo.demoConfig (Demo.demoCompilerCtx (Some "X"))
     (Demo.demoBuildCtx ["a.css"] true false true)
   = Some (None,
           setCachedGlobalStyle None
             (addWatchFile "a.css" (Demo.demoCompilerCtx (Some "X"))),
           setDiagnostics [mkDiagnostic "transform failed" (Some "a.css")]
             (Demo.demoBuildCtx ["a.css"] true false true)) ∧
   truthy None = false) ∧
  canSkipGlobalStyles Demo.demoCssImports 0 "a.css"
    (setCachedGlobalStyle None
       (addWatchFile "a.css" (Demo.demoCompilerCtx (Some "X"))))
    (Demo.demoBuildCtx [] true false false)
  = Some (false,
          setCachedGlobalStyle None
            (addWatchFile "a.css" (Demo.demoCompilerCtx (Some "X")))).
Proof.
  assert ("a.css" ≠ "") as Hg by discriminate.
  assert (buildGlobalStyles Demo.demoCssImports Demo.demoNormalizePath
            Demo.demoTransformsThrow Demo.demoOptimizeCss 7
            Demo.demoConfig (Demo.demoCompilerCtx (Some "X"))
            (Demo.demoBuildCtx ["a.css"] true false true)
          = Some (None,
                  setCachedGlobalStyle None
                    (addWatchFile "a.css" (Demo.demoCompilerCtx (Some "X"))),
                  setDiagnostics
                    [mkDiagnostic "transform failed" (Some "a.css")]
                    (Demo.demoBuildCtx ["a.css"] true false true))) as Hbuild
    by (vm_compute; reflexivity).
  split; [by repeat split|].
  exact (buildGlobalStyles_failure_is_rebuilt Demo.demoCssImports
           Demo.demoNormalizePath Demo.demoTransformsThrow
           Demo.demoOptimizeCss 7 Demo.demoConfig "a.css" _ _ _ _ _ 0
           (Demo.demoBuildCtx [] true false false) eq_refl Hg Hbuild eq_refl).
Defined.

Lemma buildGlobalStyles_descriptor_witness :
  (globalStyle Demo.demoConfig = Some "a.css" ∧ "a.css" ≠ "" ∧
   canSkipGlobalStyles Demo.demoCssImports 7 "a.css" (Demo.demoCompilerCtx None)
     (Demo.demoBuildCtx [] false false false)
   = Some (false, Demo.demoCompilerCtx None) ∧
   "body{}" ≠ "") ∧
  ∃ ctx',
    buildGlobalStyles Demo.demoCssImports Demo.demoNormalizePath
      (Demo.demoTransforms Demo.demoDescriptor) Demo.demoOptimizeCss 7
      Demo.demoConfig (Demo.demoCompilerCtx None)
      (Demo.demoBuildCtx [] false false false)
    = Some (Some "/*min*/body{}", ctx',
            setDiagnostics ([] ++ [] ++ [])
              (Demo.demoBuildCtx [] false false false)) ∧
    cachedGlobalStyle ctx' = Some "/*min*/body{}" ∧
    (∀ ds d, Some ["partials/a.css"; "partials/b.css"] = Some ds → d ∈ ds →
       d ∈ watchFiles ctx' ∧
       ∃ l, cssModuleImports ctx' !! Demo.demoNormalizePath "a.css" = Some l ∧
            d ∈ l) ∧
    (Some ["partials/a.css"; "partials/b.css"] = None →
     cssModuleImports ctx' = cssModuleImports (Demo.demoCompilerCtx None)).
Proof.
  assert ("a.css" ≠ "") as Hg by discriminate.
  assert ("body{}" ≠ "") as Hcode by discriminate.
  split; [by repeat split|].
  exact (buildGlobalStyles_descriptor Demo.demoCssImports
           Demo.demoNormalizePath (Demo.demoTransforms Demo.demoDescriptor)
           Demo.demoOptimizeCss 7 Demo.demoConfig "a.css"
           (Demo.demoCompilerCtx None) (Demo.demoBuildCtx [] false false false)
           (Demo.demoCompilerCtx None) [] "body{}"
           (Some ["partials/a.css"; "partials/b.css"]) [] "/*min*/body{}"
           eq_refl Hg eq_refl eq_refl Hcode eq_refl).
Defined.

Lemma buildGlobalStyles_invalid_descriptor_witness :
  (globalStyle Demo.demoConfig = Some "a.css" ∧ "a.css" ≠ "" ∧
   canSkipGlobalStyles Demo.demoCssImports 7 "a.css"
     (Demo.demoCompilerCtx (Some "old{}"))
     (Demo.demoBuildCtx ["a.css"] false false true)
   = Some (false, Demo.demoCompilerCtx (Some "old{}")) ∧
   ((None : option string) = None ∨ (None : option string) = Some "")) ∧
  ∃ ctx',
    buildGlobalStyles Demo.demoCssImports Demo.demoNormalizePath
      (Demo.demoTransforms (TransformDescriptor None (Some ["partials/a.css"])))
      Demo.demoOptimizeCss 7 Demo.demoConfig
      (Demo.demoCompilerCtx (Some "old{}"))
      (Demo.demoBuildCtx ["a.css"] false false true)
    = Some (None, ctx',
            setDiagnostics
              (diagnostics (Demo.demoBuildCtx ["a.css"] false false true) ++ [])
              (Demo.demoBuildCtx ["a.css"] false false true)) ∧
    cachedGlobalStyle ctx' = None ∧
    cssModuleImports ctx'
    = cssModuleImports (Demo.demoCompilerCtx (Some "old{}")) ∧
    (∀ d, d ∈ watchFiles ctx' ↔
          d = Demo.demoNormalizePath "a.css" ∨
          d ∈ watchFiles (Demo.demoCompilerCtx (Some "old{}"))) ∧
    fs ctx' = fs (Demo.demoCompilerCtx (Some "old{}")) ∧
    ctx' = setCachedGlobalStyle None
             (addWatchFile (Demo.demoNormalizePath "a.css")
                (Demo.demoCompilerCtx (Some "old{}"))).
Proof.
  assert ("a.css" ≠ "") as Hg by discriminate.
  assert ((None : option string) = None ∨ (None : option string) = Some "")
    as Hcode by (by left).
  split; [by repeat split|].
  exact (buildGlobalStyles_invalid_descriptor Demo.demoCssImports
           Demo.demoNormalizePath
           (Demo.demoTransforms
              (TransformDescriptor None (Some ["partials/a.css"])))
           Demo.demoOptimizeCss 7 Demo.demoConfig "a.css"
           (Demo.demoCompilerCtx (Some "old{}"))
           (Demo.demoBuildCtx ["a.css"] false false true)
           (Demo.demoCompilerCtx (Some "old{}")) [] None
           (Some ["partials/a.css"]) eq_refl Hg eq_refl eq_refl Hcode).
Defined.

Lemma dependencies_invalidate_later_builds_witness :
  (globalStyle Demo.demoConfig = Some "a.css" ∧ "a.css" ≠ "" ∧
   Demo.demoNormalizePath "a.css" = "a.css" ∧
   canSkipGlobalStyles Demo.demoCssImports 7 "a.css" (Demo.demoCompilerCtx None)
     (Demo.demoBuildCtx [] false false false)
   = Some (false, Demo.demoCompilerCtx None) ∧
   "body{}" ≠ "") ∧
  ∃ out ctx' bctx',
    buildGlobalStyles Demo.demoCssImports Demo.demoNormalizePath
      (Demo.demoTransforms Demo.demoDescriptor) Demo.demoOptimizeCss 7
      Demo.demoConfig (Demo.demoCompilerCtx None)
      (Demo.demoBuildCtx [] false false false)
    = Some (out, ctx', bctx') ∧
    ∀ fuel2 bctx2 dep,
      dep ∈ ["partials/a.css"; "partials/b.css"] →
      dep ∈ filesChanged bctx2 →
      isRebuild bctx2 = false ∨ hasStyleChanges bctx2 = true →
      canSkipGlobalStyles Demo.demoCssImports fuel2 "a.css" ctx' bctx2
      = Some (false, ctx').
Proof.
  assert ("a.css" ≠ "") as Hg by discriminate.
  assert ("body{}" ≠ "") as Hcode by discriminate.
  split; [by repeat split|].
  exact (dependencies_invalidate_later_builds Demo.demoCssImports
           Demo.demoNormalizePath (Demo.demoTransforms Demo.demoDescriptor)
           Demo.demoOptimizeCss 7 Demo.demoConfig "a.css"
           (Demo.demoCompilerCtx None) (Demo.demoBuildCtx [] false false false)
           (Demo.demoCompilerCtx None) [] "body{}"
           ["partials/a.css"; "partials/b.css"] [] "/*min*/body{}"
           eq_refl Hg eq_refl eq_refl eq_refl Hcode eq_refl).
Defined.

Lemma canSkipGlobalStyles_antitone_witness :
  (size (fs (Demo.demoCompilerCtx (Some "@import 'b.css';"))) + 2 ≤ 7 ∧
   (∀ q, q ∈ filesChanged (Demo.demoBuildCtx [] true false true) →
         q ∈ filesChanged (Demo.demoBuildCtx ["unrelated.ts"] true false true)) ∧
   ∃ c', canSkipGlobalStyles Demo.demoCssImports 7 "a.css"
           (Demo.demoCompilerCtx (Some "@import 'b.css';"))
           (Demo.demoBuildCtx ["unrelated.ts"] true false true)
         = Some (true, c')) ∧
  ∃ c, canSkipGlobalStyles Demo.demoCssImports 7 "a.css"
         (Demo.demoCompilerCtx (Some "@import 'b.css';"))
         (Demo.demoBuildCtx [] true false true)
       = Some (true, c).
Proof.
  assert (size (fs (Demo.demoCompilerCtx (Some "@import 'b.css';"))) + 2 ≤ 7)
    as Hfuel by (vm_compute; lia).
  assert (∀ q, q ∈ filesChanged (Demo.demoBuildCtx [] true false true) →
               q ∈ filesChanged
                     (Demo.demoBuildCtx ["unrelated.ts"] true false true))
    as Hsub.
  { intros q Hq. simpl in Hq. by apply elem_of_nil in Hq. }
  assert (∃ c', canSkipGlobalStyles Demo.demoCssImports 7 "a.css"
                  (Demo.demoCompilerCtx (Some "@import 'b.css';"))
                  (Demo.demoBuildCtx ["unrelated.ts"] true false true)
                = Some (true, c')) as Hskip.
  { eexists. vm_compute. reflexivity. }
  split; [by repeat split|].
  exact (canSkipGlobalStyles_antitone Demo.demoCssImports 7 "a.css"
           (Demo.demoCompilerCtx (Some "@import 'b.css';"))
           (Demo.demoBuildCtx [] true false true)
           (Demo.demoBuildCtx ["unrelated.ts"] true false true)
           Hfuel Hsub eq_refl eq_refl eq_refl Hskip).
Defined.

Lemma generateGlobalStyles_writes_witness :
  (GlobalStyles.mkOutputTarget "dist-global-styles" "/dist/app.css"
     ∈ Demo.demoOutputTargets ∧
   Demo.demoIsDistGlobalStyles
     (GlobalStyles.mkOutputTarget "dist-global-styles" "/dist/app.css") = true ∧
   buildGlobalStyles Demo.demoCssImports Demo.demoNormalizePath
     (Demo.demoTransforms (TransformString "body{}")) Demo.demoOptimizeCss 7
     Demo.demoConfig (Demo.demoCompilerCtx None)
     (Demo.demoBuildCtx [] false false false)
   = Some (Some "/*min*/body{}",
           setCachedGlobalStyle (Some "/*min*/body{}")
             (addWatchFile "a.css" (Demo.demoCompilerCtx None)),
           Demo.demoBuildCtx [] false false false)) ∧
  ∃ ctx',
    generateGlobalStyles Demo.demoCssImports Demo.demoNormalizePath
      (Demo.demoTransforms (TransformString "body{}")) Demo.demoOptimizeCss
      Demo.demoIsDistGlobalStyles 7 Demo.demoOutputTargets
      Demo.demoConfig (Demo.demoCompilerCtx None)
      (Demo.demoBuildCtx [] false false false)
    = Some (Some "/*min*/body{}", ctx', Demo.demoBuildCtx [] false false false) ∧
    fs ctx' !! "/dist/app.css" = Some "/*min*/body{}" ∧
    fs ctx' !! "/www/build/app.css" = Some "/*min*/body{}" ∧
    fs ctx' !! "/www/index.html" = None.
Proof.
  assert (GlobalStyles.mkOutputTarget "dist-global-styles" "/dist/app.css"
            ∈ Demo.demoOutputTargets) as Hin.
  { apply list_elem_of_further, list_elem_of_here. }
  assert (buildGlobalStyles Demo.demoCssImports Demo.demoNormalizePath
            (Demo.demoTransforms (TransformString "body{}"))
            Demo.demoOptimizeCss 7 Demo.demoConfig (Demo.demoCompilerCtx None)
            (Demo.demoBuildCtx [] false false false)
          = Some (Some "/*min*/body{}",
                  setCachedGlobalStyle (Some "/*min*/body{}")
                    (addWatchFile "a.css" (Demo.demoCompilerCtx None)),
                  Demo.demoBuildCtx [] false false false)) as Hbuild
    by (vm_compute; reflexivity).
  split; [by repeat split|].
  destruct (proj2 (generateGlobalStyles_writes Demo.demoCssImports
                     Demo.demoNormalizePath
                     (Demo.demoTransforms (TransformString "body{}"))
                     Demo.demoOptimizeCss Demo.demoIsDistGlobalStyles 7
                     Demo.demoOutputTargets Demo.demoConfig
                     (Demo.demoCompilerCtx None)
                     (Demo.demoBuildCtx [] false false false))
              _ _ _ _ Hin eq_refl Hbuild)
    as (ctx' & Hgen & _ & _ & _ & Hwritten & _).
  destruct (Hwritten eq_refl) as [Hfiles Hother].
  exists ctx'. split; [exact Hgen|]. split; [|split].
  - apply (Hfiles (GlobalStyles.mkOutputTarget "dist-global-styles"
                     "/dist/app.css")); [exact Hin|reflexivity].
  - apply (Hfiles (GlobalStyles.mkOutputTarget "dist-global-styles"
                     "/www/build/app.css")); [|reflexivity].
    apply list_elem_of_further, list_elem_of_further, list_elem_of_here.
  - rewrite Hother; [vm_compute; reflexivity|].
    intros o Ho Hd Hfile.
    apply elem_of_cons in Ho as [->|Ho]; [discriminate Hd|].
    apply elem_of_cons in Ho as [->|Ho]; [discriminate Hfile|].
    apply list_elem_of_singleton in Ho as ->. discriminate Hfile.
Defined.

End BuildProperties.

(** ** More on the linker: the eager-require convention, the insertion point *)

Module LinkerProperties.
Import StyleImports LinkerTheorems.

Section LinkerProperties.
Variable serializeImportPath : SerializeImportData → option string → string.
Variable updateSourceFile : SourceFile → list Statement → SourceFile.
Variable transformOpts : TransformOptions.
Variable tsSourceFile : SourceFile.

Local Abbreviation createCjsStyleRequire :=
  (createCjsStyleRequire serializeImportPath transformOpts tsSourceFile).
Local Abbreviation createEsmStyleImport :=
  (createEsmStyleImport serializeImportPath transformOpts tsSourceFile).
Local Abbreviation updateEsmStyleImportPath :=
  (updateEsmStyleImportPath serializeImportPath transformOpts tsSourceFile).
Local Abbreviation linkEsmStyle :=
  (linkEsmStyle serializeImportPath transformOpts tsSourceFile).
Local Abbreviation linkCjsStyle :=
  (linkCjsStyle serializeImportPath transformOpts tsSourceFile).
Local Abbreviation createdFor :=
  (createdFor serializeImportPath transformOpts tsSourceFile).
Local Abbreviation createdEsmStyleImports :=
  (createdEsmStyleImports serializeImportPath transformOpts tsSourceFile).
Local Abbreviation linkCmps :=
  (linkCmps serializeImportPath transformOpts tsSourceFile).
Local Abbreviation updateEsmStyleImports :=
  (updateEsmStyleImports serializeImportPath updateSourceFile transformOpts
     tsSourceFile).
Local Abbreviation updateCjsStyleRequires :=
  (updateCjsStyleRequires serializeImportPath updateSourceFile transformOpts
     tsSourceFile).

Implicit Types (n : Statement) (st : EsmState) (style : StyleCompiler)
  (cmp : ComponentCompilerMeta).

(** *** The eager-require convention *)

Lemma linkCjsStyle_spec cmp styleRequires style :
  linkCjsStyle cmp styleRequires style =
  styleRequires ++ (requireOfImport <$> createdFor cmp style).
Proof.
  unfold StyleImports.linkCjsStyle, StyleImports.createdFor.
  destruct (styleIdentifier style) as [identifier|];
    [|by rewrite app_nil_r].
  destruct (externalStyles style) as [|first rest]; [by rewrite app_nil_r|].
  done.
Qed.

Lemma link_cjs_styles_spec cmp (l : list StyleCompiler) :
  ∀ styleRequires,
    foldl (linkCjsStyle cmp) styleRequires l =
    styleRequires ++ (requireOfImport <$> (style ← l; createdFor cmp style)).
Proof.
  induction l as [|style rest IH]; intros styleRequires; simpl.
  - by rewrite app_nil_r.
  - rewrite IH, linkCjsStyle_spec, fmap_app. by rewrite <- app_assoc.
Qed.

Lemma link_cjs_cmps_spec (l : list ComponentCompilerMeta) :
  ∀ styleRequires,
    foldl (λ styleRequires cmp,
             foldl (linkCjsStyle cmp) styleRequires (styles cmp))
          styleRequires l =
    styleRequires ++
    (requireOfImport <$> (cmp ← l; style ← styles cmp; createdFor cmp style)).
Proof.
  induction l as [|cmp rest IH]; intros styleRequires; simpl.
  - by rewrite app_nil_r.
  - rewrite IH, link_cjs_styles_spec, fmap_app. by rewrite <- app_assoc.
Qed.

(** X16. In the eager-require convention every style with a bound identifier and
    an external asset gets one [const identifier = require(path)],
    all of them are put before the module's statements, in iteration order,
    and the module's statements follow unchanged; when no style qualifies
    the source file is returned as it is. *)
Theorem updateCjsStyleRequires_prepends moduleFile :
  let styleRequires :=
    cmp ← cmps moduleFile;
    style ← styles cmp;
    match styleIdentifier style, externalStyles style with
    | Some identifier, first :: _ =>
        [VariableStatement identifier
           (CallExpression "require"
              (getStyleImportPath serializeImportPath transformOpts
                 tsSourceFile cmp style (absolutePath first)))]
    | _, _ => []
    end in
  updateCjsStyleRequires moduleFile =
  match styleRequires with
  | [] => tsSourceFile
  | _ :: _ =>
      updateSourceFile tsSourceFile (styleRequires ++ statements tsSourceFile)
  end.
Proof.
  intros styleRequires. unfold StyleImports.updateCjsStyleRequires.
  rewrite link_cjs_cmps_spec. simpl.
  assert ((requireOfImport <$>
             (cmp ← cmps moduleFile; style ← styles cmp; createdFor cmp style))
          = styleRequires) as ->.
  { subst styleRequires.
    induction (cmps moduleFile) as [|cmp rest IH]; [done|].
    rewrite !bind_cons, fmap_app, IH. f_equal.
    induction (styles cmp) as [|style styles' IHs]; [done|].
    rewrite !bind_cons, fmap_app, IHs. f_equal.
    unfold StyleImports.createdFor.
    destruct (styleIdentifier style) as [identifier|]; [|done].
    by destruct (externalStyles style). }
  destruct styleRequires as [|r rest]; [done|].
  rewrite bool_decide_eq_true_2; [done|]. simpl. lia.
Qed.

Lemma lastImportIndexFrom_sameSlot (l l' : list Statement) :
  Forall2 sameSlot l l' →
  ∀ i last, lastImportIndexFrom i last l' = lastImportIndexFrom i last l.
Proof.
  induction 1 as [|n n' l l' Hn Hl IH]; intros i last; [done|].
  simpl. by rewrite (sameSlot_isImportDeclaration n n' Hn), IH.
Qed.

Lemma created_imports_shape moduleFile :
  Forall (λ n, ∃ identifier importPath,
            n = ImportDeclaration None None
                  (Some (mkImportClause false (Some identifier) None))
                  (StringLiteral importPath) None ∧
            requireOfImport n =
              VariableStatement identifier (CallExpression "require" importPath))
    (createdEsmStyleImports moduleFile).
Proof.
  unfold StyleImports.createdEsmStyleImports.
  induction (cmps moduleFile) as [|cmp rest IH]; [done|].
  rewrite bind_cons. apply Forall_app. split; [|done].
  induction (styles cmp) as [|style styles' IHs]; [done|].
  rewrite bind_cons. apply Forall_app. split; [|done].
  unfold StyleImports.createdFor.
  destruct (styleIdentifier style) as [identifier|]; [|done].
  destruct (externalStyles style) as [|first others]; [done|].
  repeat constructor. by eexists _, _.
Qed.

(** X17. Both conventions link the same styles. Take the imports that the
    loops of [updateEsmStyleImports] collect in [styleImports]: each is a
    default import of an identifier from a path; the eager-require
    convention puts, one for one and in the same order, a [require] of the
    same path bound to the same identifier before the module's statements,
    and, when some style carries an identifier, the static-import
    convention splices these very imports after the last import declaration
    of the module. *)
Theorem updateCjsStyleRequires_mirrors_esm moduleFile :
  let created :=
    styleImports
      (linkCmps (cmps moduleFile)
         (mkEsmState [] (statements tsSourceFile) false)) in
  let k := Z.to_nat (lastImportIndexFrom 0 (-1) (statements tsSourceFile) + 1) in
  created = createdEsmStyleImports moduleFile ∧
  Forall (λ n, ∃ identifier importPath,
            n = ImportDeclaration None None
                  (Some (mkImportClause false (Some identifier) None))
                  (StringLiteral importPath) None ∧
            requireOfImport n =
              VariableStatement identifier (CallExpression "require" importPath))
    created ∧
  updateCjsStyleRequires moduleFile =
    match created with
    | [] => tsSourceFile
    | _ :: _ =>
        updateSourceFile tsSourceFile
          ((requireOfImport <$> created) ++ statements tsSourceFile)
    end ∧
  ((∃ cmp style, cmp ∈ cmps moduleFile ∧ style ∈ styles cmp ∧
                 is_Some (styleIdentifier style)) →
   ∃ rewritten,
     Forall2 sameSlot (statements tsSourceFile) rewritten ∧
     updateEsmStyleImports moduleFile =
       updateSourceFile tsSourceFile
         (take k rewritten ++ created ++ drop k rewritten)).
Proof.
  intros created k.
  assert (created = createdEsmStyleImports moduleFile) as Hcreated.
  { subst created.
    by destruct (link_cmps_spec serializeImportPath transformOpts tsSourceFile
                   (cmps moduleFile)
                   (mkEsmState [] (statements tsSourceFile) false))
      as (-> & _). }
  split; [exact Hcreated|].
  split; [rewrite Hcreated; apply created_imports_shape|].
  split.
  - rewrite Hcreated. unfold StyleImports.updateCjsStyleRequires.
    rewrite link_cjs_cmps_spec. simpl.
    change (cmp ← cmps moduleFile; style ← styles cmp; createdFor cmp style)
      with (createdEsmStyleImports moduleFile).
    destruct (createdEsmStyleImports moduleFile) as [|n rest]; [done|].
    rewrite bool_decide_eq_true_2; [done|]. simpl. lia.
  - intros Hsome.
    destruct (esm_statements_after_linking serializeImportPath updateSourceFile
                transformOpts tsSourceFile moduleFile Hsome)
      as (_ & Hslot & Hupd).
    exists (esmStatements
              (linkCmps (cmps moduleFile)
                 (mkEsmState [] (statements tsSourceFile) false))).
    split; [done|].
    by rewrite Hupd, (lastImportIndexFrom_sameSlot _ _ Hslot).
Qed.

(** *** Where the static-import convention inserts *)

Lemma insertion_point_bounds (l : list Statement) :
  let k := Z.to_nat (lastImportIndexFrom 0 (-1) l + 1) in
  k ≤ length l ∧
  Forall (λ n, isImportDeclaration n = false) (drop k l) ∧
  (k = 0 ∨ ∃ n, l !! (k - 1) = Some n ∧ isImportDeclaration n = true).
Proof.
  destruct (split_at_last_import l)
    as [Hnone|(pre & n & post & -> & Hn & Hpost)].
  - rewrite lastImportIndexFrom_none by done. simpl.
    split; [lia|]. split; [by rewrite drop_0|by left].
  - rewrite lastImportIndexFrom_last by done.
    replace (Z.to_nat (0 + Z.of_nat (length pre) + 1)) with (S (length pre))
      by lia.
    cbv zeta. split; [rewrite length_app; simpl; lia|]. split.
    + replace (pre ++ n :: post) with ((pre ++ [n]) ++ post)
        by (by rewrite <- app_assoc).
      replace (S (length pre)) with (length (pre ++ [n]))
        by (rewrite length_app; simpl; lia).
      by rewrite drop_app_length.
    + right. exists n. split; [|done].
      replace (S (length pre) - 1) with (length pre) by lia.
      by rewrite list_lookup_middle.
Qed.

(** X18. The new imports of the static-import convention go right after the
    last import declaration of the original module: the index is computed
    as if nothing had been rewritten, it lies within the statement list,
    no import declaration follows it and, unless it is 0, an import
    declaration precedes it. Path rewriting changes no position, so the
    result has as many statements as the module plus the created imports. *)
Theorem updateEsmStyleImports_insertion_point moduleFile :
  (∃ cmp style, cmp ∈ cmps moduleFile ∧ style ∈ styles cmp ∧
                is_Some (styleIdentifier style)) →
  let k := Z.to_nat (lastImportIndexFrom 0 (-1) (statements tsSourceFile) + 1) in
  k ≤ length (statements tsSourceFile) ∧
  Forall (λ n, isImportDeclaration n = false) (drop k (statements tsSourceFile)) ∧
  (k = 0 ∨ ∃ n, statements tsSourceFile !! (k - 1) = Some n ∧
                isImportDeclaration n = true) ∧
  ∃ rewritten,
    Forall2 sameSlot (statements tsSourceFile) rewritten ∧
    updateEsmStyleImports moduleFile =
    updateSourceFile tsSourceFile
      (take k rewritten ++ createdEsmStyleImports moduleFile ++ drop k rewritten) ∧
    length (take k rewritten ++ createdEsmStyleImports moduleFile
              ++ drop k rewritten) =
    length (statements tsSourceFile) + length (createdEsmStyleImports moduleFile).
Proof.
  intros Hsome k.
  destruct (insertion_point_bounds (statements tsSourceFile))
    as (Hk & Hafter & Hbefore).
  fold k in Hk, Hafter, Hbefore.
  split; [done|]. split; [done|]. split; [done|].
  destruct (esm_statements_after_linking serializeImportPath updateSourceFile
              transformOpts tsSourceFile moduleFile Hsome)
    as (Himp & Hslot & Hupd).
  exists (esmStatements
            (linkCmps (cmps moduleFile)
               (mkEsmState [] (statements tsSourceFile) false))).
  split; [done|].
  rewrite Hupd, Himp, (lastImportIndexFrom_sameSlot _ _ Hslot).
  split; [done|].
  rewrite !length_app, length_take, length_drop.
  apply Forall2_length in Hslot. lia.
Qed.

Lemma linkCmps_nothing_to_link (l : list ComponentCompilerMeta) :
  ∀ st,
    (∀ cmp style identifier,
       cmp ∈ l → style ∈ styles cmp →
       styleIdentifier style = Some identifier →
       externalStyles style = [] ∧
       Forall (λ n, bindsIdentifier identifier n = false) (esmStatements st)) →
    styleImports (linkCmps l st) = styleImports st ∧
    esmStatements (linkCmps l st) = esmStatements st.
Proof.
  assert (∀ cmp (styles' : list StyleCompiler) st,
            (∀ style identifier,
               style ∈ styles' → styleIdentifier style = Some identifier →
               externalStyles style = [] ∧
               Forall (λ n, bindsIdentifier identifier n = false)
                 (esmStatements st)) →
            styleImports (foldl (linkEsmStyle cmp) st styles') = styleImports st ∧
            esmStatements (foldl (linkEsmStyle cmp) st styles') = esmStatements st)
    as Hstyles.
  { intros cmp styles'. induction styles' as [|style rest IH]; intros st Hall;
      [done|].
    simpl.
    assert (styleImports (linkEsmStyle cmp st style) = styleImports st ∧
            esmStatements (linkEsmStyle cmp st style) = esmStatements st)
      as [Hi He].
    { unfold StyleImports.linkEsmStyle.
      destruct (styleIdentifier style) as [identifier|] eqn:Hid; [|done].
      destruct (Hall style identifier) as [-> Hno]; [by left|done|].
      simpl. split; [done|].
      by apply updateEsmStyleImportPath_no_match. }
    destruct (IH (linkEsmStyle cmp st style)) as [Hi' He'].
    { intros style' identifier Hin Hid. rewrite He.
      apply Hall; [by right|done]. }
    by rewrite Hi', He', Hi, He. }
  induction l as [|cmp rest IH]; intros st Hall; [done|].
  unfold StyleImports.linkCmps in *. simpl.
  destruct (Hstyles cmp (styles cmp) st) as [Hi He].
  { intros style identifier Hin Hid. apply (Hall cmp); [by left|done..]. }
  destruct (IH (foldl (linkEsmStyle cmp) st (styles cmp))) as [Hi' He'].
  { intros cmp' style identifier Hcmp Hin Hid. rewrite He.
    apply (Hall cmp'); [by right|done..]. }
  by rewrite Hi', He', Hi, He.
Qed.

(** X19. When every style that carries an identifier has no external asset and
    no import of the module binds its identifier, there is nothing to link;
    the static-import convention then still builds a new source file, with
    exactly the statements of the module, while the eager-require
    convention returns the source file itself. *)
Theorem updateStyleImports_nothing_to_link moduleFile :
  (∃ cmp style, cmp ∈ cmps moduleFile ∧ style ∈ styles cmp ∧
                is_Some (styleIdentifier style)) →
  (∀ cmp style identifier,
     cmp ∈ cmps moduleFile → style ∈ styles cmp →
     styleIdentifier style = Some identifier →
     externalStyles style = [] ∧
     Forall (λ n, bindsIdentifier identifier n = false)
       (statements tsSourceFile)) →
  updateEsmStyleImports moduleFile =
    updateSourceFile tsSourceFile (statements tsSourceFile) ∧
  updateCjsStyleRequires moduleFile = tsSourceFile.
Proof.
  intros Hsome Hall. split.
  - destruct (esm_statements_after_linking serializeImportPath updateSourceFile
                transformOpts tsSourceFile moduleFile Hsome)
      as (_ & _ & ->).
    destruct (linkCmps_nothing_to_link (cmps moduleFile)
                (mkEsmState [] (statements tsSourceFile) false) Hall)
      as [-> ->].
    simpl. unfold splice. simpl. by rewrite take_drop.
  - unfold StyleImports.updateCjsStyleRequires.
    rewrite link_cjs_cmps_spec. simpl.
    assert ((cmp ← cmps moduleFile; style ← styles cmp; createdFor cmp style)
            = []) as ->; [|done].
    assert (∀ l : list ComponentCompilerMeta,
              (∀ cmp, cmp ∈ l → cmp ∈ cmps moduleFile) →
              (cmp ← l; style ← styles cmp; createdFor cmp style) = [])
      as Hnil; [|by apply Hnil].
    induction l as [|cmp rest IH]; intros Hsub; [done|].
    rewrite bind_cons, IH, app_nil_r by (intros c' Hc'; apply Hsub; by right).
    assert (∀ l' : list StyleCompiler,
              (∀ style, style ∈ l' → style ∈ styles cmp) →
              (style ← l'; createdFor cmp style) = []) as Hnil';
      [|by apply Hnil'].
    induction l' as [|style rest' IH']; intros Hsub'; [done|].
    rewrite bind_cons, IH', app_nil_r by (intros s' Hs'; apply Hsub'; by right).
    unfold StyleImports.createdFor.
    destruct (styleIdentifier style) as [identifier|] eqn:Hid; [|done].
    destruct (Hall cmp style identifier) as [-> _]; try done.
    + apply Hsub. by left.
    + apply Hsub'. by left.
Qed.

End LinkerProperties.

(** *** The theorems at work on the demo module *)

Lemma updateCjsStyleRequires_mirrors_esm_witness :
  updateCjsStyleRequires Demo.demoSerializeImportPath
    Demo.demoUpdateSourceFile Demo.demoCjs Demo.demoSourceFile
    (mkModule [Demo.demoCmp [Demo.demoStyle; Demo.demoStyleDark]]) =
  Demo.demoUpdateSourceFile Demo.demoSourceFile
    ([VariableStatement "cmpAStyle0"
        (CallExpression "require" "/src/cmp-a.css?tag=cmp-a&mode=");
      VariableStatement "cmpAStyle1"
        (CallExpression "require" "/src/cmp-a.dark.css?tag=cmp-a&mode=dark")]
     ++ statements Demo.demoSourceFile) ∧
  ∃ rewritten,
    Forall2 sameSlot (statements Demo.demoSourceFile) rewritten ∧
    updateEsmStyleImports Demo.demoSerializeImportPath
      Demo.demoUpdateSourceFile Demo.demoCjs Demo.demoSourceFile
      (mkModule [Demo.demoCmp [Demo.demoStyle; Demo.demoStyleDark]]) =
    Demo.demoUpdateSourceFile Demo.demoSourceFile
      (take 2 rewritten ++
       [Demo.demoDefaultImport "cmpAStyle0" "/src/cmp-a.css?tag=cmp-a&mode=";
        Demo.demoDefaultImport "cmpAStyle1"
          "/src/cmp-a.dark.css?tag=cmp-a&mode=dark"] ++
       drop 2 rewritten).
Proof.
  assert (∃ cmp style,
            cmp ∈ cmps (mkModule
                          [Demo.demoCmp [Demo.demoStyle; Demo.demoStyleDark]]) ∧
            style ∈ styles cmp ∧ is_Some (styleIdentifier style)) as Hsome.
  { exists (Demo.demoCmp [Demo.demoStyle; Demo.demoStyleDark]), Demo.demoStyle.
    split; [apply list_elem_of_here|]. split; [apply list_elem_of_here|].
    by eexists. }
  pose proof (updateCjsStyleRequires_mirrors_esm Demo.demoSerializeImportPath
                Demo.demoUpdateSourceFile Demo.demoCjs Demo.demoSourceFile
                (mkModule [Demo.demoCmp [Demo.demoStyle; Demo.demoStyleDark]]))
    as Hmirror.
  cbv zeta in Hmirror. destruct Hmirror as (_ & _ & Hcjs & Hesm).
  split; [exact Hcjs|exact (Hesm Hsome)].
Defined.

Lemma updateEsmStyleImports_insertion_point_witness :
  (∃ cmp style,
     cmp ∈ cmps (mkModule [Demo.demoCmp [Demo.demoStyle; Demo.demoStyleDark]]) ∧
     style ∈ styles cmp ∧ is_Some (styleIdentifier style)) ∧
  (2 ≤ length (statements Demo.demoSourceFile) ∧
   Forall (λ n, isImportDeclaration n = false)
     (drop 2 (statements Demo.demoSourceFile)) ∧
   (2 = 0 ∨ ∃ n, statements Demo.demoSourceFile !! (2 - 1) = Some n ∧
                 isImportDeclaration n = true) ∧
   ∃ rewritten,
     Forall2 sameSlot (statements Demo.demoSourceFile) rewritten ∧
     updateEsmStyleImports Demo.demoSerializeImportPath
       Demo.demoUpdateSourceFile Demo.demoEsm Demo.demoSourceFile
       (mkModule [Demo.demoCmp [Demo.demoStyle; Demo.demoStyleDark]]) =
     Demo.demoUpdateSourceFile Demo.demoSourceFile
       (take 2 rewritten ++
        createdEsmStyleImports Demo.demoSerializeImportPath Demo.demoEsm
          Demo.demoSourceFile
          (mkModule [Demo.demoCmp [Demo.demoStyle; Demo.demoStyleDark]]) ++
        drop 2 rewritten) ∧
     length (take 2 rewritten ++
             createdEsmStyleImports Demo.demoSerializeImportPath Demo.demoEsm
               Demo.demoSourceFile
               (mkModule [Demo.demoCmp [Demo.demoStyle; Demo.demoStyleDark]]) ++
             drop 2 rewritten) =
     length (statements Demo.demoSourceFile) +
     length (createdEsmStyleImports Demo.demoSerializeImportPath Demo.demoEsm
               Demo.demoSourceFile
               (mkModule [Demo.demoCmp [Demo.demoStyle; Demo.demoStyleDark]]))).
Proof.
  assert (∃ cmp style,
            cmp ∈ cmps (mkModule
                          [Demo.demoCmp [Demo.demoStyle; Demo.demoStyleDark]]) ∧
            style ∈ styles cmp ∧ is_Some (styleIdentifier style)) as Hsome.
  { exists (Demo.demoCmp [Demo.demoStyle; Demo.demoStyleDark]), Demo.demoStyle.
    split; [apply list_elem_of_here|]. split; [apply list_elem_of_here|].
    by eexists. }
  split; [exact Hsome|].
  exact (updateEsmStyleImports_insertion_point Demo.demoSerializeImportPath
           Demo.demoUpdateSourceFile Demo.demoEsm Demo.demoSourceFile
           (mkModule [Demo.demoCmp [Demo.demoStyle; Demo.demoStyleDark]])
           Hsome).
Defined.

Lemma updateStyleImports_nothing_to_link_witness :
  ((∃ cmp style,
      cmp ∈ cmps (mkModule
                    [Demo.demoCmp [mkStyle "" (Some "cmpAStyle0") []]]) ∧
      style ∈ styles cmp ∧ is_Some (styleIdentifier style)) ∧
   (∀ cmp style identifier,
      cmp ∈ cmps (mkModule
                    [Demo.demoCmp [mkStyle "" (Some "cmpAStyle0") []]]) →
      style ∈ styles cmp →
      styleIdentifier style = Some identifier →
      externalStyles style = [] ∧
      Forall (λ n, bindsIdentifier identifier n = false)
        (statements Demo.demoSourceFileNoImport))) ∧
  (updateEsmStyleImports Demo.demoSerializeImportPath
     Demo.demoUpdateSourceFile Demo.demoEsm Demo.demoSourceFileNoImport
     (mkModule [Demo.demoCmp [mkStyle "" (Some "cmpAStyle0") []]]) =
   Demo.demoUpdateSourceFile Demo.demoSourceFileNoImport
     (statements Demo.demoSourceFileNoImport) ∧
   updateCjsStyleRequires Demo.demoSerializeImportPath
     Demo.demoUpdateSourceFile Demo.demoCjs Demo.demoSourceFileNoImport
     (mkModule [Demo.demoCmp [mkStyle "" (Some "cmpAStyle0") []]]) =
   Demo.demoSourceFileNoImport).
Proof.
  assert (∃ cmp style,
            cmp ∈ cmps (mkModule
                          [Demo.demoCmp [mkStyle "" (Some "cmpAStyle0") []]]) ∧
            style ∈ styles cmp ∧ is_Some (styleIdentifier style)) as Hsome.
  { exists (Demo.demoCmp [mkStyle "" (Some "cmpAStyle0") []]),
      (mkStyle "" (Some "cmpAStyle0") []).
    split; [apply list_elem_of_here|]. split; [apply list_elem_of_here|].
    by eexists. }
  assert (∀ cmp style identifier,
            cmp ∈ cmps (mkModule
                          [Demo.demoCmp [mkStyle "" (Some "cmpAStyle0") []]]) →
            style ∈ styles cmp →
            styleIdentifier style = Some identifier →
            externalStyles style = [] ∧
            Forall (λ n, bindsIdentifier identifier n = false)
              (statements Demo.demoSourceFileNoImport)) as Hall.
  { intros cmp style identifier Hcmp Hstyle Hid.
    apply list_elem_of_singleton in Hcmp as ->.
    apply list_elem_of_singleton in Hstyle as ->.
    split; [done|]. by repeat constructor. }
  split; [by split|].
  split.
  - exact (proj1 (updateStyleImports_nothing_to_link
                    Demo.demoSerializeImportPath Demo.demoUpdateSourceFile
                    Demo.demoEsm Demo.demoSourceFileNoImport
                    (mkModule [Demo.demoCmp [mkStyle "" (Some "cmpAStyle0") []]])
                    Hsome Hall)).
  - exact (proj2 (updateStyleImports_nothing_to_link
                    Demo.demoSerializeImportPath Demo.demoUpdateSourceFile
                    Demo.demoCjs Demo.demoSourceFileNoImport
                    (mkModule [Demo.demoCmp [mkStyle "" (Some "cmpAStyle0") []]])
                    Hsome Hall)).
Defined.

End LinkerProperties.

(** ** The helper [c] of the field rewriter's tests *)

Module CompactProperties.
Import Stdlib.Strings.Ascii ConvertDecoratorsSpec.

Section CompactProperties.
Variable char : Type.
Context `{EqDecision char}.
Variable isWhitespace : char → bool.
Variable newline space : char.
Hypothesis newline_is_whitespace : isWhitespace newline = true.
Hypothesis space_is_whitespace : isWhitespace space = true.

Local Abbreviation replaceWhitespaceRuns :=
  (replaceWhitespaceRuns char isWhitespace space).
Local Abbreviation c := (c char isWhitespace newline space).

Implicit Types (s : list char) (ch : char).

Lemma replaceFirst_newline_absorbed s :
  ∀ inRun,
    replaceWhitespaceRuns inRun (replaceFirst char newline space s) =
    replaceWhitespaceRuns inRun s.
Proof.
  induction s as [|ch rest IH]; intros inRun; [done|].
  simpl. destruct (decide (ch = newline)) as [->|Hne].
  - simpl. by rewrite newline_is_whitespace, space_is_whitespace.
  - simpl. destruct (isWhitespace ch); [destruct inRun|]; by rewrite IH.
Qed.

Lemma replaceWhitespaceRuns_shape s :
  ∀ inRun,
    let out := replaceWhitespaceRuns inRun s in
    (inRun = true → ∀ ch, head out = Some ch → isWhitespace ch = false) ∧
    Forall (λ ch, isWhitespace ch = true → ch = space) out ∧
    (∀ i a b, out !! i = Some a → out !! S i = Some b →
              isWhitespace a = true → isWhitespace b = false).
Proof.
  induction s as [|ch rest IH]; intros inRun; simpl.
  { split; [done|]. split; [done|]. intros i a b Ha. done. }
  destruct (isWhitespace ch) eqn:Hch.
  - destruct inRun.
    + apply IH.
    + destruct (IH true) as (Hhead & Hall & Hadj).
      split; [done|]. split; [by constructor|].
      intros [|i] a b Ha Hb Hws; simpl in *.
      * simplify_eq. apply Hhead; [done|].
        by destruct (ConvertDecoratorsSpec.replaceWhitespaceRuns _ _ _ true rest).
      * exact (Hadj i a b Ha Hb Hws).
  - destruct (IH false) as (_ & Hall & Hadj).
    split; [intros _ ch' [= <-]; done|]. split.
    + constructor; [|done]. intros Hws. congruence.
    + intros [|i] a b Ha Hb Hws; simpl in *.
      * simplify_eq. congruence.
      * exact (Hadj i a b Ha Hb Hws).
Qed.

Lemma replaceWhitespaceRuns_idempotent s :
  ∀ inRun inRun', (inRun' = true → inRun = true) →
    replaceWhitespaceRuns inRun' (replaceWhitespaceRuns inRun s) =
    replaceWhitespaceRuns inRun s.
Proof.
  induction s as [|ch rest IH]; intros inRun inRun' Himp; [done|].
  simpl. destruct (isWhitespace ch) eqn:Hch.
  - destruct inRun.
    + by apply IH.
    + destruct inRun'; [by discriminate Himp|].
      simpl. rewrite space_is_whitespace. f_equal. by apply IH.
  - simpl. rewrite Hch. f_equal. by apply IH.
Qed.

Lemma replaceWhitespaceRuns_keeps_text s :
  ∀ inRun,
    filter (λ ch, isWhitespace ch = false) (replaceWhitespaceRuns inRun s) =
    filter (λ ch, isWhitespace ch = false) s.
Proof.
  induction s as [|ch rest IH]; intros inRun; [done|].
  simpl. destruct (isWhitespace ch) eqn:Hch.
  - rewrite (filter_cons_False _ ch) by congruence.
    destruct inRun; [apply IH|].
    rewrite filter_cons_False by (rewrite space_is_whitespace; congruence).
    apply IH.
  - rewrite !filter_cons_True by done. f_equal. apply IH.
Qed.

(** X20. In [c], replacing the first line feed by a space before the runs of
    whitespace are collapsed has no effect on the result: [c] is the
    collapse of the joined strings, and it leaves a text it produced as it
    is. *)
Theorem c_collapses_joined_text (strings : list (list char)) :
  c strings = replaceWhitespaceRuns false (concat strings) ∧
  c [c strings] = c strings.
Proof.
  assert (∀ strings', c strings' = replaceWhitespaceRuns false (concat strings'))
    as Hc.
  { intros strings'. unfold ConvertDecoratorsSpec.c.
    apply replaceFirst_newline_absorbed. }
  split; [apply Hc|].
  rewrite (Hc [c strings]). simpl. rewrite app_nil_r, Hc.
  by apply replaceWhitespaceRuns_idempotent.
Qed.

(** X21. The text returned by [c] has no whitespace but single spaces: every
    whitespace unit in it is a space and no two neighbours are both
    whitespace; the units that are not whitespace are those of the joined
    strings, in the same order. *)
Theorem c_normal_form (strings : list (list char)) :
  Forall (λ ch, isWhitespace ch = true → ch = space) (c strings) ∧
  (∀ i a b, c strings !! i = Some a → c strings !! S i = Some b →
            isWhitespace a = true → isWhitespace b = false) ∧
  filter (λ ch, isWhitespace ch = false) (c strings) =
  filter (λ ch, isWhitespace ch = false) (concat strings).
Proof.
  unfold ConvertDecoratorsSpec.c.
  rewrite replaceFirst_newline_absorbed.
  destruct (replaceWhitespaceRuns_shape (concat strings) false)
    as (_ & Hall & Hadj).
  split; [done|]. split; [done|]. apply replaceWhitespaceRuns_keeps_text.
Qed.

End CompactProperties.

(** *** The theorems at work on bytes *)

Lemma c_collapses_joined_text_witness :
  (Demo.demoIsWhitespace "010" = true ∧ Demo.demoIsWhitespace " " = true) ∧
  (c Ascii.ascii Demo.demoIsWhitespace "010"%char " "%char
     [["a"; "010"; " "]%char; [" "; "b"; "010"; "010"; "c"]%char]
   = ["a"; " "; "b"; " "; "c"]%char ∧
   c Ascii.ascii Demo.demoIsWhitespace "010"%char " "%char
     [c Ascii.ascii Demo.demoIsWhitespace "010"%char " "%char
        [["a"; "010"; " "]%char; [" "; "b"; "010"; "010"; "c"]%char]]
   = c Ascii.ascii Demo.demoIsWhitespace "010"%char " "%char
       [["a"; "010"; " "]%char; [" "; "b"; "010"; "010"; "c"]%char]).
Proof.
  assert (Demo.demoIsWhitespace "010" = true) as Hnewline
    by (vm_compute; reflexivity).
  assert (Demo.demoIsWhitespace " " = true) as Hspace
    by (vm_compute; reflexivity).
  split; [by split|].
  exact (c_collapses_joined_text Ascii.ascii Demo.demoIsWhitespace
           "010"%char " "%char Hnewline Hspace
           [["a"; "010"; " "]%char; [" "; "b"; "010"; "010"; "c"]%char]).
Defined.

Lemma c_normal_form_witness :
  (Demo.demoIsWhitespace "010" = true ∧ Demo.demoIsWhitespace " " = true) ∧
  (Forall (λ ch, Demo.demoIsWhitespace ch = true → ch = " "%char)
     (c Ascii.ascii Demo.demoIsWhitespace "010"%char " "%char
        [["a"; "010"; " "]%char; [" "; "b"; "009"; "010"; "c"]%char]) ∧
   (∀ i a b,
      c Ascii.ascii Demo.demoIsWhitespace "010"%char " "%char
        [["a"; "010"; " "]%char; [" "; "b"; "009"; "010"; "c"]%char] !! i
      = Some a →
      c Ascii.ascii Demo.demoIsWhitespace "010"%char " "%char
        [["a"; "010"; " "]%char; [" "; "b"; "009"; "010"; "c"]%char] !! S i
      = Some b →
      Demo.demoIsWhitespace a = true → Demo.demoIsWhitespace b = false) ∧
   filter (λ ch, Demo.demoIsWhitespace ch = false)
     (c Ascii.ascii Demo.demoIsWhitespace "010"%char " "%char
        [["a"; "010"; " "]%char; [" "; "b"; "009"; "010"; "c"]%char])
   = filter (λ ch, Demo.demoIsWhitespace ch = false)
       (concat [["a"; "010"; " "]%char; [" "; "b"; "009"; "010"; "c"]%char])).
Proof.
  assert (Demo.demoIsWhitespace "010" = true) as Hnewline
    by (vm_compute; reflexivity).
  assert (Demo.demoIsWhitespace " " = true) as Hspace
    by (vm_compute; reflexivity).
  split; [by split|].
  exact (c_normal_form Ascii.ascii Demo.demoIsWhitespace
           "010"%char " "%char Hnewline Hspace
           [["a"; "010"; " "]%char; [" "; "b"; "009"; "010"; "c"]%char]).
Defined.

End CompactProperties.
